(** * freeze.py: change detection and replication over a hash database

    A shallow embedding of [freeze.py] and the properties of its
    change-detection and replication engine.

    Conventions of the embedding.
    - A Python [str] is a [string]: the sequence of its code points, each
      one of 256.  The values below 192 are the code points below U+00C0;
      the values from 192 on are the lone surrogates U+DCC0..U+DCFF, as
      which [os.walk] and [sys.argv] give the bytes C0..FF of a file name
      that is not UTF-8 ([os.fsdecode]).  Text files are modelled at the
      level of their decoded text, byte files at the level of their bytes,
      both as [string].
    - Text files are written in UTF-8, which encodes every code point but
      a surrogate ([Py.encodable]); the standard streams take every string
      (their error handler is [surrogateescape], as in the UTF-8 mode of
      Python).
    - A path is the list of the components of a path string in normal form
      (no empty, [.] or [..] component); [[]] is the empty path string.
      Relative paths are resolved against an implicit working directory that
      always exists.
    - The file system is a finite map from paths to nodes (regular files
      and directories), meant to be a tree: every node is in a directory
      ([tree_shaped], which the program keeps).  Links, permissions and
      failing devices are not modelled.
    - A Python [dict] is a [gmap], a [set] a [gset]; iteration enumerates
      [map_to_list] and [elements].  No statement below depends on the
      order of an enumeration.
    - Effects (file system, standard input, standard output, exceptions and
      [exit]) are threaded through the monad [M]. *)

From stdpp Require Import gmap strings list fin_maps pretty.
From Stdlib Require Import ZArith Ascii.

(** ** Python strings *)

Module Py.

Definition TAB : ascii := "009"%char.
Definition LF : ascii := "010"%char.
Definition CR : ascii := "013"%char.
Definition SLASH : ascii := "/"%char.

Definition tab : string := String TAB "".
Definition nl : string := String LF "".

(** [str.isspace] on one code point: U+0009..U+000D, U+001C..U+001F,
    U+0020, U+0085 and U+00A0; no surrogate is whitespace. *)
Definition isspace (c : ascii) : bool :=
  let n := nat_of_ascii c in
  ((9 <=? n) && (n <=? 13)) || ((28 <=? n) && (n <=? 32))
  || (n =? 133) || (n =? 160).

Definition is_empty (s : string) : bool :=
  match s with "" => true | _ => false end.

(** [s.rstrip()]: drop the longest suffix of whitespace. *)
Fixpoint rstrip (s : string) : string :=
  match s with
  | "" => ""
  | String c s' =>
      let r := rstrip s' in
      if is_empty r && isspace c then "" else String c r
  end.

(** [s.split(sep, maxsplit=1)] for a one-character separator: [None] when
    the separator does not occur (a one-element list in Python), the parts
    before and after its first occurrence otherwise. *)
Fixpoint split1 (sep : ascii) (s : string) : option (string * string) :=
  match s with
  | "" => None
  | String c s' =>
      if decide (c = sep) then Some ("", s')
      else match split1 sep s' with
           | Some (a, b) => Some (String c a, b)
           | None => None
           end
  end.

(** [s.split(sep)] for a one-character separator. *)
Fixpoint split (sep : ascii) (s : string) : list string :=
  match s with
  | "" => [""]
  | String c s' =>
      if decide (c = sep) then "" :: split sep s'
      else match split sep s' with
           | [] => [String c ""]
           | x :: xs => String c x :: xs
           end
  end.

(** [sep.join(l)]. *)
Fixpoint join (sep : string) (l : list string) : string :=
  match l with
  | [] => ""
  | [x] => x
  | x :: xs => x +:+ sep +:+ join sep xs
  end.

Fixpoint startswith (s p : string) : bool :=
  match p, s with
  | "", _ => true
  | String a p', String b s' => bool_decide (a = b) && startswith s' p'
  | String _ _, "" => false
  end.

(** [s.endswith(p)]: [p] is [s] or a suffix of what follows its first
    code point. *)
Fixpoint endswith (s p : string) : bool :=
  bool_decide (s = p)
  || match s with
     | "" => false
     | String _ s' => endswith s' p
     end.

(** Universal-newline translation of a text stream opened for reading:
    CR LF and a lone CR both read as LF. *)
Fixpoint translate_newlines (s : string) : string :=
  match s with
  | "" => ""
  | String c s' =>
      if decide (c = CR) then
        String LF (match s' with
                   | String c' s'' =>
                       if decide (c' = LF) then translate_newlines s''
                       else translate_newlines s'
                   | "" => ""
                   end)
      else String c (translate_newlines s')
  end.

(** The lines of a text, each with its terminating LF when it has one. *)
Fixpoint splitlines_keep (s : string) : list string :=
  match s with
  | "" => []
  | String c s' =>
      if decide (c = LF) then nl :: splitlines_keep s'
      else match splitlines_keep s' with
           | [] => [String c ""]
           | l :: ls => String c l :: ls
           end
  end.

(** [fd.readlines()] on a text file whose decoded content is [s]. *)
Definition readlines (s : string) : list string :=
  splitlines_keep (translate_newlines s).

(** No occurrence of the character [c] in [s]. *)
Fixpoint lacks (c : ascii) (s : string) : bool :=
  match s with
  | "" => true
  | String a s' => negb (bool_decide (a = c)) && lacks c s'
  end.

(** [s] is not empty and its last code point is not whitespace. *)
Fixpoint ends_visible (s : string) : bool :=
  match s with
  | "" => false
  | String c "" => negb (isspace c)
  | String _ s' => ends_visible s'
  end.

(** The code points that UTF-8 encodes: all but the surrogates. *)
Definition encodable_char (c : ascii) : bool := nat_of_ascii c <? 192.

(** [s.encode("utf-8")] does not raise: no code point of [s] is a
    surrogate. *)
Fixpoint encodable (s : string) : bool :=
  match s with
  | "" => true
  | String c s' => encodable_char c && encodable s'
  end.

End Py.

(** ** Paths ([os.path]) *)

Abbreviation path := (list string).

(** The components of a path string in normal form. *)
Definition path_of_string (s : string) : path :=
  if Py.is_empty s then [] else Py.split Py.SLASH s.

(** The path string of a component list. *)
Definition path_str (p : path) : string := Py.join "/" p.

(** [os.path.join(a, b)] for a relative [b], as is every file name listed
    by [os.walk] and every file reference made by [os.path.relpath]. *)
Definition os_path_join (a : path) (b : string) : path :=
  a ++ Py.split Py.SLASH b.

(** [os.path.split(p)]: everything before the last component, and the last
    component. *)
Definition os_path_split (p : path) : path * string :=
  (removelast p, default "" (last p)).

(** The number of leading components that two paths share. *)
Fixpoint common_prefix_length (l1 l2 : path) : nat :=
  match l1, l2 with
  | x :: l1', y :: l2' =>
      if decide (x = y) then S (common_prefix_length l1' l2') else 0
  | _, _ => 0
  end.

(** [os.path.relpath(p, start=start)]: one [..] for each component of
    [start] outside the common prefix, then what is left of [p]. *)
Definition os_path_relpath (p start : path) : string :=
  let i := common_prefix_length start p in
  let rel_list := replicate (length start - i) ".." ++ drop i p in
  match rel_list with
  | [] => "."
  | _ => Py.join "/" rel_list
  end.

(** ** The file system, the process and the monad of effects *)

(** A node of the file system: a regular file with its content, or a
    directory. *)
Inductive node :=
  | File (content : string)
  | Dir.

Global Instance node_eq_dec : EqDecision node.
Proof. solve_decision. Defined.

Abbreviation filesystem := (gmap (list string) node).

(** What the process does to the outside, as the trace records it. *)
Inductive event :=
  | EvPrint (line : string)                  (* a line on standard output *)
  | EvPrompt (prompt : string)               (* the prompt of [input] *)
  | EvOpenW (p : path)                       (* [open(p, "w")]: create or truncate *)
  | EvWrite (p : path) (text : string)       (* [file.write(text)] *)
  | EvMkdir (p : path)                       (* [os.mkdir(p)] *)
  | EvCopy (src dst : path).                 (* a file copied by [shutil.copy2] *)

(** The exceptions that the program can raise. *)
Inductive exn :=
  | FileNotFoundError | FileExistsError | NotADirectoryError
  | IsADirectoryError | SameFileError
  | ValueError | KeyError | IndexError | NameError | EOFError
  | UnicodeEncodeError.

(** The state that the process runs in. *)
Record world := World {
  w_fs : filesystem;
  w_stdin : list string;      (* the lines still to be read *)
  w_trace : list event        (* what the process did so far, oldest first *)
}.

(** How a computation ends: with a value, with an exception, with
    [exit], or at the bound of a loop of the embedding. *)
Inductive result (A : Type) :=
  | Ok (a : A)
  | Raise (e : exn)
  | Exit (code : Z)           (* [SystemExit] raised by [exit(code)] *)
  | OutOfFuel.
Arguments Ok {A} a.
Arguments Raise {A} e.
Arguments Exit {A} code.
Arguments OutOfFuel {A}.

(** The monad of effects: state for the world, and the first exception or
    exit ends the computation. *)
Definition M (A : Type) : Type := world → result A * world.

Global Instance M_ret : MRet M := λ A a w, (Ok a, w).
Global Instance M_bind : MBind M := λ A B f m w,
  match m w with
  | (Ok a, w') => f a w'
  | (Raise e, w') => (Raise e, w')
  | (Exit c, w') => (Exit c, w')
  | (OutOfFuel, w') => (OutOfFuel, w')
  end.

Definition raise {A} (e : exn) : M A := λ w, (Raise e, w).
Definition exit {A} (code : Z) : M A := λ w, (Exit code, w).
Definition out_of_fuel {A} : M A := λ w, (OutOfFuel, w).

Definition emit (e : event) : M unit := λ w,
  (Ok tt, World (w_fs w) (w_stdin w) (w_trace w ++ [e])).

(** [print(line)]. *)
Definition print (line : string) : M unit := emit (EvPrint line).

(** [input(prompt)]: the next line of standard input without its newline,
    [EOFError] at the end of the input. *)
Definition input (prompt : string) : M string := λ w,
  let t := w_trace w ++ [EvPrompt prompt] in
  match w_stdin w with
  | line :: rest => (Ok line, World (w_fs w) rest t)
  | [] => (Raise EOFError, World (w_fs w) [] t)
  end.

(** The exit status of the process for the outcome of the main program. *)
Definition exit_status {A} (r : result A) : option Z :=
  match r with
  | Ok _ => Some 0%Z
  | Exit c => Some c
  | Raise _ => Some 1%Z
  | OutOfFuel => None
  end.

(** The [for] loop over a list, with the variables assigned in its body as
    an accumulator. *)
Fixpoint for_fold {A S} (body : S → A → M S) (s : S) (l : list A) : M S :=
  match l with
  | [] => mret s
  | x :: l' => s' ← body s x; for_fold body s' l'
  end.

(** The [for] loop whose body assigns nothing that outlives it. *)
Definition for_each {A} (body : A → M unit) (l : list A) : M unit :=
  for_fold (λ _ x, body x) tt l.

(** [d[k]]. *)
Definition dict_get (d : gmap string string) (k : string) : M string :=
  match d !! k with
  | Some v => mret v
  | None => raise KeyError
  end.

(** [del d[k]]. *)
Definition dict_del (d : gmap string string) (k : string)
  : M (gmap string string) :=
  match d !! k with
  | Some _ => mret (delete k d)
  | None => raise KeyError
  end.

(** [l[i]]. *)
Definition list_get (l : list string) (i : nat) : M string :=
  match l !! i with
  | Some v => mret v
  | None => raise IndexError
  end.

(** The truth value of what [d.get(k)] returns: [None] and the empty string
    are false. *)
Definition truthy (v : option string) : bool :=
  match v with
  | Some s => negb (Py.is_empty s)
  | None => false
  end.

(** *** File-system primitives *)

(** What the directory part of a path is. *)
Inductive parent_kind := ParentDir | ParentFile | ParentMissing.

Global Instance parent_kind_eq_dec : EqDecision parent_kind.
Proof. solve_decision. Defined.

(** The directory part of [p].  The empty path string names no file; a
    single component lives in the working directory. *)
Definition parent_of (fs : filesystem) (p : path) : parent_kind :=
  match p with
  | [] => ParentMissing
  | _ =>
      match removelast p with
      | [] => ParentDir
      | q => match fs !! q with
             | Some Dir => ParentDir
             | Some (File _) => ParentFile
             | None => ParentMissing
             end
      end
  end.

(** [os.path.exists(p)]. *)
Definition os_path_exists (p : path) : M bool := λ w,
  (Ok (bool_decide (is_Some (w_fs w !! p))), w).

(** [os.mkdir(p)]: [p] must not exist and its parent must be a directory. *)
Definition os_mkdir (p : path) : M unit := λ w,
  match w_fs w !! p with
  | Some _ => (Raise FileExistsError, w)
  | None =>
      match parent_of (w_fs w) p with
      | ParentDir =>
          (Ok tt, World (<[p := Dir]> (w_fs w)) (w_stdin w)
                        (w_trace w ++ [EvMkdir p]))
      | ParentFile => (Raise NotADirectoryError, w)
      | ParentMissing => (Raise FileNotFoundError, w)
      end
  end.

(** Creating or truncating the regular file [p] with content [c]. *)
Definition create_file (p : path) (c : string) (ev : event) : M unit := λ w,
  match w_fs w !! p with
  | Some Dir => (Raise IsADirectoryError, w)
  | _ =>
      match parent_of (w_fs w) p with
      | ParentDir =>
          (Ok tt, World (<[p := File c]> (w_fs w)) (w_stdin w)
                        (w_trace w ++ [ev]))
      | ParentFile => (Raise NotADirectoryError, w)
      | ParentMissing => (Raise FileNotFoundError, w)
      end
  end.

(** [open(p, "w")]: the file is created, or truncated when it exists. *)
Definition open_w (p : path) : M unit := create_file p "" (EvOpenW p).

(** [file.write(text)] on the text file opened at [p].  The text is
    encoded as a whole: when it holds a code point that UTF-8 does not
    encode, [UnicodeEncodeError] is raised and nothing of it is written;
    what was written before is in the file when it is closed. *)
Definition file_write (p : path) (text : string) : M unit := λ w,
  match w_fs w !! p with
  | Some (File c) =>
      if Py.encodable text then
        (Ok tt, World (<[p := File (c +:+ text)]> (w_fs w)) (w_stdin w)
                      (w_trace w ++ [EvWrite p text]))
      else (Raise UnicodeEncodeError, w)
  | _ => (Raise FileNotFoundError, w)
  end.

(** The whole content of the regular file [p], as [open(p)] followed by
    reading to the end of the stream gives it. *)
Definition read_file (p : path) : M string := λ w,
  match w_fs w !! p with
  | Some (File c) => (Ok c, w)
  | Some Dir => (Raise IsADirectoryError, w)
  | None => (Raise FileNotFoundError, w)
  end.

(** The names in the directory [root] that satisfy [want]. *)
Definition listdir (fs : filesystem) (want : node → bool) (root : path)
  : list string :=
  omap (λ '(p, n), if bool_decide (removelast p = root) && want n
                   then last p else None) (map_to_list fs).

Definition is_dir (n : node) : bool :=
  match n with Dir => true | File _ => false end.
Definition is_file (n : node) : bool :=
  match n with File _ => true | Dir => false end.

(** [os.walk(top)]: one triple (directory, names of its sub-directories,
    names of its other entries) for [top] and each directory below it;
    nothing when [top] is not a directory. *)
Definition walk (fs : filesystem) (top : path)
  : list (path * list string * list string) :=
  match fs !! top with
  | Some Dir =>
      (λ root, (root, listdir fs is_dir root, listdir fs is_file root))
      <$> filter (λ p, top `prefix_of` p ∧ fs !! p = Some Dir)
                 (map_to_list fs).*1
  | _ => []
  end.

Definition os_walk (top : path)
  : M (list (path * list string * list string)) := λ w,
  (Ok (walk (w_fs w) top), w).

(** [shutil.copy2(src, dst)]: into [dst] when it is a directory, under the
    base name of [src]. *)
Definition shutil_copy2 (src dst : path) : M unit := λ w,
  let target :=
    match w_fs w !! dst with
    | Some Dir => dst ++ [(os_path_split src).2]
    | _ => dst
    end in
  match w_fs w !! src with
  | None => (Raise FileNotFoundError, w)
  | Some Dir => (Raise IsADirectoryError, w)
  | Some (File c) =>
      if decide (src = target) then (Raise SameFileError, w)
      else create_file target c (EvCopy src target) w
  end.

(** ** The program *)

(** What [check] returns: the dictionary with the keys ["db"],
    ["deletions"], ["additions"] and ["changes"]. *)
Record check_data := CheckData {
  db : gmap string string;
  deletions : list string;
  additions : list (string * string);
  changes : list (string * string)
}.

(** [is_dirty(data)]. *)
Definition is_dirty (data : check_data) : bool :=
  if 0 <? length (additions data) then true
  else if 0 <? length (deletions data) then true
  else if 0 <? length (changes data) then true
  else false.

(** The line [write_db] writes for one entry. *)
Definition db_line (filehash filename : string) : string :=
  filehash +:+ Py.tab +:+ filename +:+ Py.nl.

(** [write_db(sumfile, hashdb)]. *)
Definition write_db (sumfile : path) (hashdb : gmap string string) : M unit :=
  open_w sumfile;;
  for_each (λ filename,
              filehash ← dict_get hashdb filename;
              file_write sumfile (db_line filehash filename))
           (map_to_list hashdb).*1.

(** [make_parents(filepath)]: the [while] loop, with a bound on the number
    of its iterations. *)
Fixpoint make_parents_loop (fuel : nat) (directory : path) : M unit :=
  match fuel with
  | 0 => out_of_fuel
  | S fuel' =>
      found ← os_path_exists directory;
      if negb found then
        os_mkdir directory;;
        make_parents_loop fuel' (os_path_split directory).1
      else mret tt
  end.

Definition make_parents (filepath : path) : M unit :=
  let '(directory, filename) := os_path_split filepath in
  make_parents_loop (S (length directory)) directory.

(** The body of the loop of [load_db] over the lines of the file. *)
Definition load_line (hashdb : gmap string string) (line : string)
  : M (gmap string string) :=
  let line := Py.rstrip line in
  match Py.split1 Py.TAB line with
  | Some (filehash, filename) => mret (<[filename := filehash]> hashdb)
  | None => raise ValueError
  end.

(** [load_db(sumfile)]. *)
Definition load_db (sumfile : path) : M (gmap string string) :=
  found ← os_path_exists sumfile;
  if (found : bool) then
    print "Reading checksum db...";;
    text ← read_file sumfile;
    for_fold load_line ∅ (Py.readlines text)
  else
    print ("Cant find checksum file at  " +:+ path_str sumfile);;
    print "Warning, no checksums found, assuming zero known files!";;
    mret ∅.

(** The filter of the scan on a file name. *)
Definition scanned_name (file : string) : bool :=
  negb (Py.endswith file ".sha1sums")
  && negb (Py.endswith file ".sha1sums_new").

(** The file references that [check] adds to [filelist] for one triple of
    [os.walk]. *)
Definition scan_root (directory : path)
    (triple : path * list string * list string) : list string :=
  let '(root, dirs, files) := triple in
  (λ file, os_path_relpath file directory)
  <$> (os_path_join root <$> filter (λ file, scanned_name file) files).

(** The set [filelist] that [check] fills from [os.walk]. *)
Definition scan_filelist (directory : path)
    (walked : list (path * list string * list string)) : gset string :=
  list_to_set (walked ≫= scan_root directory).

(** The test of [check] on one hashed file: a change, an addition, or
    neither. *)
Definition classify (hashdb : gmap string string) (fileref filehash : string)
    (acc : list (string * string) * list (string * string))
  : list (string * string) * list (string * string) :=
  let '(additions, changes) := acc in
  match hashdb !! fileref with
  | Some known =>
      if decide (known ≠ filehash)
      then (additions, changes ++ [(fileref, filehash)])
      else (additions, changes)
  | None => (additions ++ [(fileref, filehash)], changes)
  end.

(** The loop of [check] over the database: the deletions. *)
Definition scan_deletions (hashdb : gmap string string)
    (filelist : gset string) : list string :=
  filter (λ file, file ∉ filelist) (map_to_list hashdb).*1.

Section Program.

(** [hashlib.sha1(content).hexdigest()].  The file is read in chunks that
    are fed to the hash one after the other, which hashes the whole
    content. *)
Variable sha1_hexdigest : string → string.

(** The body of the loop of [check] over [filelist]. *)
Definition check_file (directory : path) (hashdb : gmap string string)
    (acc : list (string * string) * list (string * string))
    (fileref : string)
  : M (list (string * string) * list (string * string)) :=
  let file := os_path_join directory fileref in
  content ← read_file file;
  let filehash := sha1_hexdigest content in
  mret (classify hashdb fileref filehash acc).

(** [check(directory, log)]; the progress bar is not modelled. *)
Definition check (directory : path) (log : bool) : M check_data :=
  let sumfile := os_path_join directory ".sha1sums" in
  hashdb ← load_db sumfile;
  (if log then print "Getting filelist..." else mret tt);;
  walked ← os_walk directory;
  let filelist := scan_filelist directory walked in
  (if log then print "Computing hashes, please wait..." else mret tt);;
  '(additions, changes) ←
    for_fold (check_file directory hashdb) ([], []) (elements filelist);
  let deletions := scan_deletions hashdb filelist in
  mret (CheckData hashdb deletions additions changes).

(** The body of the first loop of [replicate].  [newdsthash] is the
    dictionary [dstdata["db"]] itself, so the loop reads what it wrote. *)
Definition replicate_file (src dst : path) (srcdb : gmap string string)
    (newdsthash : gmap string string) (srcfile : string)
  : M (gmap string string) :=
  srchash ← dict_get srcdb srcfile;
  let dsthash := newdsthash !! srcfile in
  if truthy dsthash then
    if decide (dsthash ≠ Some srchash) then
      print ("File " +:+ srcfile
             +:+ " changed in src filesystem, replicating.");;
      let srcpath := os_path_join src srcfile in
      let dstpath := os_path_join dst srcfile in
      print (path_str dstpath +:+ " -> " +:+ path_str srcpath);;
      shutil_copy2 srcpath dstpath;;
      mret (<[srcfile := srchash]> newdsthash)
    else mret newdsthash
  else
    print ("File " +:+ srcfile +:+ " added in src filesystem, replicating.");;
    let srcpath := os_path_join src srcfile in
    let dstpath := os_path_join dst srcfile in
    print (path_str dstpath +:+ " -> " +:+ path_str srcpath);;
    make_parents dstpath;;
    let newdsthash := <[srcfile := srchash]> newdsthash in
    shutil_copy2 srcpath dstpath;;
    mret newdsthash.

(** The line that [replicate] prints for a path it will not delete. *)
Definition refusal (dstfile : string) : string :=
  "* Refusing to automaticly delete  " +:+ dstfile +:+ "  in backup".

(** The body of the second loop of [replicate]. *)
Definition report_deletion (srcdb : gmap string string) (dstfile : string)
  : M unit :=
  if negb (truthy (srcdb !! dstfile)) then print (refusal dstfile)
  else mret tt.

(** The part of [replicate] that follows the two gates. *)
Definition replicate_clean (src dst : path) (srcdb dstdb : gmap string string)
  : M unit :=
  newdsthash ←
    for_fold (replicate_file src dst srcdb) dstdb (map_to_list srcdb).*1;
  for_each (report_deletion srcdb) (map_to_list newdsthash).*1;;
  write_db (os_path_join dst ".sha1sums") newdsthash.

(** [replicate(src, dst)]. *)
Definition replicate (src dst : path) : M unit :=
  print ("Checking source  " +:+ path_str src);;
  srcdata ← check src true;
  print ("Checking destination  " +:+ path_str dst);;
  dstdata ← check dst true;
  if is_dirty srcdata then
    print "* Source filetree is dirty, please run an integrity check and review changes"
  else if is_dirty dstdata then
    print "* Destination filetree is dirty, please run an integrity check and review changes, this likly indicates damage to the backup"
  else
    replicate_clean src dst (db srcdata) (db dstdata).

(** The decision of [interactive_check] on the answer of the reviewer. *)
Definition affirmative (commit : string) : bool :=
  Py.startswith commit "y" || Py.startswith commit "Y".

(** The report of [interactive_check]: the statistics and the three
    lists. *)
Definition show_changes (hashdb : gmap string string)
    (additions changes : list (string * string)) (deletions : list string)
  : M unit :=
  print (pretty (length additions) +:+ " Additions, "
         +:+ pretty (length deletions) +:+ " Deletions, "
         +:+ pretty (length changes) +:+ " Changes.");;
  for_each (λ '(file, filehash),
              print "File added:";;
              print (Py.tab +:+ " " +:+ file);;
              print (Py.tab +:+ " " +:+ filehash)) additions;;
  for_each (λ '(file, filehash),
              print "File CHANGED:";;
              print (Py.tab +:+ " " +:+ file);;
              known ← dict_get hashdb file;
              print (Py.tab +:+ " " +:+ known +:+ " -> " +:+ filehash))
           changes;;
  for_each (λ file,
              print "File DELETED:";;
              print (Py.tab +:+ " " +:+ file);;
              known ← dict_get hashdb file;
              print (Py.tab +:+ " " +:+ known)) deletions.

(** The end of [interactive_check]: the database is changed to reflect the
    state of the file system, and written. *)
Definition commit_changes (sumfile : path) (hashdb : gmap string string)
    (additions changes : list (string * string)) (deletions : list string)
  : M unit :=
  hashdb ← for_fold (λ hashdb '(name, filehash),
                       mret (<[name := filehash]> hashdb)) hashdb additions;
  hashdb ← for_fold (λ hashdb '(name, filehash),
                       mret (<[name := filehash]> hashdb)) hashdb changes;
  hashdb ← for_fold dict_del hashdb deletions;
  write_db sumfile hashdb.

(** [interactive_check(directory)]. *)
Definition interactive_check (directory : path) : M unit :=
  let sumfile := os_path_join directory ".sha1sums" in
  results ← check directory true;
  let additions := additions results in
  let deletions := deletions results in
  let changes := changes results in
  let hashdb := db results in
  show_changes hashdb additions changes deletions;;
  print "* Please review changes, including checking if changed files are ok before commiting.";;
  commit ← input "Commit changes [y/n]? ";
  (if negb (affirmative commit) then
     print "Canceled.";;
     exit 0
   else mret tt);;
  commit_changes sumfile hashdb additions changes deletions.

(** [usage()] of the main program. *)
Definition usage (argv : list string) : M unit :=
  argv0 ← list_get argv 0;
  print ("Usage: " +:+ argv0 +:+ " check [directory]");;
  argv0 ← list_get argv 0;
  print ("Usage: " +:+ argv0 +:+ " replicate [src] [dst]").

(** Reading a global name that no statement of the module binds: the
    module binds [hashlib], [os], [sys], [tqdm], its functions, [usage],
    [subcommand], [directory], [src] and [dst]. *)
Definition unbound_name (name : string) : M string := raise NameError.

(** The main program, run on [sys.argv]. *)
Definition main (argv : list string) : M unit :=
  if length argv <? 2 then
    usage argv;;
    exit 1
  else
    subcommand ← list_get argv 1;
    if decide (subcommand = "check") then
      if length argv <? 3 then
        usage argv;;
        exit 1
      else
        directory ← list_get argv 2;
        interactive_check (path_of_string directory)
    else if decide (subcommand = "replicate") then
      if length argv <? 4 then
        usage argv;;
        exit 1
      else
        src ← list_get argv 2;
        dst ← list_get argv 3;
        replicate (path_of_string src) (path_of_string dst)
    else
      sumcommand ← unbound_name "sumcommand";
      print ("Unrecognize subcommand  " +:+ sumcommand);;
      usage argv;;
      exit 1.

End Program.

(** ** Notions used by the statements *)

(** The result of a computation started on the file system [fs], with no
    input and an empty trace. *)
Definition eval {A : Type} (fs : filesystem) (m : M A) : result A :=
  (m (World fs [] [])).1.

(** The world [w] after the lines [lines] were printed. *)
Definition printed (w : world) (lines : list string) : world :=
  World (w_fs w) (w_stdin w) (w_trace w ++ (EvPrint <$> lines)).

(** A computation that only reads the file system and prints: its result
    is a function of the file system, and it leaves the world as it was,
    but for the lines it printed. *)
Definition reader {A : Type} (m : M A) : Prop :=
  ∀ w, ∃ lines, m w = (eval (w_fs w) m, printed w lines).

(** The events that change the file system. *)
Definition mutating (e : event) : bool :=
  match e with
  | EvPrint _ | EvPrompt _ => false
  | EvOpenW _ | EvWrite _ _ | EvMkdir _ | EvCopy _ _ => true
  end.

(** From [w] to [w'] nothing was written: the file system is the same, and
    the events since [w] are lines printed and prompts. *)
Definition untouched (w w' : world) : Prop :=
  w_fs w' = w_fs w
  ∧ ∃ events, w_trace w' = w_trace w ++ events
              ∧ Forall (λ e, mutating e = false) events.

(** A computation that removes no regular file: the files of the world it
    starts in are files of the world it ends in, whatever it returns. *)
Definition keeps_files {A : Type} (m : M A) : Prop :=
  ∀ w q content,
    w_fs w !! q = Some (File content) →
    ∃ content', w_fs (m w).2 !! q = Some (File content').

(** A computation that never reaches the bound of a loop: it ends with a
    result, an exception or an exit. *)
Definition within_fuel {A : Type} (m : M A) : Prop :=
  ∀ w, (m w).1 ≠ OutOfFuel.

(** A file system in which every node is in a directory (or, for a single
    component, in the working directory): what the primitives expect and,
    as shown below, what they keep. *)
Definition tree_shaped (fs : filesystem) : Prop :=
  map_Forall (λ p _, parent_of fs p = ParentDir) fs.

(** A computation that keeps the file system a tree, whatever it
    returns. *)
Definition keeps_tree {A : Type} (m : M A) : Prop :=
  ∀ w, tree_shaped (w_fs w) → tree_shaped (w_fs (m w).2).

(** Sequencing of results, as [eval] of a bind computes it. *)
Definition result_bind {A B : Type} (r : result A) (k : A → result B)
  : result B :=
  match r with
  | Ok a => k a
  | Raise e => Raise e
  | Exit c => Exit c
  | OutOfFuel => OutOfFuel
  end.

(** The set [filelist] of [check] on a file system. *)
Definition filelist_of (fs : filesystem) (directory : path) : gset string :=
  scan_filelist directory (walk fs directory).

(** The digest that [check] computes for a file reference, when its file
    can be read. *)
Definition digest_of (sha1_hexdigest : string → string) (fs : filesystem)
    (directory : path) (fileref : string) : option string :=
  match fs !! os_path_join directory fileref with
  | Some (File content) => Some (sha1_hexdigest content)
  | _ => None
  end.

(** The additions and changes that the loop of [check] over [filelist]
    collects, for the file references whose file can be read. *)
Definition classify_scan (sha1_hexdigest : string → string) (fs : filesystem)
    (directory : path) (hashdb : gmap string string) (filelist : list string)
    (acc : list (string * string) * list (string * string))
  : list (string * string) * list (string * string) :=
  foldl (λ acc fileref,
           match digest_of sha1_hexdigest fs directory fileref with
           | Some filehash => classify hashdb fileref filehash acc
           | None => acc
           end) acc filelist.

(** A path that [check] leaves out of its three lists: scanned, known to
    the database, and with the digest the database has. *)
Definition unchanged (sha1_hexdigest : string → string) (fs : filesystem)
    (directory : path) (data : check_data) (p : string) : Prop :=
  p ∈ filelist_of fs directory
  ∧ ∃ filehash, db data !! p = Some filehash
                ∧ digest_of sha1_hexdigest fs directory p = Some filehash.

(** The paths of a list of additions or changes. *)
Definition paths (entries : list (string * string)) : list string :=
  entries.*1.

(** The text [write_db] writes for a list of entries (file name, digest). *)
Definition db_text (entries : list (string * string)) : string :=
  foldr (λ '(filename, filehash) rest, db_line filehash filename +:+ rest)
        "" entries.

(** A file name that a line of the checksum file gives back: not empty, no
    whitespace at its end, no line break. *)
Definition line_safe_name (filename : string) : bool :=
  Py.ends_visible filename && Py.lacks Py.LF filename
  && Py.lacks Py.CR filename.



(** The entries of a dictionary that [write_db] can write: neither the
    file name nor the digest holds a surrogate. *)
Definition encodable_entry (entry : string * string) : Prop :=
  Py.encodable entry.1 = true ∧ Py.encodable entry.2 = true.

(** A dictionary that [write_db] can write. *)
Definition encodable_db (hashdb : gmap string string) : Prop :=
  map_Forall (λ filename filehash, encodable_entry (filename, filehash))
             hashdb.




(** The assignments [hashdb[name] = filehash], one entry after the other. *)
Definition insert_all (hashdb : gmap string string)
    (entries : list (string * string)) : gmap string string :=
  foldl (λ hashdb '(name, filehash), <[name := filehash]> hashdb)
        hashdb entries.

(** The deletions [del hashdb[name]], one key after the other. *)
Definition delete_all (hashdb : gmap string string) (keys : list string)
  : gmap string string :=
  foldl (λ hashdb name, delete name hashdb) hashdb keys.

(** The database that [interactive_check] writes on a commit. *)
Definition committed (data : check_data) : gmap string string :=
  delete_all (insert_all (insert_all (db data) (additions data))
                         (changes data))
             (deletions data).

(** ** Sample inputs *)

(** A stand-in for SHA-1 with digests of the right shape: the low
    hexadecimal digit of each of the first forty bytes, zeros after them. *)
Definition low_hexdigit (c : ascii) : ascii :=
  match nat_of_ascii c mod 16 with
  | 0 => "0" | 1 => "1" | 2 => "2" | 3 => "3" | 4 => "4" | 5 => "5"
  | 6 => "6" | 7 => "7" | 8 => "8" | 9 => "9" | 10 => "a" | 11 => "b"
  | 12 => "c" | 13 => "d" | 14 => "e" | _ => "f"
  end%char.

Fixpoint hexpad (n : nat) (s : string) : string :=
  match n with
  | 0 => ""
  | S n' =>
      match s with
      | "" => String "0"%char (hexpad n' "")
      | String c s' => String (low_hexdigit c) (hexpad n' s')
      end
  end.

Definition sample_digest (content : string) : string := hexpad 40 content.

(** The SHA-1 digest of the empty file. *)
Definition sha1_empty : string := "da39a3ee5e6b4b0d3255bfef95601890afd80709".

(** A directory [t] and nothing else. *)
Definition fs_empty_tree : filesystem := {[ ["t"] := Dir ]}.

(** A tracked tree [t]: the checksum file knows [same.txt], [mod.txt] and
    [gone.txt]; [mod.txt] has new content, [gone.txt] is no longer there,
    [sub/new.txt] is not known yet, and [sub/x.sha1sums] is a checksum file
    of its own. *)
Definition fs_sample_tree : filesystem :=
  list_to_map
    [ (["t"], Dir);
      (["t"; ".sha1sums"],
       File (db_text [ ("same.txt", sample_digest "A");
                       ("mod.txt", sample_digest "old");
                       ("gone.txt", sample_digest "G") ]));
      (["t"; "same.txt"], File "A");
      (["t"; "mod.txt"], File "B");
      (["t"; "sub"], Dir);
      (["t"; "sub"; "new.txt"], File "C");
      (["t"; "sub"; "x.sha1sums"], File "X") ].

(** Two clean trees: the source [src] has the new file [a.txt] and a new
    content for [b.txt]; the destination [dst] tracks the old [b.txt] and a
    file [c.txt] that the source does not have. *)
Definition fs_sample_pair : filesystem :=
  list_to_map
    [ (["src"], Dir);
      (["src"; ".sha1sums"],
       File (db_text [ ("a.txt", sample_digest "A");
                       ("b.txt", sample_digest "B2") ]));
      (["src"; "a.txt"], File "A");
      (["src"; "b.txt"], File "B2");
      (["dst"], Dir);
      (["dst"; ".sha1sums"],
       File (db_text [ ("b.txt", sample_digest "B1");
                       ("c.txt", sample_digest "C") ]));
      (["dst"; "b.txt"], File "B1");
      (["dst"; "c.txt"], File "C") ].

(** The three sample trees side by side. *)
Definition fs_sample_all : filesystem := fs_sample_tree ∪ fs_sample_pair.

(** A tree [t] with one file, whose name ends with a space. *)
Definition fs_trailing_space : filesystem :=
  list_to_map [ (["t"], Dir); (["t"; "b "], File "B") ].

(** A tree [t] with one file, whose name has a line break. *)
Definition fs_line_break : filesystem :=
  list_to_map [ (["t"], Dir); (["t"; "a" +:+ Py.nl +:+ "b"], File "B") ].

(** The name that [os.walk] gives for a file whose name is the bytes of
    [café.txt] in Latin-1, which are not UTF-8: the byte E9 comes as the
    surrogate U+DCE9. *)
Definition name_latin1 : string :=
  "caf" +:+ String (ascii_of_nat 233) ".txt".


(** ** Further notions and samples *)

(** No name in the file system holds a slash. *)
Definition slash_free (fs : filesystem) : Prop :=
  map_Forall (λ p _, Forall (λ name, Py.lacks Py.SLASH name = true) p) fs.


(** What [check] finds in the sample trees. *)
Definition data_sample_tree : check_data :=
  CheckData (list_to_map [ ("same.txt", sample_digest "A");
                           ("mod.txt", sample_digest "old");
                           ("gone.txt", sample_digest "G") ])
            ["gone.txt"]
            [ ("sub/new.txt", sample_digest "C") ]
            [ ("mod.txt", sample_digest "B") ].


Definition data_sample_src : check_data :=
  CheckData (list_to_map [ ("a.txt", sample_digest "A");
                           ("b.txt", sample_digest "B2") ]) [] [] [].

Definition data_sample_dst : check_data :=
  CheckData (list_to_map [ ("b.txt", sample_digest "B1");
                           ("c.txt", sample_digest "C") ]) [] [] [].

(** A computation that changes the file system at the paths that satisfy
    [P] only, whatever it returns. *)
Definition changes_only {A : Type} (P : path → Prop) (m : M A) : Prop :=
  ∀ w q, ¬ P q → w_fs (m w).2 !! q = w_fs w !! q.

(** The file system [fs'] has every node of [fs], as a node of the same
    kind. *)
Definition keeps_nodes_of (fs fs' : filesystem) : Prop :=
  ∀ q n, fs !! q = Some n → ∃ n', fs' !! q = Some n' ∧ is_dir n' = is_dir n.

(** A computation that removes no node and turns no file into a directory
    or directory into a file, whatever it returns. *)
Definition keeps_nodes {A : Type} (m : M A) : Prop :=
  ∀ w, keeps_nodes_of (w_fs w) (w_fs (m w).2).

(** A computation that never ends with the exception [e]. *)
Definition never_raises {A : Type} (e : exn) (m : M A) : Prop :=
  ∀ w, (m w).1 ≠ Raise e.

(** The exceptions of a failed lookup: a key that a dictionary does not
    have, an index beyond the end of a list. *)
Definition lookup_error (e : exn) : Prop := e = KeyError ∨ e = IndexError.

(** * Properties *)

(** ** The monad *)

Lemma printed_nil w : printed w [] = w.
Proof. destruct w. unfold printed. simpl. by rewrite app_nil_r. Qed.

Lemma printed_printed w l1 l2 :
  printed (printed w l1) l2 = printed w (l1 ++ l2).
Proof. unfold printed. simpl. by rewrite fmap_app, app_assoc. Qed.

Lemma bind_run {A B : Type} (m : M A) (f : A → M B) w :
  (m ≫= f) w =
  match m w with
  | (Ok a, w') => f a w'
  | (Raise e, w') => (Raise e, w')
  | (Exit c, w') => (Exit c, w')
  | (OutOfFuel, w') => (OutOfFuel, w')
  end.
Proof. reflexivity. Qed.

Lemma bind_ok {A B : Type} (m : M A) (f : A → M B) w a w1 :
  m w = (Ok a, w1) → (m ≫= f) w = f a w1.
Proof. intros H. by rewrite bind_run, H. Qed.

Lemma bind_ok_inv {A B : Type} (m : M A) (f : A → M B) w b w' :
  (m ≫= f) w = (Ok b, w') →
  ∃ a w1, m w = (Ok a, w1) ∧ f a w1 = (Ok b, w').
Proof.
  rewrite bind_run. destruct (m w) as [[a| | |] w1]; try discriminate.
  intros H. by exists a, w1.
Qed.

Lemma reader_eval {A : Type} (m : M A) w r w' :
  reader m → m w = (r, w') →
  r = eval (w_fs w) m ∧ ∃ lines, w' = printed w lines.
Proof.
  intros Hm Hrun. destruct (Hm w) as [lines Hw].
  rewrite Hw in Hrun. injection Hrun as <- <-. eauto.
Qed.

Lemma reader_ret {A : Type} (a : A) : reader (mret a).
Proof. intros w. exists []. by rewrite printed_nil. Qed.

Lemma reader_raise {A : Type} e : reader (@raise A e).
Proof. intros w. exists []. by rewrite printed_nil. Qed.

Lemma reader_print line : reader (print line).
Proof. intros w. by exists [line]. Qed.

Lemma reader_os_path_exists p : reader (os_path_exists p).
Proof. intros w. exists []. by rewrite printed_nil. Qed.

Lemma reader_os_walk p : reader (os_walk p).
Proof. intros w. exists []. by rewrite printed_nil. Qed.

Lemma reader_read_file p : reader (read_file p).
Proof.
  intros w. exists []. rewrite printed_nil.
  unfold eval, read_file. simpl. by destruct (w_fs w !! p) as [[]|].
Qed.

Lemma reader_dict_get d k : reader (dict_get d k).
Proof.
  unfold dict_get. destruct (d !! k); [apply reader_ret | apply reader_raise].
Qed.

Lemma reader_bind {A B : Type} (m : M A) (f : A → M B) :
  reader m → (∀ a, reader (f a)) → reader (m ≫= f).
Proof.
  intros Hm Hf w. destruct (Hm w) as [l1 H1].
  unfold eval. rewrite !bind_run, H1.
  destruct (Hm (World (w_fs w) [] [])) as [l0 H0]. rewrite H0.
  destruct (eval (w_fs w) m) as [a| | |] eqn:E; simpl;
    rewrite ?E; try (by exists l1).
  destruct (Hf a (printed w l1)) as [l2 H2]. rewrite H2.
  destruct (Hf a (printed (World (w_fs w) [] []) l0)) as [l3 H3].
  rewrite H3. simpl. exists (l1 ++ l2). by rewrite printed_printed.
Qed.

Lemma eval_bind {A B : Type} (m : M A) (f : A → M B) fs :
  reader m → (∀ a, reader (f a)) →
  eval fs (m ≫= f) = result_bind (eval fs m) (λ a, eval fs (f a)).
Proof.
  intros Hm Hf. unfold eval at 1. rewrite bind_run.
  destruct (Hm (World fs [] [])) as [l0 H0]. rewrite H0. simpl.
  destruct (eval fs m) as [a| | |]; simpl; try done.
  destruct (Hf a (printed (World fs [] []) l0)) as [l3 H3].
  by rewrite H3.
Qed.

Lemma reader_for_fold {A S : Type} (body : S → A → M S) l :
  (∀ s x, reader (body s x)) → ∀ s, reader (for_fold body s l).
Proof.
  intros Hbody. induction l as [|x l IH]; intros s; simpl.
  - apply reader_ret.
  - apply reader_bind; [apply Hbody | intros s'; apply IH].
Qed.

Lemma reader_for_each {A : Type} (body : A → M unit) l :
  (∀ x, reader (body x)) → reader (for_each body l).
Proof. intros H. apply reader_for_fold. intros _ x. apply H. Qed.

Lemma reader_if {A : Type} (b : bool) (m1 m2 : M A) :
  reader m1 → reader m2 → reader (if b then m1 else m2).
Proof. by destruct b. Qed.

Lemma reader_load_line hashdb line : reader (load_line hashdb line).
Proof.
  unfold load_line. destruct (Py.split1 _ _) as [[? ?]|];
    [apply reader_ret | apply reader_raise].
Qed.

Lemma reader_load_db sumfile : reader (load_db sumfile).
Proof.
  unfold load_db. apply reader_bind; [apply reader_os_path_exists|].
  intros [].
  - apply reader_bind; [apply reader_print|]. intros _.
    apply reader_bind; [apply reader_read_file|]. intros text.
    apply reader_for_fold. intros. apply reader_load_line.
  - apply reader_bind; [apply reader_print|]. intros _.
    apply reader_bind; [apply reader_print|]. intros _.
    apply reader_ret.
Qed.

Lemma reader_check_file sha1 directory hashdb acc fileref :
  reader (check_file sha1 directory hashdb acc fileref).
Proof.
  unfold check_file. apply reader_bind; [apply reader_read_file|].
  intros c. apply reader_ret.
Qed.

Lemma reader_check sha1 directory log : reader (check sha1 directory log).
Proof.
  unfold check. apply reader_bind; [apply reader_load_db|]. intros hashdb.
  apply reader_bind;
    [apply reader_if; [apply reader_print | apply reader_ret]|].
  intros _. apply reader_bind; [apply reader_os_walk|]. intros walked.
  apply reader_bind;
    [apply reader_if; [apply reader_print | apply reader_ret]|].
  intros _. apply reader_bind.
  - apply reader_for_fold. intros. apply reader_check_file.
  - intros [adds chgs]. apply reader_ret.
Qed.

(** ** Python strings *)

#[local] Arguments String.append !_ _ / : simpl nomatch.
#[local] Set Warnings "-clear-no-such-hyp".

Lemma append_nil_r s : s +:+ "" = s.
Proof. induction s; simpl; congruence. Qed.

Lemma append_assoc s1 s2 s3 : (s1 +:+ s2) +:+ s3 = s1 +:+ s2 +:+ s3.
Proof. induction s1; simpl; congruence. Qed.

Lemma lacks_app c s1 s2 :
  Py.lacks c (s1 +:+ s2) = Py.lacks c s1 && Py.lacks c s2.
Proof.
  induction s1 as [|a s1 IH]; simpl; [done|]. by rewrite IH, andb_assoc.
Qed.


Lemma encodable_app s1 s2 :
  Py.encodable (s1 +:+ s2) = Py.encodable s1 && Py.encodable s2.
Proof.
  induction s1 as [|a s1 IH]; simpl; [done|]. by rewrite IH, andb_assoc.
Qed.








(** ** The checksum file: what is written is what is read *)



Lemma db_text_cons k h es :
  db_text ((k, h) :: es) = db_line h k +:+ db_text es.
Proof. done. Qed.







Lemma insert_all_union (entries : list (string * string))
    (hashdb : gmap string string) :
  NoDup entries.*1 →
  insert_all hashdb entries = list_to_map entries ∪ hashdb.
Proof.
  revert hashdb. induction entries as [|[k h] es IH]; intros hashdb Hnd.
  - simpl. by rewrite (left_id_L ∅ (∪)).
  - apply NoDup_cons in Hnd as [Hk Hnd]. simpl.
    unfold insert_all in *. simpl. rewrite IH by done.
    rewrite <-insert_union_l, <-insert_union_r; [done|].
    by apply not_elem_of_list_to_map_1.
Qed.


(** ** The file system *)

Lemma removelast_snoc (p : path) name : removelast (p ++ [name]) = p.
Proof. apply removelast_last. Qed.

Lemma parent_of_child (fs : filesystem) (p : path) name :
  fs !! p = Some Dir → parent_of fs (p ++ [name]) = ParentDir.
Proof.
  intros H. unfold parent_of. rewrite removelast_snoc.
  destruct (p ++ [name]) eqn:E; [by destruct p|].
  destruct p; [done|]. by rewrite H.
Qed.

Lemma create_file_run p c ev w :
  w_fs w !! p ≠ Some Dir → parent_of (w_fs w) p = ParentDir →
  create_file p c ev w
  = (Ok tt, World (<[p := File c]> (w_fs w)) (w_stdin w) (w_trace w ++ [ev])).
Proof.
  intros Hp Hpar. unfold create_file. rewrite Hpar.
  by destruct (w_fs w !! p) as [[]|].
Qed.

Lemma file_write_run p text c w :
  w_fs w !! p = Some (File c) →
  Py.encodable text = true →
  file_write p text w
  = (Ok tt, World (<[p := File (c +:+ text)]> (w_fs w)) (w_stdin w)
                  (w_trace w ++ [EvWrite p text])).
Proof. intros H Henc. unfold file_write. by rewrite H, Henc. Qed.

Lemma file_write_refused p text c w :
  w_fs w !! p = Some (File c) →
  Py.encodable text = false →
  file_write p text w = (Raise UnicodeEncodeError, w).
Proof. intros H Henc. unfold file_write. by rewrite H, Henc. Qed.

(** The line of an entry can be encoded when the entry can. *)
Lemma encodable_db_line h k :
  Py.encodable (db_line h k) = Py.encodable h && Py.encodable k.
Proof.
  unfold db_line. rewrite !encodable_app.
  change (Py.encodable Py.tab) with true.
  change (Py.encodable Py.nl) with true.
  by rewrite andb_true_r.
Qed.

Global Instance encodable_entry_dec entry : Decision (encodable_entry entry).
Proof. unfold encodable_entry. apply _. Defined.

(** The loop of [write_db] appends the lines of the entries to the file. *)
Lemma write_db_loop sumfile (hashdb : gmap string string) entries c w :
  (∀ k h, (k, h) ∈ entries → hashdb !! k = Some h) →
  Forall encodable_entry entries →
  w_fs w !! sumfile = Some (File c) →
  for_each (λ filename,
              filehash ← dict_get hashdb filename;
              file_write sumfile (db_line filehash filename))
           entries.*1 w
  = (Ok tt,
     World (<[sumfile := File (c +:+ db_text entries)]> (w_fs w)) (w_stdin w)
           (w_trace w
            ++ ((λ '(k, h), EvWrite sumfile (db_line h k)) <$> entries))).
Proof.
  revert c w. induction entries as [|[k h] es IH]; intros c w Hin Henc Hfile.
  - simpl. rewrite append_nil_r, app_nil_r, insert_id by done.
    by destruct w.
  - apply Forall_cons in Henc as [[Hk Hh] Henc]. simpl in Hk, Hh.
    unfold for_each in *. simpl. rewrite !bind_run.
    unfold dict_get. rewrite (Hin k h) by left. simpl.
    rewrite (file_write_run _ _ c)
      by (by rewrite ?encodable_db_line, ?Hk, ?Hh).
    rewrite (IH (c +:+ db_line h k)).
    + simpl. rewrite insert_insert_eq, append_assoc, <-app_assoc. done.
    + intros k' h' H'. apply Hin. by right.
    + done.
    + simpl. by rewrite lookup_insert_eq.
Qed.

(** At the first entry that cannot be encoded the loop of [write_db] ends
    with [UnicodeEncodeError]: the file holds the lines of the entries
    before it. *)
Lemma write_db_loop_refused sumfile (hashdb : gmap string string) entries
    c w :
  (∀ k h, (k, h) ∈ entries → hashdb !! k = Some h) →
  ¬ Forall encodable_entry entries →
  w_fs w !! sumfile = Some (File c) →
  ∃ written entry rest,
    entries = written ++ entry :: rest
    ∧ Forall encodable_entry written
    ∧ ¬ encodable_entry entry
    ∧ for_each (λ filename,
                  filehash ← dict_get hashdb filename;
                  file_write sumfile (db_line filehash filename))
               entries.*1 w
      = (Raise UnicodeEncodeError,
         World (<[sumfile := File (c +:+ db_text written)]> (w_fs w))
               (w_stdin w)
               (w_trace w
                ++ ((λ '(k, h), EvWrite sumfile (db_line h k))
                    <$> written))).
Proof.
  revert c w. induction entries as [|[k h] es IH]; intros c w Hin Henc Hfile.
  - by destruct Henc.
  - destruct (decide (encodable_entry (k, h))) as [[Hk Hh]|Hno].
    + simpl in Hk, Hh.
      destruct (IH (c +:+ db_line h k)
                  (World (<[sumfile := File (c +:+ db_line h k)]> (w_fs w))
                         (w_stdin w)
                         (w_trace w ++ [EvWrite sumfile (db_line h k)])))
        as (written & entry & rest & Heq & Hw & Hentry & Hrun).
      * intros k' h' H'. apply Hin. by right.
      * intros Hes. apply Henc. by constructor.
      * simpl. by rewrite lookup_insert_eq.
      * exists ((k, h) :: written), entry, rest.
        split; [by rewrite Heq|]. split; [by constructor|].
        split; [done|].
        unfold for_each in *. simpl. rewrite !bind_run.
        unfold dict_get. rewrite (Hin k h) by left. simpl.
        rewrite (file_write_run _ _ c)
          by (by rewrite ?encodable_db_line, ?Hk, ?Hh).
        etrans; [exact Hrun|]. simpl.
        by rewrite insert_insert_eq, append_assoc, <-app_assoc.
    + exists [], (k, h), es. split; [done|]. split; [done|].
      split; [done|].
      unfold for_each. simpl. rewrite !bind_run.
      unfold dict_get. rewrite (Hin k h) by left. simpl.
      rewrite (file_write_refused _ _ c); [|done|].
      * rewrite append_nil_r, app_nil_r, insert_id by done.
        by destruct w.
      * rewrite encodable_db_line. unfold encodable_entry in Hno.
        simpl in Hno. destruct (Py.encodable k), (Py.encodable h); try done.
        by destruct Hno.
Qed.

(** The entries of a dictionary, as a list. *)
Lemma encodable_entries (hashdb : gmap string string) :
  encodable_db hashdb ↔ Forall encodable_entry (map_to_list hashdb).
Proof.
  rewrite Forall_forall. split.
  - intros H [k h] Hkh%elem_of_map_to_list. by apply H.
  - intros H k h Hkh. by apply (H (k, h)), elem_of_map_to_list.
Qed.


Global Instance encodable_db_dec hashdb : Decision (encodable_db hashdb).
Proof.
  refine (cast_if (decide (Forall encodable_entry (map_to_list hashdb))));
    by rewrite encodable_entries.
Defined.

Lemma write_db_run sumfile (hashdb : gmap string string) w :
  w_fs w !! sumfile ≠ Some Dir → parent_of (w_fs w) sumfile = ParentDir →
  Forall encodable_entry (map_to_list hashdb) →
  write_db sumfile hashdb w
  = (Ok tt,
     World (<[sumfile := File (db_text (map_to_list hashdb))]> (w_fs w))
           (w_stdin w)
           (w_trace w ++ EvOpenW sumfile
            :: ((λ '(k, h), EvWrite sumfile (db_line h k))
                <$> map_to_list hashdb))).
Proof.
  intros Hp Hpar Henc. unfold write_db, open_w. rewrite bind_run.
  rewrite create_file_run by done.
  rewrite (write_db_loop _ _ (map_to_list hashdb) "").
  - simpl. by rewrite insert_insert_eq, <-app_assoc.
  - intros k h. apply elem_of_map_to_list.
  - done.
  - simpl. by rewrite lookup_insert_eq.
Qed.

(** With an entry that cannot be encoded, [write_db] at a place that can be
    written ends with [UnicodeEncodeError]: the file was truncated when it
    was opened, and holds the lines of the entries that came before. *)
Lemma write_db_refused sumfile (hashdb : gmap string string) w :
  w_fs w !! sumfile ≠ Some Dir → parent_of (w_fs w) sumfile = ParentDir →
  ¬ Forall encodable_entry (map_to_list hashdb) →
  ∃ written entry rest,
    map_to_list hashdb = written ++ entry :: rest
    ∧ Forall encodable_entry written
    ∧ ¬ encodable_entry entry
    ∧ write_db sumfile hashdb w
      = (Raise UnicodeEncodeError,
         World (<[sumfile := File (db_text written)]> (w_fs w))
               (w_stdin w)
               (w_trace w ++ EvOpenW sumfile
                :: ((λ '(k, h), EvWrite sumfile (db_line h k))
                    <$> written))).
Proof.
  intros Hp Hpar Henc. unfold write_db, open_w.
  destruct (write_db_loop_refused sumfile hashdb (map_to_list hashdb) ""
              (World (<[sumfile := File ""]> (w_fs w)) (w_stdin w)
                     (w_trace w ++ [EvOpenW sumfile])))
    as (written & entry & rest & Heq & Hw & Hentry & Hrun).
  - intros k h. apply elem_of_map_to_list.
  - done.
  - simpl. by rewrite lookup_insert_eq.
  - exists written, entry, rest. split; [done|]. split; [done|].
    split; [done|]. rewrite bind_run, create_file_run by done.
    rewrite Hrun. simpl. by rewrite insert_insert_eq, <-app_assoc.
Qed.


Ltac reader_tac :=
  repeat first
    [ progress intros
    | apply reader_ret | apply reader_raise | apply reader_print
    | apply reader_os_path_exists | apply reader_os_walk
    | apply reader_read_file | apply reader_dict_get
    | apply reader_load_line | apply reader_load_db
    | apply reader_check_file | apply reader_check
    | apply reader_bind | apply reader_for_fold | apply reader_for_each
    | match goal with
      | |- reader (if ?b then _ else _) => destruct b
      | |- reader (match ?x with _ => _ end) => destruct x
      end ].

Lemma eval_ret {A : Type} (fs : filesystem) (a : A) : eval fs (mret a) = Ok a.
Proof. done. Qed.

Lemma eval_print (fs : filesystem) line : eval fs (print line) = Ok tt.
Proof. done. Qed.

Lemma eval_os_path_exists (fs : filesystem) p :
  eval fs (os_path_exists p) = Ok (bool_decide (is_Some (fs !! p))).
Proof. done. Qed.

Lemma eval_os_walk (fs : filesystem) p : eval fs (os_walk p) = Ok (walk fs p).
Proof. done. Qed.

Lemma eval_read_file (fs : filesystem) p :
  eval fs (read_file p) =
  match fs !! p with
  | Some (File c) => Ok c
  | Some Dir => Raise IsADirectoryError
  | None => Raise FileNotFoundError
  end.
Proof. unfold eval, read_file. simpl. by destruct (fs !! p) as [[]|]. Qed.

Lemma eval_load_db (fs : filesystem) sumfile :
  eval fs (load_db sumfile) =
  match fs !! sumfile with
  | Some (File text) => eval fs (for_fold load_line ∅ (Py.readlines text))
  | Some Dir => Raise IsADirectoryError
  | None => Ok ∅
  end.
Proof.
  unfold load_db. rewrite eval_bind, eval_os_path_exists by reader_tac.
  destruct (fs !! sumfile) as [[text|]|] eqn:E; simpl.
  - rewrite eval_bind, eval_print by reader_tac. simpl.
    rewrite eval_bind, eval_read_file, E by reader_tac. done.
  - rewrite eval_bind, eval_print by reader_tac. simpl.
    rewrite eval_bind, eval_read_file, E by reader_tac. done.
  - rewrite eval_bind, eval_print by reader_tac. simpl.
    rewrite eval_bind, eval_print by reader_tac. done.
Qed.


(** ** C4: the checksum file round trip *)




(** Nor does a file name that ends with a space come back: it is read
    without the space. *)
Lemma write_db_load_db_trailing_space :
  let hashdb : gmap string string := {[ "a.txt " := sha1_empty ]} in
  Py.lacks Py.TAB "a.txt " = true
  ∧ ∃ w1,
      write_db ["t"; ".sha1sums"] hashdb (World fs_empty_tree [] [])
      = (Ok tt, w1)
      ∧ eval (w_fs w1) (load_db ["t"; ".sha1sums"])
        = Ok {[ "a.txt" := sha1_empty ]}
      ∧ ({[ "a.txt" := sha1_empty ]} : gmap string string) !! "a.txt "
        = None.
Proof.
  split; [vm_compute; reflexivity|].
  eexists. split; [vm_compute; reflexivity|].
  split; [vm_compute; reflexivity|]. vm_compute; reflexivity.
Qed.

(** Nor is a file name written that cannot be encoded, as [os.walk] gives
    it for a name that is not UTF-8: the name has no line break and no
    whitespace at its end, and [write_db] ends with [UnicodeEncodeError],
    the file opened and left empty. *)
Lemma write_db_load_db_unencodable :
  let hashdb : gmap string string := {[ name_latin1 := sha1_empty ]} in
  line_safe_name name_latin1 = true
  ∧ Py.lacks Py.TAB name_latin1 = true
  ∧ write_db ["t"; ".sha1sums"] hashdb (World fs_sample_tree [] [])
    = (Raise UnicodeEncodeError,
       World (<[ ["t"; ".sha1sums"] := File "" ]> fs_sample_tree) []
             [EvOpenW ["t"; ".sha1sums"]]).
Proof.
  split; [vm_compute; reflexivity|].
  split; [vm_compute; reflexivity|]. vm_compute; reflexivity.
Qed.

(** ** What [check] computes *)

Lemma bind_reader_run {A B : Type} (m : M A) (f : A → M B) w :
  reader m →
  ∃ lines,
    (m ≫= f) w =
    match eval (w_fs w) m with
    | Ok a => f a (printed w lines)
    | Raise e => (Raise e, printed w lines)
    | Exit c => (Exit c, printed w lines)
    | OutOfFuel => (OutOfFuel, printed w lines)
    end.
Proof.
  intros Hm. destruct (Hm w) as [lines H]. exists lines.
  rewrite bind_run, H. by destruct (eval (w_fs w) m).
Qed.

Lemma eval_check_file (sha1 : string → string) (fs : filesystem) directory hashdb acc fileref :
  eval fs (check_file sha1 directory hashdb acc fileref) =
  match digest_of sha1 fs directory fileref with
  | Some filehash => Ok (classify hashdb fileref filehash acc)
  | None =>
      match fs !! os_path_join directory fileref with
      | Some Dir => Raise IsADirectoryError
      | _ => Raise FileNotFoundError
      end
  end.
Proof.
  unfold check_file, digest_of.
  rewrite eval_bind, eval_read_file by reader_tac.
  by destruct (fs !! os_path_join directory fileref) as [[]|].
Qed.

Lemma eval_check_loop (sha1 : string → string) (fs : filesystem) directory hashdb l acc :
  (∀ p, p ∈ l → is_Some (digest_of sha1 fs directory p)) →
  eval fs (for_fold (check_file sha1 directory hashdb) acc l)
  = Ok (classify_scan sha1 fs directory hashdb l acc).
Proof.
  revert acc. induction l as [|p l IH]; intros acc Hl; [done|].
  simpl. rewrite eval_bind, eval_check_file by reader_tac.
  destruct (Hl p) as [h Hh]; [left|]. rewrite Hh. simpl.
  rewrite IH; [done|]. intros q Hq. apply Hl. by right.
Qed.

Lemma eval_check_loop_inv (sha1 : string → string) (fs : filesystem) directory hashdb l acc acc' :
  eval fs (for_fold (check_file sha1 directory hashdb) acc l) = Ok acc' →
  ∀ p, p ∈ l → is_Some (digest_of sha1 fs directory p).
Proof.
  revert acc. induction l as [|p l IH]; intros acc H q Hq.
  - by apply elem_of_nil in Hq.
  - simpl in H. rewrite eval_bind, eval_check_file in H by reader_tac.
    destruct (digest_of sha1 fs directory p) as [h|] eqn:Hh.
    + simpl in H. apply elem_of_cons in Hq as [->|Hq]; [by rewrite Hh|].
      by eapply IH.
    + by destruct (fs !! os_path_join directory p) as [[]|].
Qed.

Lemma eval_check (sha1 : string → string) (fs : filesystem) directory log :
  eval fs (check sha1 directory log) =
  result_bind (eval fs (load_db (os_path_join directory ".sha1sums")))
    (λ hashdb,
       result_bind
         (eval fs (for_fold (check_file sha1 directory hashdb) ([], [])
                            (elements (filelist_of fs directory))))
         (λ acc, Ok (CheckData hashdb
                       (scan_deletions hashdb (filelist_of fs directory))
                       acc.1 acc.2))).
Proof.
  unfold check. rewrite eval_bind by reader_tac.
  destruct (eval fs (load_db _)) as [hashdb| | |]; simpl; try done.
  rewrite eval_bind by reader_tac.
  replace (eval fs (if log then print "Getting filelist..." else mret ()))
    with (Ok tt : result unit) by by destruct log.
  simpl. rewrite eval_bind, eval_os_walk by reader_tac. simpl.
  rewrite eval_bind by reader_tac.
  replace (eval fs (if log then print "Computing hashes, please wait..."
                    else mret ()))
    with (Ok tt : result unit) by by destruct log.
  simpl. rewrite eval_bind by reader_tac. fold (filelist_of fs directory).
  destruct (eval fs (for_fold _ _ _)) as [[adds chgs]| | |]; done.
Qed.

(** [check] succeeds exactly when the checksum file loads and every
    scanned file can be read, and then returns the classification of the
    scan. *)
Lemma eval_check_ok (sha1 : string → string) (fs : filesystem) directory log data :
  eval fs (check sha1 directory log) = Ok data ↔
  ∃ hashdb,
    eval fs (load_db (os_path_join directory ".sha1sums")) = Ok hashdb
    ∧ (∀ p, p ∈ filelist_of fs directory →
            is_Some (digest_of sha1 fs directory p))
    ∧ data = CheckData hashdb
               (scan_deletions hashdb (filelist_of fs directory))
               (classify_scan sha1 fs directory hashdb
                  (elements (filelist_of fs directory)) ([], [])).1
               (classify_scan sha1 fs directory hashdb
                  (elements (filelist_of fs directory)) ([], [])).2.
Proof.
  rewrite eval_check. split.
  - destruct (eval fs (load_db _)) as [hashdb| | |]; simpl; try done.
    destruct (eval fs (for_fold _ _ _)) as [acc| | |] eqn:E; simpl; try done.
    intros [= <-]. exists hashdb. split; [done|].
    assert (∀ p, p ∈ filelist_of fs directory →
                 is_Some (digest_of sha1 fs directory p)) as Hread.
    { intros p Hp. eapply eval_check_loop_inv; [done|].
      by apply elem_of_elements. }
    split; [done|]. rewrite eval_check_loop in E.
    + by injection E as <-.
    + intros p Hp. by apply Hread, elem_of_elements.
  - intros (hashdb & -> & Hread & ->). simpl.
    rewrite eval_check_loop; [done|].
    intros p Hp. by apply Hread, elem_of_elements.
Qed.

(** ** The classification of the scan *)

Section Classification.

Variable sha1 : string → string.
Variable fs : filesystem.
Variable directory : path.
Variable hashdb : gmap string string.

Let scan := classify_scan sha1 fs directory hashdb.
Let digest := digest_of sha1 fs directory.

Lemma classify_scan_cons p l acc :
  scan (p :: l) acc =
  scan l match digest p with
         | Some filehash => classify hashdb p filehash acc
         | None => acc
         end.
Proof. done. Qed.

Lemma classify_scan_additions l acc p h :
  (p, h) ∈ (scan l acc).1 ↔
  (p, h) ∈ acc.1 ∨ (p ∈ l ∧ digest p = Some h ∧ hashdb !! p = None).
Proof.
  revert acc. induction l as [|q l IH]; intros [adds chgs].
  - simpl. split; [by left|]. intros [?|[[]%elem_of_nil _]]; done.
  - rewrite classify_scan_cons, IH. clear IH. rewrite elem_of_cons.
    destruct (digest q) as [hq|] eqn:Hq; unfold classify;
      [destruct (hashdb !! q) as [known|] eqn:Hk;
       [destruct (decide (known ≠ hq))|]|]; simpl;
      rewrite ?elem_of_app, ?list_elem_of_singleton;
      naive_solver.
Qed.

Lemma classify_scan_changes l acc p h :
  (p, h) ∈ (scan l acc).2 ↔
  (p, h) ∈ acc.2
  ∨ (p ∈ l ∧ digest p = Some h
     ∧ ∃ known, hashdb !! p = Some known ∧ known ≠ h).
Proof.
  revert acc. induction l as [|q l IH]; intros [adds chgs].
  - simpl. split; [by left|]. intros [?|[[]%elem_of_nil _]]; done.
  - rewrite classify_scan_cons, IH. clear IH. rewrite elem_of_cons.
    destruct (digest q) as [hq|] eqn:Hq; unfold classify;
      [destruct (hashdb !! q) as [known|] eqn:Hk;
       [destruct (decide (known ≠ hq)) as [|Heq%dec_stable]|]|]; simpl;
      rewrite ?elem_of_app, ?list_elem_of_singleton;
      naive_solver.
Qed.

Lemma classify_scan_sublist l acc :
  ∃ l1 l2,
    (scan l acc).1.*1 = acc.1.*1 ++ l1 ∧ (scan l acc).2.*1 = acc.2.*1 ++ l2
    ∧ l1 `sublist_of` l ∧ l2 `sublist_of` l.
Proof.
  revert acc. induction l as [|q l IH]; intros [adds chgs].
  - exists [], []. simpl. by rewrite !app_nil_r.
  - rewrite classify_scan_cons.
    destruct (digest q) as [hq|] eqn:Hq; unfold classify;
      [destruct (hashdb !! q) as [known|] eqn:Hk;
       [destruct (decide (known ≠ hq))|]|];
      match goal with
      | |- context [scan l ?a] =>
          destruct (IH a) as (l1 & l2 & -> & -> & H1 & H2)
      end; simpl.
    + exists l1, (q :: l2). rewrite fmap_app, <-app_assoc. simpl.
      repeat split; [by apply sublist_cons | by apply sublist_skip].
    + exists l1, l2. repeat split; by apply sublist_cons.
    + exists (q :: l1), l2. rewrite fmap_app, <-app_assoc. simpl.
      repeat split; [by apply sublist_skip | by apply sublist_cons].
    + exists l1, l2. repeat split; by apply sublist_cons.
Qed.

End Classification.

(** ** C2: the diff classifies every path once *)

Lemma elem_of_scan_deletions (hashdb : gmap string string)
    (filelist : gset string) p :
  p ∈ scan_deletions hashdb filelist ↔ p ∈ dom hashdb ∧ p ∉ filelist.
Proof.
  unfold scan_deletions. rewrite list_elem_of_filter, elem_of_dom.
  split.
  - intros [H1 H2]. split; [|done].
    apply list_elem_of_fmap in H2 as ([k h] & -> & Hkh).
    apply elem_of_map_to_list in Hkh. by exists h.
  - intros [[h Hh] H2]. split; [done|].
    apply list_elem_of_fmap. exists (p, h).
    split; [done|]. by apply elem_of_map_to_list.
Qed.

Lemma NoDup_scan_deletions (hashdb : gmap string string)
    (filelist : gset string) :
  NoDup (scan_deletions hashdb filelist).
Proof. apply NoDup_filter, NoDup_fst_map_to_list. Qed.

(** What the three lists of a successful [check] hold. *)
Lemma check_lists (sha1 : string → string) (fs : filesystem) directory log
    data :
  eval fs (check sha1 directory log) = Ok data →
  (∀ p, p ∈ filelist_of fs directory →
        is_Some (digest_of sha1 fs directory p))
  ∧ (∀ p h, (p, h) ∈ additions data ↔
       p ∈ filelist_of fs directory
       ∧ digest_of sha1 fs directory p = Some h ∧ db data !! p = None)
  ∧ (∀ p h, (p, h) ∈ changes data ↔
       p ∈ filelist_of fs directory
       ∧ digest_of sha1 fs directory p = Some h
       ∧ ∃ known, db data !! p = Some known ∧ known ≠ h)
  ∧ (∀ p, p ∈ deletions data ↔
       p ∈ dom (db data) ∧ p ∉ filelist_of fs directory)
  ∧ NoDup (paths (additions data)) ∧ NoDup (paths (changes data))
  ∧ NoDup (deletions data).
Proof.
  intros (hashdb & Hload & Hread & ->)%eval_check_ok. unfold paths. simpl.
  split; [done|]. split; [|split; [|split]].
  - intros p h. rewrite classify_scan_additions, elem_of_elements. simpl.
    rewrite elem_of_nil. naive_solver.
  - intros p h. rewrite classify_scan_changes, elem_of_elements. simpl.
    rewrite elem_of_nil. naive_solver.
  - intros p. apply elem_of_scan_deletions.
  - destruct (classify_scan_sublist sha1 fs directory hashdb
                (elements (filelist_of fs directory)) ([], []))
      as (l1 & l2 & -> & -> & H1 & H2). simpl.
    split; [|split].
    + apply (sublist_NoDup _ _ (NoDup_elements _) H1).
    + apply (sublist_NoDup _ _ (NoDup_elements _) H2).
    + apply NoDup_scan_deletions.
Qed.

(** The gate is open on empty lists, and only then. *)
Lemma is_dirty_false data :
  additions data = [] → deletions data = [] → changes data = [] →
  is_dirty data = false.
Proof. unfold is_dirty. by intros -> -> ->. Qed.

Lemma is_dirty_false_inv data :
  is_dirty data = false →
  additions data = [] ∧ deletions data = [] ∧ changes data = [].
Proof.
  unfold is_dirty.
  by destruct (additions data), (deletions data), (changes data).
Qed.

(** C2.  For a successful [check], with the scan [filelist_of] and the
    loaded database [db data]: the scanned paths are those of the additions,
    the changes and the unchanged paths; the keys of the database are the
    paths of the changes, the unchanged paths and the deletions; no path is
    twice in the three lists taken together, and an unchanged path is in
    none of them. *)
Theorem check_classifies (sha1 : string → string) (fs : filesystem)
    directory log data :
  eval fs (check sha1 directory log) = Ok data →
  (∀ p, p ∈ filelist_of fs directory ↔
        p ∈ paths (additions data) ∨ p ∈ paths (changes data)
        ∨ unchanged sha1 fs directory data p)
  ∧ (∀ p, p ∈ dom (db data) ↔
          p ∈ paths (changes data) ∨ unchanged sha1 fs directory data p
          ∨ p ∈ deletions data)
  ∧ NoDup (paths (additions data) ++ paths (changes data)
           ++ deletions data)
  ∧ (∀ p, unchanged sha1 fs directory data p →
          (p ∉ paths (additions data)) ∧ (p ∉ paths (changes data))
          ∧ (p ∉ deletions data)).
Proof.
  unfold paths.
  intros (Hread & Hadd & Hchg & Hdel & Na & Nc & Nd)%check_lists.
  assert (∀ p, p ∈ (additions data).*1 ↔
               ∃ h, p ∈ filelist_of fs directory
                    ∧ digest_of sha1 fs directory p = Some h
                    ∧ db data !! p = None) as Hadd'.
  { intros p. rewrite list_elem_of_fmap. split.
    - intros ([q h] & -> & H). exists h. by apply Hadd.
    - intros (h & H). exists (p, h). split; [done|]. by apply Hadd. }
  assert (∀ p, p ∈ (changes data).*1 ↔
               ∃ h, p ∈ filelist_of fs directory
                    ∧ digest_of sha1 fs directory p = Some h
                    ∧ ∃ known, db data !! p = Some known ∧ known ≠ h)
    as Hchg'.
  { intros p. rewrite list_elem_of_fmap. split.
    - intros ([q h] & -> & H). exists h. by apply Hchg.
    - intros (h & H). exists (p, h). split; [done|]. by apply Hchg. }
  unfold unchanged. split; [|split; [|split]].
  - intros p. rewrite Hadd', Hchg'. split; [|naive_solver].
    intros Hp. destruct (Hread p Hp) as [h Hh].
    destruct (db data !! p) as [known|] eqn:Hk; [|naive_solver].
    destruct (decide (known = h)) as [->|]; naive_solver.
  - intros p. rewrite Hchg', Hdel, elem_of_dom. split.
    + intros [known Hk].
      destruct (decide (p ∈ filelist_of fs directory)) as [Hp|Hp];
        [|naive_solver].
      destruct (Hread p Hp) as [h Hh].
      destruct (decide (known = h)) as [->|]; naive_solver.
    + unfold is_Some. naive_solver.
  - apply NoDup_app. split; [done|]. split.
    + intros p Hp [Hc|Hd]%elem_of_app.
      * apply Hadd' in Hp. apply Hchg' in Hc. naive_solver.
      * apply Hadd' in Hp. apply Hdel in Hd. naive_solver.
    + apply NoDup_app. split; [done|]. split; [|done].
      intros p Hc Hd. apply Hchg' in Hc. apply Hdel in Hd. naive_solver.
  - intros p (Hp & h & Hk & Hh). rewrite Hadd', Hchg', Hdel.
    naive_solver.
Qed.

Lemma check_classifies_witness :
  ∃ data,
    eval fs_sample_tree (check sample_digest ["t"] true) = Ok data
    ∧ paths (additions data) = ["sub/new.txt"]
    ∧ paths (changes data) = ["mod.txt"]
    ∧ deletions data = ["gone.txt"]
    ∧ (∀ p, p ∈ filelist_of fs_sample_tree ["t"] ↔
            p ∈ paths (additions data) ∨ p ∈ paths (changes data)
            ∨ unchanged sample_digest fs_sample_tree ["t"] data p).
Proof.
  eexists. split; [vm_compute; reflexivity|].
  split; [vm_compute; reflexivity|]. split; [vm_compute; reflexivity|].
  split; [vm_compute; reflexivity|].
  refine (proj1 (check_classifies sample_digest fs_sample_tree ["t"] true
                   _ _)).
  vm_compute; reflexivity.
Defined.

(** ** The scan *)

Lemma join_cons_cons sep x y l :
  Py.join sep (x :: y :: l) = x +:+ sep +:+ Py.join sep (y :: l).
Proof. done. Qed.

Lemma split_not_nil sep s : Py.split sep s ≠ [].
Proof.
  destruct s as [|c s]; simpl; [done|].
  destruct (decide (c = sep)); [done|]. by destruct (Py.split sep s).
Qed.

Lemma join_cons_char sep c x xs :
  Py.join sep (String c x :: xs) = String c (Py.join sep (x :: xs)).
Proof. by destruct xs. Qed.

Lemma join_split s : Py.join "/" (Py.split Py.SLASH s) = s.
Proof.
  induction s as [|c s IH]; [done|].
  pose proof (split_not_nil Py.SLASH s) as Hne.
  change (Py.split Py.SLASH (String c s))
    with (if decide (c = Py.SLASH) then "" :: Py.split Py.SLASH s
          else match Py.split Py.SLASH s with
               | [] => [String c ""]
               | x :: xs => String c x :: xs
               end).
  destruct (Py.split Py.SLASH s) as [|x xs]; [done|].
  destruct (decide (c = Py.SLASH)) as [->|].
  - rewrite join_cons_cons, IH. done.
  - by rewrite join_cons_char, IH.
Qed.

(** The path string of components that end with those of [name]: some
    prefix, empty or ended by a slash, and then [name]. *)
Lemma join_cons_nonempty sep x l :
  l ≠ [] → Py.join sep (x :: l) = x +:+ sep +:+ Py.join sep l.
Proof. by destruct l. Qed.

Lemma join_app_split rest name :
  Py.join "/" (rest ++ Py.split Py.SLASH name) = name
  ∨ ∃ pre, Py.join "/" (rest ++ Py.split Py.SLASH name)
           = (pre +:+ "/") +:+ name.
Proof.
  induction rest as [|x rest IH].
  - left. apply join_split.
  - right. pose proof (split_not_nil Py.SLASH name) as Hne.
    rewrite <-app_comm_cons, join_cons_nonempty
      by by destruct rest, (Py.split Py.SLASH name).
    destruct IH as [->|[pre ->]].
    + exists x. by rewrite append_assoc.
    + exists (x +:+ "/" +:+ pre). by rewrite !append_assoc.
Qed.

Lemma join_snoc rest name :
  Py.join "/" (rest ++ [name]) = name
  ∨ ∃ pre, Py.join "/" (rest ++ [name]) = (pre +:+ "/") +:+ name.
Proof.
  induction rest as [|x rest IH]; [by left|]. right.
  rewrite <-app_comm_cons, join_cons_nonempty by by destruct rest.
  destruct IH as [->|[pre ->]].
  - exists x. by rewrite append_assoc.
  - exists (x +:+ "/" +:+ pre). by rewrite !append_assoc.
Qed.


Lemma endswith_app pre s suf :
  Py.endswith s suf = true → Py.endswith (pre +:+ s) suf = true.
Proof.
  intros H. induction pre as [|c pre IH]; [done|].
  simpl. rewrite IH. apply orb_true_r.
Qed.

Lemma lacks_slash_after_slash pre name :
  Py.lacks Py.SLASH ((pre +:+ "/") +:+ name) = false.
Proof. rewrite !lacks_app. simpl. by rewrite andb_false_r. Qed.

Lemma endswith_after_slash pre name suf :
  Py.lacks Py.SLASH suf = true →
  Py.endswith ((pre +:+ "/") +:+ name) suf = true →
  Py.endswith name suf = true.
Proof.
  intros Hsuf. induction pre as [|c pre IH].
  - intros [Heq%bool_decide_eq_true|H]%orb_true_iff; [|done].
    by rewrite <-Heq in Hsuf.
  - intros [Heq%bool_decide_eq_true|H]%orb_true_iff; [|by apply IH].
    rewrite <-Heq in Hsuf.
    change (negb (bool_decide (c = Py.SLASH))
            && Py.lacks Py.SLASH ((pre +:+ "/") +:+ name) = true) in Hsuf.
    by rewrite lacks_slash_after_slash, andb_false_r in Hsuf.
Qed.

Lemma common_prefix_length_app (p x : path) :
  common_prefix_length p (p ++ x) = length p.
Proof.
  induction p as [|c p IH]; simpl; [done|].
  destruct (decide (c = c)); [|done]. by rewrite IH.
Qed.

(** The reference of a path below [start]: what follows [start]. *)
Lemma relpath_below (start x : path) :
  x ≠ [] → os_path_relpath (start ++ x) start = Py.join "/" x.
Proof.
  intros Hx. unfold os_path_relpath.
  rewrite common_prefix_length_app, Nat.sub_diag, drop_app_length.
  simpl. by destruct x.
Qed.

Lemma elem_of_listdir (fs : filesystem) want root name :
  name ∈ listdir fs want root ↔
  ∃ p n, fs !! p = Some n ∧ removelast p = root ∧ want n = true
         ∧ last p = Some name.
Proof.
  unfold listdir. rewrite list_elem_of_omap. split.
  - intros ([p n] & Hin%elem_of_map_to_list & H).
    destruct (bool_decide (removelast p = root)) eqn:Hr; [|done].
    destruct (want n) eqn:Hw; [|done]. simpl in H.
    apply bool_decide_eq_true in Hr. by exists p, n.
  - intros (p & n & Hp & Hr & Hw & Hl). exists (p, n).
    split; [by apply elem_of_map_to_list|].
    by rewrite bool_decide_eq_true_2, Hw.
Qed.

Lemma last_removelast (p : path) name :
  last p = Some name → p = removelast p ++ [name].
Proof.
  intros H. destruct (decide (p = [])) as [->|Hne]; [done|].
  destruct (exists_last Hne) as (q & x & ->).
  rewrite last_snoc in H. injection H as ->. by rewrite removelast_last.
Qed.

(** The file references of the scan: the references of the regular files
    below [directory] that are in a directory of the tree and whose name
    passes the filter. *)
Lemma elem_of_filelist_of (fs : filesystem) directory ref :
  ref ∈ filelist_of fs directory ↔
  fs !! directory = Some Dir
  ∧ ∃ rest name content,
      fs !! (directory ++ rest) = Some Dir
      ∧ fs !! (directory ++ rest ++ [name]) = Some (File content)
      ∧ scanned_name name = true
      ∧ ref = os_path_relpath (os_path_join (directory ++ rest) name)
                directory.
Proof.
  unfold filelist_of, scan_filelist, walk.
  rewrite elem_of_list_to_set, list_elem_of_bind. split.
  - intros ([[root dirs] files] & Href & Hw).
    destruct (fs !! directory) as [[|]|] eqn:Hd;
      try by apply elem_of_nil in Hw.
    split; [done|].
    apply list_elem_of_fmap in Hw as (root' & [= <- -> ->] & Hroot).
    apply list_elem_of_filter in Hroot as [[[rest ->] Hdir] _].
    unfold scan_root in Href.
    apply list_elem_of_fmap in Href as (file & -> & Hfile).
    apply list_elem_of_fmap in Hfile as (name & -> & Hname).
    apply list_elem_of_filter in Hname as [Hscan Hname].
    apply elem_of_listdir in Hname as (p & n & Hp & Hr & Hn & Hl).
    destruct n as [content|]; [|done].
    apply last_removelast in Hl. rewrite Hr, <-app_assoc in Hl. subst p.
    exists rest, name, content. repeat split; try done.
    by apply Is_true_true.
  - intros (Hd & rest & name & content & Hroot & Hfile & Hscan & ->).
    rewrite Hd.
    exists (directory ++ rest, listdir fs is_dir (directory ++ rest),
            listdir fs is_file (directory ++ rest)).
    split.
    + unfold scan_root. apply list_elem_of_fmap.
      exists (os_path_join (directory ++ rest) name). split; [done|].
      apply list_elem_of_fmap. exists name. split; [done|].
      apply list_elem_of_filter. split; [by apply Is_true_true|].
      apply elem_of_listdir.
      exists (directory ++ rest ++ [name]), (File content).
      rewrite !app_assoc, removelast_last, last_snoc. by rewrite <-app_assoc.
    + apply list_elem_of_fmap. exists (directory ++ rest). split; [done|].
      apply list_elem_of_filter. split; [split; [by exists rest|done]|].
      apply list_elem_of_fmap. exists (directory ++ rest, Dir).
      split; [done|]. by apply elem_of_map_to_list.
Qed.

(** ** C9: checksum files are left out of the scan *)

Lemma filelist_of_scanned_name (fs : filesystem) directory ref suf :
  Py.lacks Py.SLASH suf = true →
  (∀ name, scanned_name name = true → Py.endswith name suf = false) →
  ref ∈ filelist_of fs directory → Py.endswith ref suf = false.
Proof.
  intros Hsuf Hfilter
    (_ & rest & name & content & _ & _ & Hname & ->)%elem_of_filelist_of.
  unfold os_path_join. rewrite <-app_assoc, relpath_below.
  - apply not_true_is_false. intros Hends.
    specialize (Hfilter name Hname).
    destruct (join_app_split rest name) as [Heq|[pre Heq]];
      rewrite Heq in Hends; [congruence|].
    apply endswith_after_slash in Hends; [congruence|done].
  - pose proof (split_not_nil Py.SLASH name).
    by destruct rest, (Py.split Py.SLASH name).
Qed.

Lemma scanned_name_sha1sums name :
  scanned_name name = true → Py.endswith name ".sha1sums" = false.
Proof.
  unfold scanned_name. intros [H _]%andb_true_iff. by apply negb_true_iff.
Qed.

Lemma scanned_name_sha1sums_new name :
  scanned_name name = true → Py.endswith name ".sha1sums_new" = false.
Proof.
  unfold scanned_name. intros [_ H]%andb_true_iff. by apply negb_true_iff.
Qed.

(** No scanned file reference ends like a checksum file. *)
Lemma filelist_of_not_checksum (fs : filesystem) directory ref :
  ref ∈ filelist_of fs directory →
  Py.endswith ref ".sha1sums" = false
  ∧ Py.endswith ref ".sha1sums_new" = false.
Proof.
  intros H. split.
  - by apply (filelist_of_scanned_name fs directory ref ".sha1sums"
                eq_refl scanned_name_sha1sums).
  - by apply (filelist_of_scanned_name fs directory ref ".sha1sums_new"
                eq_refl scanned_name_sha1sums_new).
Qed.

(** The reference of a path below [directory] ends as its name does. *)
Lemma relpath_endswith directory rest name suf :
  Py.endswith name suf = true →
  Py.endswith (os_path_relpath (directory ++ rest ++ [name]) directory) suf
  = true.
Proof.
  intros H. rewrite relpath_below by by destruct rest.
  destruct (join_snoc rest name) as [->|[pre ->]]; [done|].
  by apply endswith_app.
Qed.

(** C9.  A path at any depth below the directory whose name ends with
    [.sha1sums] or [.sha1sums_new] is not in the set of scanned files; a
    successful [check] has it neither in its additions nor in its changes;
    and the database of a tree found clean does not track it. *)
Theorem check_skips_checksum_files (sha1 : string → string)
    (fs : filesystem) directory log data rest name :
  eval fs (check sha1 directory log) = Ok data →
  Py.endswith name ".sha1sums" = true
  ∨ Py.endswith name ".sha1sums_new" = true →
  let fileref := os_path_relpath (directory ++ rest ++ [name]) directory in
  (fileref ∉ filelist_of fs directory)
  ∧ (fileref ∉ paths (additions data))
  ∧ (fileref ∉ paths (changes data))
  ∧ (is_dirty data = false → fileref ∉ dom (db data)).
Proof.
  intros (_ & Hadd & Hchg & Hdel & _)%check_lists Hname fileref.
  assert (fileref ∉ filelist_of fs directory) as Hout.
  { intros [H1 H2]%filelist_of_not_checksum.
    destruct Hname as [Hname|Hname];
      apply (relpath_endswith directory rest) in Hname;
      fold fileref in Hname; congruence. }
  split; [done|]. unfold paths. split; [|split].
  - intros ([p h] & -> & H)%list_elem_of_fmap. apply Hadd in H. naive_solver.
  - intros ([p h] & -> & H)%list_elem_of_fmap. apply Hchg in H. naive_solver.
  - intros (_ & Hnodel & _)%is_dirty_false_inv Hin.
    assert (fileref ∈ deletions data) as Hd by by apply Hdel.
    rewrite Hnodel in Hd. by apply elem_of_nil in Hd.
Qed.

Lemma check_skips_checksum_files_witness :
  ∃ data,
    eval fs_sample_tree (check sample_digest ["t"] true) = Ok data
    ∧ fs_sample_tree !! ["t"; "sub"; "x.sha1sums"] = Some (File "X")
    ∧ ("sub/x.sha1sums" ∉ filelist_of fs_sample_tree ["t"])
    ∧ ("sub/x.sha1sums" ∉ paths (additions data))
    ∧ ("sub/x.sha1sums" ∉ paths (changes data)).
Proof.
  eassert (eval fs_sample_tree (check sample_digest ["t"] true) = Ok _)
    as Hcheck by (vm_compute; reflexivity).
  eexists. split; [exact Hcheck|].
  split; [vm_compute; reflexivity|].
  pose proof (check_skips_checksum_files sample_digest fs_sample_tree ["t"]
                true _ ["sub"] "x.sha1sums" Hcheck (or_introl eq_refl))
    as (Hscan & Hadd & Hchg & _).
  exact (conj Hscan (conj Hadd Hchg)).
Defined.

(** ** C1: the gates of [replicate] *)

Lemma untouched_refl w : untouched w w.
Proof. split; [done|]. exists []. by rewrite app_nil_r. Qed.

Lemma untouched_trans w1 w2 w3 :
  untouched w1 w2 → untouched w2 w3 → untouched w1 w3.
Proof.
  intros [Hfs1 (e1 & Ht1 & He1)] [Hfs2 (e2 & Ht2 & He2)].
  split; [congruence|]. exists (e1 ++ e2).
  split; [by rewrite Ht2, Ht1, app_assoc | by apply Forall_app].
Qed.

Lemma untouched_printed w lines : untouched w (printed w lines).
Proof.
  split; [done|]. exists (EvPrint <$> lines). split; [done|].
  by apply Forall_fmap, Forall_true.
Qed.

Lemma untouched_prompted w stdin prompt :
  untouched w (World (w_fs w) stdin (w_trace w ++ [EvPrompt prompt])).
Proof.
  split; [done|]. exists [EvPrompt prompt]. split; [done|].
  by apply Forall_singleton.
Qed.

Lemma print_run line w : print line w = (Ok tt, printed w [line]).
Proof. done. Qed.

Lemma reader_show_changes (hashdb : gmap string string)
    (adds chgs : list (string * string)) (dels : list string) :
  reader (show_changes hashdb adds chgs dels).
Proof. unfold show_changes. reader_tac. Qed.

(** One step of a run: a reader bound to what follows it. *)
Ltac step_reader m lem :=
  match goal with
  | |- context [ mbind ?f m ?w ] =>
      destruct (bind_reader_run m f w lem) as [? ->]; simpl w_fs;
      rewrite ?printed_printed
  end.

(** The run of [replicate] up to its gates, when both checks succeed. *)
Lemma replicate_gates (sha1 : string → string) src dst w srcdata dstdata :
  eval (w_fs w) (check sha1 src true) = Ok srcdata →
  eval (w_fs w) (check sha1 dst true) = Ok dstdata →
  ∃ lines,
    replicate sha1 src dst w =
    if is_dirty srcdata then (Ok tt, printed w lines)
    else if is_dirty dstdata then (Ok tt, printed w lines)
    else replicate_clean src dst (db srcdata) (db dstdata) (printed w lines).
Proof.
  intros Hsrc Hdst. unfold replicate.
  rewrite bind_run, print_run.
  step_reader (check sha1 src true) (reader_check sha1 src true).
  rewrite Hsrc, bind_run, print_run, printed_printed.
  step_reader (check sha1 dst true) (reader_check sha1 dst true).
  rewrite Hdst.
  destruct (is_dirty srcdata); [|destruct (is_dirty dstdata)].
  - rewrite print_run, printed_printed. by eexists.
  - rewrite print_run, printed_printed. by eexists.
  - by eexists.
Qed.

(** [replicate] stops at the first check that fails. *)
Lemma replicate_check_fails (sha1 : string → string) src dst w :
  (∀ srcdata dstdata,
     eval (w_fs w) (check sha1 src true) = Ok srcdata →
     eval (w_fs w) (check sha1 dst true) ≠ Ok dstdata) →
  ∃ lines, (replicate sha1 src dst w).2 = printed w lines.
Proof.
  intros Hfail. unfold replicate.
  rewrite bind_run, print_run.
  step_reader (check sha1 src true) (reader_check sha1 src true).
  destruct (eval (w_fs w) (check sha1 src true)) as [srcdata| | |] eqn:Hsrc;
    try by eexists.
  rewrite bind_run, print_run, printed_printed.
  step_reader (check sha1 dst true) (reader_check sha1 dst true).
  destruct (eval (w_fs w) (check sha1 dst true)) as [dstdata| | |] eqn:Hdst;
    try by eexists.
  by destruct (Hfail srcdata dstdata).
Qed.

(** Past two successful checks, a diff that is not empty ends the run. *)
Lemma replicate_dirty_returns (sha1 : string → string) src dst w
    srcdata dstdata :
  eval (w_fs w) (check sha1 src true) = Ok srcdata →
  eval (w_fs w) (check sha1 dst true) = Ok dstdata →
  is_dirty srcdata = true ∨ is_dirty dstdata = true →
  ∃ lines, replicate sha1 src dst w = (Ok tt, printed w lines).
Proof.
  intros Hsrc Hdst Hdirty.
  destruct (replicate_gates sha1 src dst w _ _ Hsrc Hdst) as [lines ->].
  exists lines. destruct Hdirty as [->| ->]; [done|].
  by destruct (is_dirty srcdata).
Qed.

(** C1.  When the diff of either tree against its own database is not
    empty, [replicate] leaves the world as it was but for lines it printed:
    the file system, and with it both trees and both checksum files, is the
    same, and the trace has gained no copy, no write and no directory
    made.  This is so too when the check of the other tree fails. *)
Theorem replicate_dirty_refused (sha1 : string → string) src dst w :
  (∃ srcdata, eval (w_fs w) (check sha1 src true) = Ok srcdata
              ∧ is_dirty srcdata = true)
  ∨ (∃ dstdata, eval (w_fs w) (check sha1 dst true) = Ok dstdata
                ∧ is_dirty dstdata = true) →
  ∃ lines, (replicate sha1 src dst w).2 = printed w lines.
Proof.
  intros Hdirty.
  destruct (eval (w_fs w) (check sha1 src true)) as [srcdata| | |] eqn:Hsrc.
  2-4: apply replicate_check_fails; intros ? ?; by rewrite Hsrc.
  destruct (eval (w_fs w) (check sha1 dst true)) as [dstdata| | |] eqn:Hdst.
  2-4: apply replicate_check_fails; intros ? ? _; by rewrite Hdst.
  destruct (replicate_dirty_returns sha1 src dst w srcdata dstdata Hsrc Hdst)
    as [lines ->]; [|by exists lines].
  destruct Hdirty as [(? & [= <-] & ?)|(? & [= <-] & ?)]; auto.
Qed.

Lemma replicate_dirty_refused_witness :
  ∃ lines,
    (replicate sample_digest ["src"] ["t"] (World fs_sample_all [] [])).2
    = printed (World fs_sample_all [] []) lines.
Proof.
  refine (replicate_dirty_refused sample_digest ["src"] ["t"]
            (World fs_sample_all [] []) _).
  right. eexists. split; [vm_compute; reflexivity|]. vm_compute; reflexivity.
Defined.

Lemma eval_for_each_ok {A : Type} (fs : filesystem) (body : A → M unit) l :
  (∀ x, reader (body x)) →
  (∀ x, x ∈ l → eval fs (body x) = Ok tt) →
  eval fs (for_each body l) = Ok tt.
Proof.
  intros Hr. unfold for_each. induction l as [|x l IH]; intros Hl; [done|].
  simpl. rewrite eval_bind; [|done|intros; by apply reader_for_fold].
  rewrite Hl by left. simpl. apply IH. intros y Hy. apply Hl. by right.
Qed.

Lemma eval_dict_get (fs : filesystem) (d : gmap string string) k v :
  d !! k = Some v → eval fs (dict_get d k) = Ok v.
Proof. intros H. unfold dict_get. by rewrite H. Qed.

(** The report succeeds when the database knows the changes and the
    deletions. *)
Lemma eval_show_changes (fs : filesystem) (hashdb : gmap string string)
    adds chgs dels :
  (∀ p h, (p, h) ∈ chgs → is_Some (hashdb !! p)) →
  (∀ p, p ∈ dels → is_Some (hashdb !! p)) →
  eval fs (show_changes hashdb adds chgs dels) = Ok tt.
Proof.
  intros Hchg Hdel. unfold show_changes.
  rewrite eval_bind, eval_print by reader_tac. simpl.
  rewrite eval_bind by reader_tac. rewrite eval_for_each_ok; [|reader_tac|].
  2: { intros [p h] _. by rewrite !eval_bind by reader_tac. }
  simpl. rewrite eval_bind by reader_tac.
  rewrite eval_for_each_ok; [|reader_tac|].
  2: { intros [p h] Hin. destruct (Hchg p h Hin) as [known Hk].
       rewrite !eval_bind by reader_tac. simpl.
       by rewrite (eval_dict_get _ _ _ _ Hk). }
  simpl. apply eval_for_each_ok; [reader_tac|].
  intros p Hin. destruct (Hdel p Hin) as [known Hk].
  rewrite !eval_bind by reader_tac. simpl.
  by rewrite (eval_dict_get _ _ _ _ Hk).
Qed.

Lemma eval_show_changes_check (sha1 : string → string) (fs : filesystem)
    directory log data :
  eval fs (check sha1 directory log) = Ok data →
  eval fs (show_changes (db data) (additions data) (changes data)
             (deletions data)) = Ok tt.
Proof.
  intros (_ & _ & Hchg & Hdel & _)%check_lists. apply eval_show_changes.
  - intros p h (_ & _ & known & Hk & _)%Hchg. by exists known.
  - intros p [Hp _]%Hdel. by apply elem_of_dom.
Qed.

(** The world in which [interactive_check] has asked its question. *)
Lemma interactive_check_run (sha1 : string → string) directory w data :
  eval (w_fs w) (check sha1 directory true) = Ok data →
  ∃ lines,
    let asked stdin :=
      World (w_fs w) stdin
            (w_trace w ++ (EvPrint <$> lines)
             ++ [EvPrompt "Commit changes [y/n]? "]) in
    interactive_check sha1 directory w =
    match w_stdin w with
    | [] => (Raise EOFError, asked [])
    | commit :: rest =>
        if affirmative commit
        then commit_changes (os_path_join directory ".sha1sums") (db data)
               (additions data) (changes data) (deletions data) (asked rest)
        else (Exit 0, printed (asked rest) ["Canceled."])
    end.
Proof.
  intros Hcheck. unfold interactive_check.
  step_reader (check sha1 directory true) (reader_check sha1 directory true).
  rewrite Hcheck.
  step_reader (show_changes (db data) (additions data) (changes data)
                 (deletions data))
              (reader_show_changes (db data) (additions data) (changes data)
                 (deletions data)).
  rewrite (eval_show_changes_check _ _ _ _ _ Hcheck).
  rewrite bind_run, print_run, printed_printed.
  rewrite bind_run. unfold input at 1. simpl w_stdin. simpl w_trace.
  simpl w_fs. eexists. cbv zeta. rewrite <-app_assoc.
  destruct (w_stdin w) as [|commit rest]; [done|].
  rewrite bind_run. destruct (affirmative commit); cbn [negb].
  - done.
  - by rewrite bind_run, print_run.
Qed.

Lemma interactive_check_check_fails (sha1 : string → string) directory w :
  (∀ data, eval (w_fs w) (check sha1 directory true) ≠ Ok data) →
  ∃ lines, (interactive_check sha1 directory w).2 = printed w lines.
Proof.
  intros Hfail. unfold interactive_check.
  step_reader (check sha1 directory true) (reader_check sha1 directory true).
  destruct (eval (w_fs w) (check sha1 directory true)) as [data| | |] eqn:E;
    try by eexists.
  by destruct (Hfail data).
Qed.

Lemma untouched_asked w stdin lines prompt :
  untouched w (World (w_fs w) stdin
                 (w_trace w ++ (EvPrint <$> lines) ++ [EvPrompt prompt])).
Proof.
  split; [done|]. eexists. split; [done|].
  apply Forall_app. split; [by apply Forall_fmap, Forall_true|].
  by apply Forall_singleton.
Qed.

(** ** C10: who writes *)

(** C10.  [check] only reads: whatever it returns, the file system and the
    standard input are as they were, and the trace has gained printed lines
    only.  Its two callers write nothing either unless their gate is passed:
    [interactive_check] unless the reviewer answered in the affirmative,
    [replicate] unless both trees were checked and found clean. *)
Theorem check_reads_only (sha1 : string → string) directory log src dst w :
  (∃ lines, (check sha1 directory log w).2 = printed w lines)
  ∧ (untouched w (interactive_check sha1 directory w).2
     ∨ ∃ commit rest, w_stdin w = commit :: rest
                      ∧ affirmative commit = true)
  ∧ (untouched w (replicate sha1 src dst w).2
     ∨ ∃ srcdata dstdata,
         eval (w_fs w) (check sha1 src true) = Ok srcdata
         ∧ eval (w_fs w) (check sha1 dst true) = Ok dstdata
         ∧ is_dirty srcdata = false ∧ is_dirty dstdata = false).
Proof.
  split; [|split].
  - destruct (reader_check sha1 directory log w) as [lines ->].
    by exists lines.
  - destruct (eval (w_fs w) (check sha1 directory true)) as [data| | |]
      eqn:Hcheck.
    2-4: left;
      destruct (interactive_check_check_fails sha1 directory w) as [l ->];
      [intros data; by rewrite Hcheck | apply untouched_printed].
    destruct (interactive_check_run sha1 directory w data Hcheck)
      as [lines ->].
    destruct (w_stdin w) as [|commit rest]; [left; apply untouched_asked|].
    destruct (affirmative commit) eqn:Hyes; [right; by eexists _, _|].
    left. eapply untouched_trans;
      [apply untouched_asked | apply untouched_printed].
  - destruct (eval (w_fs w) (check sha1 src true)) as [srcdata| | |]
      eqn:Hsrc.
    2-4: left; destruct (replicate_check_fails sha1 src dst w) as [l ->];
      [intros ? ?; by rewrite Hsrc | apply untouched_printed].
    destruct (eval (w_fs w) (check sha1 dst true)) as [dstdata| | |]
      eqn:Hdst.
    2-4: left; destruct (replicate_check_fails sha1 src dst w) as [l ->];
      [intros ? ? _; by rewrite Hdst | apply untouched_printed].
    destruct (replicate_gates sha1 src dst w _ _ Hsrc Hdst) as [lines ->].
    destruct (is_dirty srcdata) eqn:Hs; [left; apply untouched_printed|].
    destruct (is_dirty dstdata) eqn:Hd; [left; apply untouched_printed|].
    right. by exists srcdata, dstdata.
Qed.

(** ** C6: the reviewer declines *)

(** C6, as amended.  When the check succeeds and the line read from the
    reviewer does not start with [y] or [Y], [interactive_check] writes
    nothing, prints [Canceled.] last and ends the process by [exit(0)]: the
    exit status is 0, that of a run that committed. *)
Theorem interactive_check_canceled (sha1 : string → string) directory w data
    commit rest :
  eval (w_fs w) (check sha1 directory true) = Ok data →
  w_stdin w = commit :: rest →
  affirmative commit = false →
  ∃ w', interactive_check sha1 directory w = (Exit 0, w')
        ∧ untouched w w'
        ∧ last (w_trace w') = Some (EvPrint "Canceled.")
        ∧ exit_status (interactive_check sha1 directory w).1 = Some 0%Z.
Proof.
  intros Hcheck Hin Hno.
  destruct (interactive_check_run sha1 directory w data Hcheck)
    as [lines ->].
  rewrite Hin, Hno. eexists. split; [done|]. split; [|split; [|done]].
  - eapply untouched_trans;
      [apply untouched_asked | apply untouched_printed].
  - simpl. by rewrite !app_assoc, last_snoc.
Qed.

Lemma interactive_check_canceled_witness :
  ∃ w', interactive_check sample_digest ["t"]
          (World fs_sample_tree ["no"] []) = (Exit 0, w')
        ∧ untouched (World fs_sample_tree ["no"] []) w'
        ∧ last (w_trace w') = Some (EvPrint "Canceled.")
        ∧ exit_status (interactive_check sample_digest ["t"]
                         (World fs_sample_tree ["no"] [])).1 = Some 0%Z.
Proof.
  refine (interactive_check_canceled sample_digest ["t"]
            (World fs_sample_tree ["no"] []) _ "no" [] _ _ _).
  - vm_compute; reflexivity.
  - reflexivity.
  - vm_compute; reflexivity.
Defined.

(** C6 fails as stated: after the answer [n] the process ends with exit
    status 0, the status it also ends with after the answer [y]. *)
Lemma canceled_exit_status_is_zero :
  affirmative "n" = false
  ∧ exit_status (main sample_digest ["freeze.py"; "check"; "t"]
                   (World fs_sample_tree ["n"] [])).1 = Some 0%Z
  ∧ exit_status (main sample_digest ["freeze.py"; "check"; "t"]
                   (World fs_sample_tree ["y"] [])).1 = Some 0%Z.
Proof. split; [|split]; vm_compute; reflexivity. Qed.

(** ** C5: [make_parents] *)

Lemma length_removelast (p : path) :
  length (removelast p) = pred (length p).
Proof.
  induction p as [|x p IH]; [done|].
  destruct p as [|y p]; [done|].
  change (S (length (removelast (y :: p))) = pred (length (x :: y :: p))).
  by rewrite IH.
Qed.

(** The loop of [make_parents] ends within the bound it is given: a
    directory is made only below an existing one, where the loop stops. *)
Lemma make_parents_loop_fuel fuel directory w :
  length directory < fuel →
  (make_parents_loop fuel directory w).1 ≠ OutOfFuel.
Proof.
  revert directory w. induction fuel as [|fuel IH]; intros d w Hlen; [lia|].
  simpl. rewrite bind_run. unfold os_path_exists at 1.
  destruct (bool_decide (is_Some (w_fs w !! d))) eqn:Hex; [done|].
  cbn [negb]. rewrite bind_run. unfold os_mkdir at 1.
  destruct (w_fs w !! d); [done|].
  destruct d as [|x d]; [done|].
  destruct (parent_of (w_fs w) (x :: d)); try done.
  apply IH. cbn [fst os_path_split]. rewrite length_removelast.
  simpl in *. lia.
Qed.

Lemma make_parents_terminates filepath w :
  (make_parents filepath w).1 ≠ OutOfFuel.
Proof.
  unfold make_parents. cbn [os_path_split].
  apply make_parents_loop_fuel. lia.
Qed.

(** Nothing to do when the directory of the file exists. *)
Lemma make_parents_exists filepath w :
  is_Some (w_fs w !! removelast filepath) →
  make_parents filepath w = (Ok tt, w).
Proof.
  intros H. unfold make_parents. simpl. rewrite bind_run.
  unfold os_path_exists. by rewrite bool_decide_eq_true_2.
Qed.


(** Two missing directories: the inner one is tried first, [os.mkdir]
    refuses it, and nothing is made. *)
Lemma make_parents_two_missing filepath w :
  w_fs w !! removelast filepath = None →
  removelast (removelast filepath) ≠ [] →
  w_fs w !! removelast (removelast filepath) = None →
  make_parents filepath w = (Raise FileNotFoundError, w).
Proof.
  intros Hd Hne Hup. unfold make_parents. simpl. rewrite bind_run.
  unfold os_path_exists at 1. rewrite Hd.
  rewrite bool_decide_eq_false_2 by by intros [? ?].
  cbn [negb]. rewrite bind_run. unfold os_mkdir. rewrite Hd.
  unfold parent_of. destruct (removelast filepath) as [|x d]; [done|].
  destruct (removelast (x :: d)); [done|]. by rewrite Hup.
Qed.

(** When [make_parents] returns, the directory of the file is there: it was
    there already, or it was the one directory made. *)
Lemma make_parents_ok_inv filepath w w' :
  make_parents filepath w = (Ok tt, w') →
  (w' = w ∧ is_Some (w_fs w !! removelast filepath))
  ∨ (w_fs w !! removelast filepath = None
     ∧ w' = World (<[removelast filepath := Dir]> (w_fs w)) (w_stdin w)
                  (w_trace w ++ [EvMkdir (removelast filepath)])).
Proof.
  unfold make_parents. cbn [os_path_split].
  generalize (removelast filepath) as d. intros d.
  cbn [make_parents_loop]. rewrite bind_run.
  unfold os_path_exists at 1.
  destruct (w_fs w !! d) as [n|] eqn:Hd.
  - rewrite bool_decide_eq_true_2 by eauto. intros [= <-]. left. eauto.
  - rewrite bool_decide_eq_false_2 by apply is_Some_None.
    cbn [negb]. rewrite bind_run. unfold os_mkdir. rewrite Hd.
    destruct (parent_of (w_fs w) d) eqn:Hpar; try done.
    intros Hrun. right. split; [done|].
    destruct d as [|x d']; [done|].
    cbn [length make_parents_loop os_path_split fst] in Hrun.
    rewrite bind_run in Hrun. unfold os_path_exists at 1 in Hrun.
    cbn [w_fs] in Hrun. unfold parent_of in Hpar.
    remember (removelast (x :: d')) as up eqn:Eup.
    assert (up ≠ x :: d') as Hne.
    { intros Heq. apply (f_equal length) in Heq. subst up.
      rewrite length_removelast in Heq. simpl in Heq. lia. }
    rewrite lookup_insert_ne in Hrun by done.
    destruct up as [|y r].
    + (* the directory above is the empty path, which never exists *)
      destruct (w_fs w !! []) as [n|] eqn:Hroot.
      * rewrite bool_decide_eq_true_2 in Hrun by eauto. by injection Hrun.
      * rewrite bool_decide_eq_false_2 in Hrun by apply is_Some_None.
        cbn [negb] in Hrun. rewrite bind_run in Hrun.
        unfold os_mkdir in Hrun. cbn [w_fs] in Hrun.
        rewrite lookup_insert_ne, Hroot in Hrun by done.
        by cbn in Hrun.
    + destruct (w_fs w !! (y :: r)) as [[c|]|] eqn:Hup; try done.
      rewrite bool_decide_eq_true_2 in Hrun by eauto. by injection Hrun.
Qed.

(** A second call after a first one that returned does nothing. *)
Lemma make_parents_idempotent filepath w w' :
  make_parents filepath w = (Ok tt, w') →
  make_parents filepath w' = (Ok tt, w').
Proof.
  intros [[-> H]|[_ ->]]%make_parents_ok_inv;
    apply make_parents_exists; [done|].
  simpl. rewrite lookup_insert_eq. eauto.
Qed.

(** In the working directory the one missing directory is made, and the
    loop goes on to the empty path, which [os.mkdir] refuses. *)
Lemma make_parents_relative_fails :
  make_parents ["a"; "c.txt"] (World ∅ [] [])
  = (Raise FileNotFoundError, World {[ ["a"] := Dir ]} [] [EvMkdir ["a"]]).
Proof. vm_compute; reflexivity. Qed.

(** C5, at the failing input: with [dst] there and [dst/a] missing,
    [make_parents("dst/a/b/c.txt")] raises [FileNotFoundError] and makes
    neither [dst/a] nor [dst/a/b]. *)
Theorem make_parents_fails_two_levels :
  make_parents ["dst"; "a"; "b"; "c.txt"] (World {[ ["dst"] := Dir ]} [] [])
  = (Raise FileNotFoundError, World {[ ["dst"] := Dir ]} [] []).
Proof. by apply make_parents_two_missing. Qed.

(** ** C8: the main program *)

(** Without a subcommand the usage is printed and the exit status is 1. *)
Lemma main_no_subcommand (sha1 : string → string) argv0 w :
  main sha1 [argv0] w
  = (Exit 1, printed w [ "Usage: " +:+ argv0 +:+ " check [directory]";
                         "Usage: " +:+ argv0 +:+ " replicate [src] [dst]" ]).
Proof.
  unfold main, usage. simpl. rewrite !bind_run. simpl.
  unfold printed. simpl. by rewrite <-app_assoc.
Qed.

(** With a subcommand that is neither [check] nor [replicate] the name
    [sumcommand] is read, which nothing binds: [NameError], before anything
    is printed. *)
Lemma main_unknown_subcommand (sha1 : string → string) argv0 subcommand
    rest w :
  subcommand ≠ "check" → subcommand ≠ "replicate" →
  main sha1 (argv0 :: subcommand :: rest) w = (Raise NameError, w).
Proof.
  intros H1 H2. unfold main. simpl. rewrite bind_run. simpl.
  by rewrite !decide_False.
Qed.

(** C8, at the failing input: [freeze.py frobnicate] ends with an uncaught
    [NameError] (exit status 1) and has printed nothing, the usage
    neither. *)
Theorem main_unknown_subcommand_no_usage :
  ∀ w, main sample_digest ["freeze.py"; "frobnicate"] w = (Raise NameError, w)
       ∧ exit_status (main sample_digest ["freeze.py"; "frobnicate"] w).1
         = Some 1%Z.
Proof. intros w. by rewrite main_unknown_subcommand. Qed.

(** ** C3: a commit leaves a clean tree *)

Lemma lookup_insert_all (hashdb : gmap string string) entries p :
  NoDup entries.*1 →
  insert_all hashdb entries !! p =
  match list_to_map (M := gmap string string) entries !! p with
  | Some h => Some h
  | None => hashdb !! p
  end.
Proof.
  intros Hnd. rewrite insert_all_union by done. rewrite lookup_union.
  by destruct (list_to_map entries !! p), (hashdb !! p).
Qed.


Lemma for_fold_insert_run (hashdb : gmap string string) entries w :
  for_fold (λ hashdb '(name, filehash), mret (<[name := filehash]> hashdb))
           hashdb entries w
  = (Ok (insert_all hashdb entries), w).
Proof.
  revert hashdb. induction entries as [|[k h] es IH]; intros hashdb; [done|].
  simpl. rewrite bind_run. simpl. apply IH.
Qed.

Lemma for_fold_dict_del_run (hashdb : gmap string string) keys w :
  NoDup keys → (∀ k, k ∈ keys → is_Some (hashdb !! k)) →
  for_fold dict_del hashdb keys w = (Ok (delete_all hashdb keys), w).
Proof.
  revert hashdb. induction keys as [|k keys IH]; intros hashdb Hnd Hin;
    [done|].
  apply NoDup_cons in Hnd as [Hk Hnd].
  simpl. rewrite bind_run. unfold dict_del at 1.
  destruct (Hin k) as [v Hv]; [left|]. rewrite Hv. simpl.
  apply IH; [done|]. intros k' Hk'.
  rewrite lookup_delete_ne by (intros ->; done). apply Hin. by right.
Qed.

(** The commit of [interactive_check] writes the committed database. *)
Lemma commit_changes_run sumfile (data : check_data) w :
  NoDup (deletions data) →
  (∀ k, k ∈ deletions data →
        is_Some (insert_all (insert_all (db data) (additions data))
                            (changes data) !! k)) →
  commit_changes sumfile (db data) (additions data) (changes data)
    (deletions data) w
  = write_db sumfile (committed data) w.
Proof.
  intros Hnd Hin. unfold commit_changes.
  rewrite bind_run, for_fold_insert_run.
  rewrite bind_run, for_fold_insert_run.
  rewrite bind_run, for_fold_dict_del_run by done. done.
Qed.








Lemma sidecar_path directory :
  os_path_join directory ".sha1sums" = directory ++ [".sha1sums"].
Proof. done. Qed.

Section WriteChecksums.

Variable fs : filesystem.
Variable directory : path.
Variable text : string.
Hypothesis not_dir : fs !! (directory ++ [".sha1sums"]) ≠ Some Dir.

Let fs' : filesystem := <[directory ++ [".sha1sums"] := File text]> fs.





End WriteChecksums.







(** Nor is the tree clean after the commit of a file whose name ends with a
    space: the next check finds it added again, and its stripped name
    deleted. *)
Lemma commit_then_check_trailing_space :
  ∃ w' data',
    interactive_check sample_digest ["t"] (World fs_trailing_space ["y"] [])
    = (Ok tt, w')
    ∧ eval (w_fs w') (check sample_digest ["t"] true) = Ok data'
    ∧ paths (additions data') = ["b "]
    ∧ deletions data' = ["b"]
    ∧ is_dirty data' = true.
Proof.
  eexists _, _. split; [vm_compute; reflexivity|].
  split; [vm_compute; reflexivity|].
  split; [vm_compute; reflexivity|].
  split; [vm_compute; reflexivity|]. vm_compute; reflexivity.
Qed.

(** ** C7: nothing is deleted in the destination *)

Lemma keeps_files_same {A : Type} (m : M A) :
  (∀ w, w_fs (m w).2 = w_fs w) → keeps_files m.
Proof. intros H w q c Hq. exists c. by rewrite H. Qed.

Lemma keeps_files_ret {A : Type} (a : A) : keeps_files (mret a).
Proof. by apply keeps_files_same. Qed.

Lemma keeps_files_raise {A : Type} e : keeps_files (@raise A e).
Proof. by apply keeps_files_same. Qed.

Lemma keeps_files_out_of_fuel {A : Type} : keeps_files (@out_of_fuel A).
Proof. by apply keeps_files_same. Qed.

Lemma keeps_files_print line : keeps_files (print line).
Proof. by apply keeps_files_same. Qed.

Lemma keeps_files_os_path_exists p : keeps_files (os_path_exists p).
Proof. by apply keeps_files_same. Qed.

Lemma keeps_files_dict_get d k : keeps_files (dict_get d k).
Proof. apply keeps_files_same. intros w. unfold dict_get. by destruct (d !! k). Qed.

Lemma keeps_files_bind {A B : Type} (m : M A) (f : A → M B) :
  keeps_files m → (∀ a, keeps_files (f a)) → keeps_files (m ≫= f).
Proof.
  intros Hm Hf w q c Hq. rewrite bind_run.
  destruct (Hm w q c Hq) as [c1 H1].
  destruct (m w) as [[a| | |] w1]; simpl in *; try by exists c1.
  by apply (Hf a w1 q c1).
Qed.

Lemma keeps_files_for_fold {A S : Type} (body : S → A → M S) l :
  (∀ s x, keeps_files (body s x)) → ∀ s, keeps_files (for_fold body s l).
Proof.
  intros Hbody. induction l as [|x l IH]; intros s; simpl.
  - apply keeps_files_ret.
  - apply keeps_files_bind; [apply Hbody | intros s'; apply IH].
Qed.

Lemma keeps_files_for_each {A : Type} (body : A → M unit) l :
  (∀ x, keeps_files (body x)) → keeps_files (for_each body l).
Proof. intros H. apply keeps_files_for_fold. intros _ x. apply H. Qed.

Lemma keeps_files_os_mkdir p : keeps_files (os_mkdir p).
Proof.
  intros w q c Hq. unfold os_mkdir.
  destruct (w_fs w !! p) eqn:Hp; [by exists c|].
  destruct (parent_of (w_fs w) p); simpl; try by exists c.
  exists c. rewrite lookup_insert_ne; [done|]. intros ->. congruence.
Qed.

Lemma keeps_files_create_file p c ev : keeps_files (create_file p c ev).
Proof.
  intros w q c0 Hq. unfold create_file.
  destruct (w_fs w !! p) as [[c1|]|] eqn:Hp;
    destruct (parent_of (w_fs w) p); simpl; try by exists c0.
  all: destruct (decide (p = q)) as [->|Hne];
    [exists c; by rewrite lookup_insert_eq
    |exists c0; by rewrite lookup_insert_ne].
Qed.

Lemma keeps_files_file_write p text : keeps_files (file_write p text).
Proof.
  intros w q c0 Hq. unfold file_write.
  destruct (w_fs w !! p) as [[c1|]|] eqn:Hp; simpl; try by exists c0.
  destruct (Py.encodable text); simpl; [|by exists c0].
  destruct (decide (p = q)) as [->|Hne];
    [eexists; by rewrite lookup_insert_eq
    |exists c0; by rewrite lookup_insert_ne].
Qed.

Lemma keeps_files_shutil_copy2 src dst : keeps_files (shutil_copy2 src dst).
Proof.
  intros w q c0 Hq. unfold shutil_copy2.
  destruct (w_fs w !! src) as [[c|]|]; try by exists c0.
  destruct (decide _); [by exists c0|].
  by eapply keeps_files_create_file.
Qed.

Lemma keeps_files_make_parents_loop fuel directory :
  keeps_files (make_parents_loop fuel directory).
Proof.
  revert directory. induction fuel as [|fuel IH]; intros d; simpl.
  - apply keeps_files_out_of_fuel.
  - apply keeps_files_bind; [apply keeps_files_os_path_exists|].
    intros []; simpl; [apply keeps_files_ret|].
    apply keeps_files_bind; [apply keeps_files_os_mkdir|]. intros _. apply IH.
Qed.

Lemma keeps_files_make_parents filepath : keeps_files (make_parents filepath).
Proof. apply keeps_files_make_parents_loop. Qed.

Lemma keeps_files_write_db sumfile hashdb : keeps_files (write_db sumfile hashdb).
Proof.
  unfold write_db, open_w.
  apply keeps_files_bind; [apply keeps_files_create_file|]. intros _.
  apply keeps_files_for_each. intros k.
  apply keeps_files_bind; [apply keeps_files_dict_get|]. intros h.
  apply keeps_files_file_write.
Qed.

Lemma keeps_files_replicate_file src dst srcdb newdsthash srcfile :
  keeps_files (replicate_file src dst srcdb newdsthash srcfile).
Proof.
  unfold replicate_file.
  apply keeps_files_bind; [apply keeps_files_dict_get|]. intros srchash.
  destruct (truthy _); [destruct (decide _)|].
  - repeat (apply keeps_files_bind;
            [first [apply keeps_files_print | apply keeps_files_shutil_copy2]
            |intros _]).
    apply keeps_files_ret.
  - apply keeps_files_ret.
  - repeat (apply keeps_files_bind;
            [first [apply keeps_files_print | apply keeps_files_shutil_copy2
                   | apply keeps_files_make_parents]
            |intros _]).
    apply keeps_files_ret.
Qed.

Lemma keeps_files_report_deletion srcdb dstfile :
  keeps_files (report_deletion srcdb dstfile).
Proof.
  unfold report_deletion.
  destruct (negb _); [apply keeps_files_print | apply keeps_files_ret].
Qed.

Lemma keeps_files_replicate_clean src dst srcdb dstdb :
  keeps_files (replicate_clean src dst srcdb dstdb).
Proof.
  unfold replicate_clean. apply keeps_files_bind.
  - apply keeps_files_for_fold. intros. apply keeps_files_replicate_file.
  - intros new. apply keeps_files_bind.
    + apply keeps_files_for_each. intros. apply keeps_files_report_deletion.
    + intros _. apply keeps_files_write_db.
Qed.

Ltac bind_inv H :=
  let a := fresh "a" in
  let w1 := fresh "w" in
  let H1 := fresh "Hstep" in
  apply bind_ok_inv in H as (a & w1 & H1 & H).

(** [replicate_file] assigns to the key of the file it handles, and to no
    other. *)
Lemma replicate_file_lookup src dst (srcdb newdsthash : gmap string string)
    srcfile w newdsthash' w' p :
  replicate_file src dst srcdb newdsthash srcfile w = (Ok newdsthash', w') →
  p ≠ srcfile → newdsthash' !! p = newdsthash !! p.
Proof.
  unfold replicate_file. intros H Hne. bind_inv H.
  destruct (truthy _); [destruct (decide _)|].
  - do 3 bind_inv H. injection H as <- _. by rewrite lookup_insert_ne.
  - by injection H as <- _.
  - do 4 bind_inv H. injection H as <- _. by rewrite lookup_insert_ne.
Qed.

Lemma for_fold_replicate_file_lookup src dst
    (srcdb newdsthash : gmap string string) l w newdsthash' w' p :
  for_fold (replicate_file src dst srcdb) newdsthash l w
  = (Ok newdsthash', w') →
  p ∉ l → newdsthash' !! p = newdsthash !! p.
Proof.
  revert newdsthash w. induction l as [|k l IH]; intros new w H Hp.
  - by injection H as <- _.
  - simpl in H. bind_inv H.
    apply not_elem_of_cons in Hp as [Hk Hp].
    rewrite (IH _ _ H Hp). by eapply replicate_file_lookup.
Qed.

(** One round of the first loop of [replicate] leaves the digest of the
    source at the key of its file. *)
Lemma replicate_file_key src dst (srcdb newdsthash : gmap string string)
    srcfile w newdsthash' w' :
  replicate_file src dst srcdb newdsthash srcfile w = (Ok newdsthash', w') →
  newdsthash' !! srcfile = srcdb !! srcfile.
Proof.
  unfold replicate_file. intros H. bind_inv H.
  assert (srcdb !! srcfile = Some a) as ->.
  { unfold dict_get in Hstep.
    destruct (srcdb !! srcfile) as [v|]; [|done].
    by injection Hstep as -> _. }
  destruct (truthy _); [destruct (decide _) as [|Heq%dec_stable]|].
  - do 3 bind_inv H. injection H as <- _. by rewrite lookup_insert_eq.
  - by injection H as <- _.
  - do 4 bind_inv H. injection H as <- _. by rewrite lookup_insert_eq.
Qed.

(** Every entry of the dictionary after the first loop of [replicate] is
    an entry of the dictionary before it or of the source database. *)
Lemma replicate_file_entry src dst (srcdb newdsthash : gmap string string)
    srcfile w newdsthash' w' p h :
  replicate_file src dst srcdb newdsthash srcfile w = (Ok newdsthash', w') →
  newdsthash' !! p = Some h →
  newdsthash !! p = Some h ∨ srcdb !! p = Some h.
Proof.
  intros H Hp. destruct (decide (p = srcfile)) as [->|Hne].
  - right. by rewrite <-(replicate_file_key _ _ _ _ _ _ _ _ H).
  - left. by rewrite <-(replicate_file_lookup _ _ _ _ _ _ _ _ _ H Hne).
Qed.

Lemma for_fold_replicate_file_entry src dst
    (srcdb newdsthash : gmap string string) l w newdsthash' w' p h :
  for_fold (replicate_file src dst srcdb) newdsthash l w
  = (Ok newdsthash', w') →
  newdsthash' !! p = Some h →
  newdsthash !! p = Some h ∨ srcdb !! p = Some h.
Proof.
  revert newdsthash w. induction l as [|k l IH]; intros new w H Hp.
  - injection H as <- _. by left.
  - simpl in H. bind_inv H.
    destruct (IH _ _ H Hp) as [Hin|Hin]; [|by right].
    by eapply replicate_file_entry.
Qed.

(** The dictionary after the first loop of [replicate] can be written
    when the two databases can. *)
Lemma for_fold_replicate_file_encodable src dst
    (srcdb newdsthash : gmap string string) l w newdsthash' w' :
  encodable_db srcdb → encodable_db newdsthash →
  for_fold (replicate_file src dst srcdb) newdsthash l w
  = (Ok newdsthash', w') →
  encodable_db newdsthash'.
Proof.
  intros Hs Hd H p h Hp.
  destruct (for_fold_replicate_file_entry _ _ _ _ _ _ _ _ _ _ H Hp);
    [by apply Hd|by apply Hs].
Qed.

(** The second loop of [replicate] prints a refusal for every key that
    the source database does not have. *)
Lemma report_deletions_run (srcdb : gmap string string) l w :
  ∃ lines,
    for_each (report_deletion srcdb) l w = (Ok tt, printed w lines)
    ∧ ∀ k, k ∈ l → srcdb !! k = None → refusal k ∈ lines.
Proof.
  unfold for_each. revert w. induction l as [|k l IH]; intros w.
  - exists []. split; [by rewrite printed_nil|]. by intros k []%elem_of_nil.
  - simpl. rewrite bind_run. unfold report_deletion at 1.
    destruct (truthy (srcdb !! k)) eqn:Htr; cbn [negb].
    + change (@mret M _ unit tt w) with (@Ok unit tt, w). cbv iota beta.
      destruct (IH w) as (lines & -> & Hl). exists lines. split; [done|].
      intros k' [->|Hk']%elem_of_cons Hnone; [|by apply Hl].
      by rewrite Hnone in Htr.
    + rewrite print_run. cbv iota beta.
      destruct (IH (printed w [refusal k])) as (lines & -> & Hl).
      exists (refusal k :: lines). split.
      * by rewrite printed_printed.
      * intros k' [->|Hk']%elem_of_cons Hnone; [left|right; by apply Hl].
Qed.

Lemma write_db_ok_inv sumfile (hashdb : gmap string string) w w' :
  write_db sumfile hashdb w = (Ok tt, w') →
  w' = World (<[sumfile := File (db_text (map_to_list hashdb))]> (w_fs w))
             (w_stdin w)
             (w_trace w ++ EvOpenW sumfile
              :: ((λ '(k, h), EvWrite sumfile (db_line h k))
                  <$> map_to_list hashdb)).
Proof.
  intros H.
  assert (w_fs w !! sumfile ≠ Some Dir
          ∧ parent_of (w_fs w) sumfile = ParentDir) as [Hp Hpar].
  { unfold write_db, open_w in H. rewrite bind_run in H.
    unfold create_file in H.
    destruct (w_fs w !! sumfile) as [[c|]|];
      destruct (parent_of (w_fs w) sumfile); done. }
  destruct (decide (Forall encodable_entry (map_to_list hashdb)))
    as [Henc|Henc].
  - rewrite write_db_run in H by done. by injection H as <-.
  - destruct (write_db_refused sumfile hashdb w Hp Hpar Henc)
      as (? & ? & ? & _ & _ & _ & Hrun).
    rewrite Hrun in H. discriminate H.
Qed.

Lemma db_text_app l1 l2 : db_text (l1 ++ l2) = db_text l1 +:+ db_text l2.
Proof.
  induction l1 as [|[k h] l1 IH]; [done|].
  rewrite <-app_comm_cons, !db_text_cons, IH. by rewrite append_assoc.
Qed.

(** The text of a dictionary has the line of each of its entries. *)
Lemma db_text_line (hashdb : gmap string string) k h :
  hashdb !! k = Some h →
  ∃ before after,
    db_text (map_to_list hashdb) = before +:+ db_line h k +:+ after.
Proof.
  intros (l1 & l2 & ->)%elem_of_map_to_list%list_elem_of_split.
  exists (db_text l1), (db_text l2). by rewrite db_text_app, db_text_cons.
Qed.

(** C7.  With both trees checked and clean, for a path that the database
    of the destination has and the database of the source has not: whatever
    [replicate] returns, the file of the path is still a file of the
    destination; and when [replicate] returns normally, it has printed its
    refusal to delete the path, and the checksum file of the destination
    holds the text of the working database, which has the path with the
    digest it had, on a line of its own. *)
Theorem replicate_refuses_deletion (sha1 : string → string) src dst w
    srcdata dstdata p filehash :
  eval (w_fs w) (check sha1 src true) = Ok srcdata →
  eval (w_fs w) (check sha1 dst true) = Ok dstdata →
  is_dirty srcdata = false → is_dirty dstdata = false →
  db dstdata !! p = Some filehash → db srcdata !! p = None →
  (∃ content,
     w_fs (replicate sha1 src dst w).2 !! os_path_join dst p
     = Some (File content))
  ∧ ((replicate sha1 src dst w).1 = Ok tt →
     EvPrint (refusal p) ∈ w_trace (replicate sha1 src dst w).2
     ∧ ∃ newdsthash before after,
         newdsthash !! p = Some filehash
         ∧ w_fs (replicate sha1 src dst w).2 !! os_path_join dst ".sha1sums"
           = Some (File (db_text (map_to_list newdsthash)))
         ∧ db_text (map_to_list newdsthash)
           = before +:+ db_line filehash p +:+ after).
Proof.
  intros Hsrc Hdst Hcs Hcd Hp Hnp.
  destruct (replicate_gates sha1 src dst w _ _ Hsrc Hdst) as [lines ->].
  rewrite Hcs, Hcd. split.
  - apply is_dirty_false_inv in Hcd as (_ & Hnodel & _).
    pose proof (check_lists _ _ _ _ _ Hdst) as (Hread & _ & _ & Hdel & _).
    assert (p ∈ filelist_of (w_fs w) dst) as Hscan.
    { destruct (decide (p ∈ filelist_of (w_fs w) dst)) as [|Hout]; [done|].
      assert (p ∈ deletions dstdata) as Hin
        by (apply Hdel; split; [by apply elem_of_dom|done]).
      rewrite Hnodel in Hin. by apply elem_of_nil in Hin. }
    destruct (Hread p Hscan) as [h Hh]. unfold digest_of in Hh.
    destruct (w_fs w !! os_path_join dst p) as [[c|]|] eqn:Hfile; try done.
    by apply (keeps_files_replicate_clean src dst (db srcdata) (db dstdata)
                (printed w lines) _ c).
  - intros Hok.
    destruct (replicate_clean src dst (db srcdata) (db dstdata)
                (printed w lines)) as [r w'] eqn:Hrun.
    simpl in Hok. subst r. simpl.
    unfold replicate_clean in Hrun. bind_inv Hrun. bind_inv Hrun.
    destruct (report_deletions_run (db srcdata) (map_to_list a).*1 w0)
      as (reported & Hrep & Hlines).
    rewrite Hrep in Hstep0. injection Hstep0 as _ <-.
    apply write_db_ok_inv in Hrun. subst w'. simpl.
    assert (a !! p = Some filehash) as Hkept.
    { rewrite <-Hp. eapply for_fold_replicate_file_lookup; [done|].
      intros ([k h] & -> & Hkh%elem_of_map_to_list)%list_elem_of_fmap.
      simpl in Hnp. congruence. }
    split.
    + apply elem_of_app. left. apply elem_of_app. right.
      apply list_elem_of_fmap. exists (refusal p). split; [done|].
      apply Hlines; [|done]. apply list_elem_of_fmap. exists (p, filehash).
      split; [done|]. by apply elem_of_map_to_list.
    + destruct (db_text_line a p filehash Hkept) as (before & after & Htext).
      exists a, before, after. split; [done|]. split; [|done].
      by rewrite sidecar_path, lookup_insert_eq.
Qed.

Lemma replicate_refuses_deletion_witness :
  (replicate sample_digest ["src"] ["dst"] (World fs_sample_pair [] [])).1
  = Ok tt
  ∧ (∃ content,
       w_fs (replicate sample_digest ["src"] ["dst"]
               (World fs_sample_pair [] [])).2 !! ["dst"; "c.txt"]
       = Some (File content))
  ∧ EvPrint "* Refusing to automaticly delete  c.txt  in backup"
    ∈ w_trace (replicate sample_digest ["src"] ["dst"]
                 (World fs_sample_pair [] [])).2.
Proof.
  assert ((replicate sample_digest ["src"] ["dst"]
             (World fs_sample_pair [] [])).1 = Ok tt) as Hok
    by (vm_compute; reflexivity).
  split; [exact Hok|].
  eassert (eval fs_sample_pair (check sample_digest ["src"] true) = Ok _)
    as H1 by (vm_compute; reflexivity).
  eassert (eval fs_sample_pair (check sample_digest ["dst"] true) = Ok _)
    as H2 by (vm_compute; reflexivity).
  pose proof (replicate_refuses_deletion sample_digest ["src"] ["dst"]
                (World fs_sample_pair [] []) _ _ "c.txt" (sample_digest "C")
                H1 H2) as H.
  lazymatch type of H with
  | ?P3 → ?P4 → ?P5 → ?P6 → _ =>
      assert P3 as H3 by (vm_compute; reflexivity);
      assert P4 as H4 by (vm_compute; reflexivity);
      assert P5 as H5 by (vm_compute; reflexivity);
      assert P6 as H6 by (vm_compute; reflexivity)
  end.
  destruct (H H3 H4 H5 H6) as [Hfile Hdone].
  split; [exact Hfile|]. exact (proj1 (Hdone Hok)).
Defined.

(** ** The bound of [make_parents] is never reached *)

Lemma within_fuel_ret {A : Type} (a : A) : within_fuel (mret a).
Proof. by intros w. Qed.

Lemma within_fuel_raise {A : Type} e : within_fuel (@raise A e).
Proof. by intros w. Qed.

Lemma within_fuel_exit {A : Type} c : within_fuel (@exit A c).
Proof. by intros w. Qed.

Lemma within_fuel_print line : within_fuel (print line).
Proof. by intros w. Qed.

Lemma within_fuel_input prompt : within_fuel (input prompt).
Proof. intros w. unfold input. by destruct (w_stdin w). Qed.

Lemma within_fuel_bind {A B : Type} (m : M A) (f : A → M B) :
  within_fuel m → (∀ a, within_fuel (f a)) → within_fuel (m ≫= f).
Proof.
  intros Hm Hf w. rewrite bind_run. specialize (Hm w).
  destruct (m w) as [[a| | |] w1]; simpl in *; try done. apply Hf.
Qed.

Lemma within_fuel_for_fold {A S : Type} (body : S → A → M S) l :
  (∀ s x, within_fuel (body s x)) → ∀ s, within_fuel (for_fold body s l).
Proof.
  intros Hbody. induction l as [|x l IH]; intros s; simpl.
  - apply within_fuel_ret.
  - apply within_fuel_bind; [apply Hbody | intros s'; apply IH].
Qed.

Lemma within_fuel_for_each {A : Type} (body : A → M unit) l :
  (∀ x, within_fuel (body x)) → within_fuel (for_each body l).
Proof. intros H. apply within_fuel_for_fold. intros _ x. apply H. Qed.

Lemma within_fuel_dict_get d k : within_fuel (dict_get d k).
Proof. intros w. unfold dict_get. by destruct (d !! k). Qed.

Lemma within_fuel_dict_del d k : within_fuel (dict_del d k).
Proof. intros w. unfold dict_del. by destruct (d !! k). Qed.

Lemma within_fuel_list_get l i : within_fuel (list_get l i).
Proof. intros w. unfold list_get. by destruct (l !! i). Qed.

Lemma within_fuel_os_path_exists p : within_fuel (os_path_exists p).
Proof. by intros w. Qed.

Lemma within_fuel_os_walk p : within_fuel (os_walk p).
Proof. by intros w. Qed.

Lemma within_fuel_read_file p : within_fuel (read_file p).
Proof. intros w. unfold read_file. by destruct (w_fs w !! p) as [[]|]. Qed.

Lemma within_fuel_create_file p c ev : within_fuel (create_file p c ev).
Proof.
  intros w. unfold create_file.
  by destruct (w_fs w !! p) as [[]|], (parent_of (w_fs w) p).
Qed.

Lemma within_fuel_file_write p text : within_fuel (file_write p text).
Proof.
  intros w. unfold file_write.
  destruct (w_fs w !! p) as [[]|]; [|done..]. by destruct (Py.encodable text).
Qed.

Lemma within_fuel_shutil_copy2 src dst : within_fuel (shutil_copy2 src dst).
Proof.
  intros w. unfold shutil_copy2.
  destruct (w_fs w !! src) as [[c|]|]; try done.
  destruct (decide _); [done|]. apply within_fuel_create_file.
Qed.

Lemma within_fuel_make_parents filepath : within_fuel (make_parents filepath).
Proof. intros w. apply make_parents_terminates. Qed.

Ltac within_fuel_tac :=
  repeat first
    [ progress intros
    | apply within_fuel_ret | apply within_fuel_raise | apply within_fuel_exit
    | apply within_fuel_print | apply within_fuel_input
    | apply within_fuel_dict_get | apply within_fuel_dict_del
    | apply within_fuel_list_get | apply within_fuel_create_file
    | apply within_fuel_file_write | apply within_fuel_shutil_copy2
    | apply within_fuel_make_parents | apply within_fuel_os_path_exists
    | apply within_fuel_os_walk | apply within_fuel_read_file
    | apply within_fuel_bind | apply within_fuel_for_fold
    | apply within_fuel_for_each
    | match goal with
      | |- within_fuel (if ?b then _ else _) => destruct b
      | |- within_fuel (match ?x with _ => _ end) => destruct x
      end ].

Lemma within_fuel_write_db sumfile hashdb :
  within_fuel (write_db sumfile hashdb).
Proof. unfold write_db, open_w. within_fuel_tac. Qed.

Lemma within_fuel_load_db sumfile : within_fuel (load_db sumfile).
Proof.
  unfold load_db, load_line. within_fuel_tac.
Qed.

Lemma within_fuel_check (sha1 : string → string) directory log :
  within_fuel (check sha1 directory log).
Proof.
  unfold check. apply within_fuel_bind; [apply within_fuel_load_db|].
  unfold check_file. within_fuel_tac.
Qed.

Lemma within_fuel_replicate (sha1 : string → string) src dst :
  within_fuel (replicate sha1 src dst).
Proof.
  unfold replicate. apply within_fuel_bind; [apply within_fuel_print|].
  intros _. apply within_fuel_bind; [apply within_fuel_check|]. intros sd.
  apply within_fuel_bind; [apply within_fuel_print|]. intros _.
  apply within_fuel_bind; [apply within_fuel_check|]. intros dd.
  unfold replicate_clean, replicate_file, report_deletion.
  within_fuel_tac; apply within_fuel_write_db.
Qed.

Lemma within_fuel_interactive_check (sha1 : string → string) directory :
  within_fuel (interactive_check sha1 directory).
Proof.
  unfold interactive_check.
  apply within_fuel_bind; [apply within_fuel_check|]. intros data.
  unfold show_changes, commit_changes.
  within_fuel_tac; apply within_fuel_write_db.
Qed.

(** X25.  Every run of the program ends with a result, an exception or an
    exit: the bound on the loop of [make_parents] is never what ends it. *)
Lemma within_fuel_main (sha1 : string → string) argv :
  within_fuel (main sha1 argv).
Proof.
  unfold main, usage, unbound_name.
  destruct (length argv <? 2); [within_fuel_tac|].
  apply within_fuel_bind; [apply within_fuel_list_get|]. intros subcommand.
  destruct (decide (subcommand = "check")).
  { destruct (length argv <? 3); [within_fuel_tac|].
    apply within_fuel_bind; [apply within_fuel_list_get|]. intros d.
    apply within_fuel_interactive_check. }
  destruct (decide (subcommand = "replicate")).
  { destruct (length argv <? 4); [within_fuel_tac|].
    apply within_fuel_bind; [apply within_fuel_list_get|]. intros s.
    apply within_fuel_bind; [apply within_fuel_list_get|]. intros d.
    apply within_fuel_replicate. }
  within_fuel_tac.
Qed.

(** ** The file system stays a tree *)

Lemma parent_of_insert (fs : filesystem) p n q :
  (fs !! p = Some Dir → n = Dir) →
  parent_of fs q = ParentDir → parent_of (<[p := n]> fs) q = ParentDir.
Proof.
  intros Hn. unfold parent_of. destruct q as [|x q]; [done|].
  destruct (removelast (x :: q)) as [|y r] eqn:E; [done|].
  destruct (decide (p = y :: r)) as [->|Hne].
  - rewrite lookup_insert_eq.
    destruct (fs !! (y :: r)) as [[c|]|] eqn:Hl; try done.
    intros _. by rewrite Hn.
  - by rewrite lookup_insert_ne.
Qed.

Lemma tree_shaped_insert (fs : filesystem) p n :
  tree_shaped fs → (fs !! p = Some Dir → n = Dir) →
  parent_of fs p = ParentDir → tree_shaped (<[p := n]> fs).
Proof.
  intros Hfs Hn Hp q m Hq. apply parent_of_insert; [done|].
  destruct (decide (p = q)) as [<-|Hne]; [done|].
  rewrite lookup_insert_ne in Hq by done. by apply (Hfs q m).
Qed.

Lemma keeps_tree_same {A : Type} (m : M A) :
  (∀ w, w_fs (m w).2 = w_fs w) → keeps_tree m.
Proof. intros H w Hw. by rewrite H. Qed.

Lemma keeps_tree_ret {A : Type} (a : A) : keeps_tree (mret a).
Proof. intros w Hw. exact Hw. Qed.

Lemma keeps_tree_raise {A : Type} e : keeps_tree (@raise A e).
Proof. intros w Hw. exact Hw. Qed.

Lemma keeps_tree_exit {A : Type} c : keeps_tree (@exit A c).
Proof. intros w Hw. exact Hw. Qed.

Lemma keeps_tree_print line : keeps_tree (print line).
Proof. intros w Hw. exact Hw. Qed.

Lemma keeps_tree_input prompt : keeps_tree (input prompt).
Proof. intros w Hw. unfold input. by destruct (w_stdin w). Qed.

Lemma keeps_tree_dict_del d k : keeps_tree (dict_del d k).
Proof. intros w Hw. unfold dict_del. by destruct (d !! k). Qed.

Lemma keeps_tree_dict_get d k : keeps_tree (dict_get d k).
Proof. intros w Hw. unfold dict_get. by destruct (d !! k). Qed.

Lemma keeps_tree_list_get l i : keeps_tree (list_get l i).
Proof. intros w Hw. unfold list_get. by destruct (l !! i). Qed.

Lemma keeps_tree_reader {A : Type} (m : M A) : reader m → keeps_tree m.
Proof.
  intros Hm. apply keeps_tree_same. intros w. by destruct (Hm w) as [l ->].
Qed.

Lemma keeps_tree_bind {A B : Type} (m : M A) (f : A → M B) :
  keeps_tree m → (∀ a, keeps_tree (f a)) → keeps_tree (m ≫= f).
Proof.
  intros Hm Hf w Hw. rewrite bind_run. specialize (Hm w Hw).
  destruct (m w) as [[a| | |] w1]; simpl in *; try done. by apply Hf.
Qed.

Lemma keeps_tree_for_fold {A S : Type} (body : S → A → M S) l :
  (∀ s x, keeps_tree (body s x)) → ∀ s, keeps_tree (for_fold body s l).
Proof.
  intros Hbody. induction l as [|x l IH]; intros s; simpl.
  - apply keeps_tree_ret.
  - apply keeps_tree_bind; [apply Hbody | intros s'; apply IH].
Qed.

Lemma keeps_tree_for_each {A : Type} (body : A → M unit) l :
  (∀ x, keeps_tree (body x)) → keeps_tree (for_each body l).
Proof. intros H. apply keeps_tree_for_fold. intros _ x. apply H. Qed.

Lemma keeps_tree_os_mkdir p : keeps_tree (os_mkdir p).
Proof.
  intros w Hw. unfold os_mkdir.
  destruct (w_fs w !! p) eqn:Hp; [done|].
  destruct (parent_of (w_fs w) p) eqn:Hpar; try done.
  simpl. apply tree_shaped_insert; [done|congruence|done].
Qed.

Lemma keeps_tree_create_file p c ev : keeps_tree (create_file p c ev).
Proof.
  intros w Hw. unfold create_file.
  destruct (w_fs w !! p) as [[c0|]|] eqn:Hp; try done;
    destruct (parent_of (w_fs w) p) eqn:Hpar; try done;
    simpl; apply tree_shaped_insert; try done; congruence.
Qed.

Lemma keeps_tree_file_write p text : keeps_tree (file_write p text).
Proof.
  intros w Hw. unfold file_write.
  destruct (w_fs w !! p) as [[c0|]|] eqn:Hp; try done.
  destruct (Py.encodable text); [|done].
  simpl. apply tree_shaped_insert; [done|congruence|].
  by apply (Hw p (File c0)).
Qed.

Lemma keeps_tree_shutil_copy2 src dst : keeps_tree (shutil_copy2 src dst).
Proof.
  intros w Hw. unfold shutil_copy2.
  destruct (w_fs w !! src) as [[c|]|]; try done.
  destruct (decide _); [done|]. by apply keeps_tree_create_file.
Qed.

Lemma keeps_tree_make_parents_loop fuel directory :
  keeps_tree (make_parents_loop fuel directory).
Proof.
  revert directory. induction fuel as [|fuel IH]; intros d; simpl.
  - intros w Hw; exact Hw.
  - apply keeps_tree_bind; [intros w Hw; exact Hw|].
    intros []; simpl; [apply keeps_tree_ret|].
    apply keeps_tree_bind; [apply keeps_tree_os_mkdir|]. intros _. apply IH.
Qed.

Lemma keeps_tree_make_parents filepath : keeps_tree (make_parents filepath).
Proof. apply keeps_tree_make_parents_loop. Qed.

Ltac keeps_tree_tac :=
  repeat first
    [ progress intros
    | apply keeps_tree_ret | apply keeps_tree_raise | apply keeps_tree_exit
    | apply keeps_tree_print | apply keeps_tree_input
    | apply keeps_tree_dict_del | apply keeps_tree_dict_get
    | apply keeps_tree_list_get
    | apply keeps_tree_create_file | apply keeps_tree_file_write
    | apply keeps_tree_shutil_copy2 | apply keeps_tree_make_parents
    | apply keeps_tree_bind | apply keeps_tree_for_fold
    | apply keeps_tree_for_each
    | match goal with
      | |- keeps_tree (if ?b then _ else _) => destruct b
      | |- keeps_tree (match ?x with _ => _ end) => destruct x
      end ].

Lemma keeps_tree_write_db sumfile hashdb : keeps_tree (write_db sumfile hashdb).
Proof. unfold write_db, open_w. keeps_tree_tac. Qed.

Lemma keeps_tree_replicate (sha1 : string → string) src dst :
  keeps_tree (replicate sha1 src dst).
Proof.
  unfold replicate.
  apply keeps_tree_bind; [apply keeps_tree_print|]. intros _.
  apply keeps_tree_bind; [apply keeps_tree_reader, reader_check|]. intros sd.
  apply keeps_tree_bind; [apply keeps_tree_print|]. intros _.
  apply keeps_tree_bind; [apply keeps_tree_reader, reader_check|]. intros dd.
  unfold replicate_clean, replicate_file, report_deletion.
  keeps_tree_tac; apply keeps_tree_write_db.
Qed.

Lemma keeps_tree_interactive_check (sha1 : string → string) directory :
  keeps_tree (interactive_check sha1 directory).
Proof.
  unfold interactive_check.
  apply keeps_tree_bind; [apply keeps_tree_reader, reader_check|].
  intros data.
  apply keeps_tree_bind; [apply keeps_tree_reader, reader_show_changes|].
  intros _. unfold commit_changes.
  keeps_tree_tac; apply keeps_tree_write_db.
Qed.

(** The program keeps the file system a tree. *)
Lemma keeps_tree_main (sha1 : string → string) argv :
  keeps_tree (main sha1 argv).
Proof.
  unfold main, usage, unbound_name.
  destruct (length argv <? 2); [keeps_tree_tac|].
  apply keeps_tree_bind; [keeps_tree_tac|]. intros subcommand.
  destruct (decide (subcommand = "check")).
  { destruct (length argv <? 3); [keeps_tree_tac|].
    apply keeps_tree_bind; [keeps_tree_tac|]. intros d.
    apply keeps_tree_interactive_check. }
  destruct (decide (subcommand = "replicate")).
  { destruct (length argv <? 4); [keeps_tree_tac|].
    apply keeps_tree_bind; [keeps_tree_tac|]. intros s.
    apply keeps_tree_bind; [keeps_tree_tac|]. intros d.
    apply keeps_tree_replicate. }
  keeps_tree_tac.
Qed.

(** The sample file systems are trees. *)
Lemma sample_file_systems_tree_shaped :
  tree_shaped fs_empty_tree ∧ tree_shaped fs_sample_tree
  ∧ tree_shaped fs_sample_pair ∧ tree_shaped fs_sample_all
  ∧ tree_shaped fs_trailing_space ∧ tree_shaped fs_line_break.
Proof.
  repeat apply conj; apply (bool_decide_unpack _); vm_compute; reflexivity.
Qed.

(** ** Replication runs to its end *)

(** Writing a regular file where no directory is changes neither which
    paths are directories nor which paths are regular files already. *)
Lemma insert_file_dir (fs : filesystem) p c q :
  fs !! p ≠ Some Dir →
  <[p := File c]> fs !! q = Some Dir ↔ fs !! q = Some Dir.
Proof.
  intros Hp. destruct (decide (p = q)) as [<-|Hne].
  - rewrite lookup_insert_eq. naive_solver.
  - by rewrite lookup_insert_ne.
Qed.

Lemma insert_file_file (fs : filesystem) p c q :
  (∃ c', fs !! q = Some (File c')) →
  ∃ c', <[p := File c]> fs !! q = Some (File c').
Proof.
  intros [c' Hq]. destruct (decide (p = q)) as [<-|Hne].
  - rewrite lookup_insert_eq. eauto.
  - rewrite lookup_insert_ne by done. eauto.
Qed.

(** The directory of a path in a directory [dst] exists when the path can
    be created. *)
Lemma parent_of_is_Some (fs : filesystem) dst name :
  fs !! dst = Some Dir →
  parent_of fs (os_path_join dst name) = ParentDir →
  fs !! removelast (os_path_join dst name) = Some Dir.
Proof.
  intros Hdst. unfold os_path_join.
  destruct (exists_last (split_not_nil Py.SLASH name)) as (l & x & ->).
  rewrite app_assoc, removelast_snoc. intros Hpar.
  unfold parent_of in Hpar. rewrite removelast_snoc in Hpar.
  destruct ((dst ++ l) ++ [x]) eqn:E; [by destruct (dst ++ l)|].
  destruct (dst ++ l) as [|y r] eqn:E'.
  - apply app_eq_nil in E' as [-> ->]. done.
  - by destruct (fs !! (y :: r)) as [[c|]|].
Qed.

Lemma parent_of_in_dir (fs : filesystem) dst name :
  fs !! removelast (os_path_join dst name) = Some Dir →
  parent_of fs (os_path_join dst name) = ParentDir.
Proof.
  unfold os_path_join.
  destruct (exists_last (split_not_nil Py.SLASH name)) as (l & x & ->).
  rewrite app_assoc, removelast_snoc. apply parent_of_child.
Qed.

Section ReplicateCompletes.

Variables src dst : path.
Variable srcdb : gmap string string.
Hypothesis apart : src ≠ dst.

(** One round of the first loop of [replicate] returns when the file of
    the source is there and its place in the destination can be written;
    the file system is as it was, or has the copy. *)
Lemma replicate_file_completes (newdsthash : gmap string string) srcfile c w :
  is_Some (srcdb !! srcfile) →
  w_fs w !! os_path_join src srcfile = Some (File c) →
  w_fs w !! os_path_join dst srcfile ≠ Some Dir →
  w_fs w !! removelast (os_path_join dst srcfile) = Some Dir →
  ∃ newdsthash' w',
    replicate_file src dst srcdb newdsthash srcfile w = (Ok newdsthash', w')
    ∧ (w_fs w' = w_fs w
       ∨ w_fs w' = <[os_path_join dst srcfile := File c]> (w_fs w)).
Proof.
  intros [srchash Hk] Hs Hd Hup.
  assert (os_path_join src srcfile ≠ os_path_join dst srcfile) as Hne.
  { unfold os_path_join. intros Heq. by apply app_inv_tail in Heq. }
  assert (∀ lines,
            shutil_copy2 (os_path_join src srcfile) (os_path_join dst srcfile)
              (printed w lines)
            = (Ok tt,
               World (<[os_path_join dst srcfile := File c]> (w_fs w))
                     (w_stdin w)
                     (w_trace w ++ (EvPrint <$> lines)
                      ++ [EvCopy (os_path_join src srcfile)
                                 (os_path_join dst srcfile)]))) as Hcopy.
  { intros lines. unfold shutil_copy2. cbn [w_fs printed].
    rewrite Hs.
    assert (match w_fs w !! os_path_join dst srcfile with
            | Some Dir =>
                os_path_join dst srcfile
                ++ [(os_path_split (os_path_join src srcfile)).2]
            | _ => os_path_join dst srcfile
            end = os_path_join dst srcfile) as ->.
    { by destruct (w_fs w !! os_path_join dst srcfile) as [[|]|]. }
    rewrite decide_False by done.
    rewrite create_file_run; cbn [w_fs printed w_stdin w_trace].
    - by rewrite <-app_assoc.
    - done.
    - by apply parent_of_in_dir. }
  unfold replicate_file. rewrite bind_run. unfold dict_get. rewrite Hk.
  change (@mret M _ string srchash w) with (@Ok string srchash, w).
  cbv iota beta zeta.
  destruct (truthy (newdsthash !! srcfile));
    [destruct (decide (newdsthash !! srcfile ≠ Some srchash))|].
  - rewrite bind_run, print_run. cbv iota beta.
    rewrite bind_run, print_run, printed_printed. cbv iota beta.
    rewrite bind_run, Hcopy. eauto.
  - eauto.
  - rewrite bind_run, print_run. cbv iota beta.
    rewrite bind_run, print_run, printed_printed. cbv iota beta.
    rewrite bind_run, make_parents_exists by (cbn [w_fs printed]; eauto).
    cbv iota beta. rewrite bind_run, Hcopy. eauto.
Qed.

(** The first loop of [replicate] returns, and makes and removes no
    directory. *)
Lemma replicate_files_complete l : ∀ (newdsthash : gmap string string) w,
  (∀ k, k ∈ l →
        is_Some (srcdb !! k)
        ∧ (∃ c, w_fs w !! os_path_join src k = Some (File c))
        ∧ w_fs w !! os_path_join dst k ≠ Some Dir
        ∧ w_fs w !! removelast (os_path_join dst k) = Some Dir) →
  ∃ newdsthash' w',
    for_fold (replicate_file src dst srcdb) newdsthash l w
    = (Ok newdsthash', w')
    ∧ ∀ q, w_fs w' !! q = Some Dir ↔ w_fs w !! q = Some Dir.
Proof.
  induction l as [|k l IH]; intros newdsthash w Hl.
  - by exists newdsthash, w.
  - destruct (Hl k) as (Hk & [c Hs] & Hd & Hup); [left|].
    destruct (replicate_file_completes newdsthash k c w Hk Hs Hd Hup)
      as (new1 & w1 & Hrun & Hfs).
    assert (∀ q, w_fs w1 !! q = Some Dir ↔ w_fs w !! q = Some Dir) as Hdirs.
    { intros q. destruct Hfs as [->| ->]; [done|]. by apply insert_file_dir. }
    assert (∀ q, (∃ c', w_fs w !! q = Some (File c')) →
                 ∃ c', w_fs w1 !! q = Some (File c')) as Hfiles.
    { intros q Hq. destruct Hfs as [->| ->]; [done|].
      by apply insert_file_file. }
    destruct (IH new1 w1) as (new' & w' & Hrest & Hdirs').
    { intros k' Hk'. destruct (Hl k') as (? & ? & ? & ?); [by right|].
      split; [done|]. split; [by apply Hfiles|].
      rewrite !Hdirs. done. }
    exists new', w'. split.
    + simpl. rewrite bind_run, Hrun. exact Hrest.
    + intros q. by rewrite Hdirs', Hdirs.
Qed.

(** The part of [replicate] after the gates returns. *)
Lemma replicate_clean_completes (dstdb : gmap string string) w :
  w_fs w !! dst = Some Dir →
  w_fs w !! os_path_join dst ".sha1sums" ≠ Some Dir →
  encodable_db srcdb → encodable_db dstdb →
  (∀ k, is_Some (srcdb !! k) →
        (∃ c, w_fs w !! os_path_join src k = Some (File c))
        ∧ w_fs w !! os_path_join dst k ≠ Some Dir
        ∧ w_fs w !! removelast (os_path_join dst k) = Some Dir) →
  (replicate_clean src dst srcdb dstdb w).1 = Ok tt.
Proof.
  intros Hdst Hsum Hencs Hencd Hkeys. unfold replicate_clean.
  rewrite bind_run.
  destruct (replicate_files_complete (map_to_list srcdb).*1 dstdb w)
    as (new' & w' & Hfold & Hdirs).
  { intros k ([k' h] & -> & Hkh%elem_of_map_to_list)%list_elem_of_fmap.
    split; [by exists h|]. apply Hkeys. by exists h. }
  rewrite Hfold, bind_run.
  destruct (report_deletions_run srcdb (map_to_list new').*1 w')
    as (lines & -> & _).
  rewrite write_db_run; [done| | |].
  - cbn [w_fs printed]. by rewrite Hdirs.
  - cbn [w_fs printed]. rewrite sidecar_path. apply parent_of_child.
    by rewrite Hdirs.
  - apply encodable_entries.
    by apply (for_fold_replicate_file_encodable _ _ _ _ _ _ _ _
                Hencs Hencd Hfold).
Qed.

End ReplicateCompletes.

(** With both trees checked and clean, [replicate] runs to its end when
    the destination is a directory other than the source, the names and
    digests of the two databases can be encoded, and every file of the
    source that the destination does not track has its directory in the
    destination, and no directory in its place. *)
Lemma replicate_completes (sha1 : string → string) src dst w srcdata dstdata :
  tree_shaped (w_fs w) →
  w_fs w !! dst = Some Dir → src ≠ dst →
  eval (w_fs w) (check sha1 src true) = Ok srcdata →
  eval (w_fs w) (check sha1 dst true) = Ok dstdata →
  is_dirty srcdata = false → is_dirty dstdata = false →
  encodable_db (db srcdata) → encodable_db (db dstdata) →
  (∀ k, k ∈ dom (db srcdata) → k ∉ dom (db dstdata) →
        w_fs w !! os_path_join dst k ≠ Some Dir
        ∧ w_fs w !! removelast (os_path_join dst k) = Some Dir) →
  (replicate sha1 src dst w).1 = Ok tt.
Proof.
  intros Htree Hdir Hne Hsrc Hdst Hcs Hcd Hencs Hencd Hnew.
  destruct (replicate_gates sha1 src dst w _ _ Hsrc Hdst) as [lines ->].
  rewrite Hcs, Hcd.
  assert (∀ directory data k,
            eval (w_fs w) (check sha1 directory true) = Ok data →
            is_dirty data = false → k ∈ dom (db data) →
            ∃ c, w_fs w !! os_path_join directory k = Some (File c))
    as Htracked.
  { intros directory data k Hcheck Hclean Hk.
    apply is_dirty_false_inv in Hclean as (_ & Hnodel & _).
    pose proof (check_lists _ _ _ _ _ Hcheck) as (Hread & _ & _ & Hdel & _).
    assert (k ∈ filelist_of (w_fs w) directory) as Hscan.
    { destruct (decide (k ∈ filelist_of (w_fs w) directory)) as [|Hout];
        [done|].
      assert (k ∈ deletions data) as Hin by (apply Hdel; by split).
      rewrite Hnodel in Hin. inversion Hin. }
    destruct (Hread k Hscan) as [h Hh]. unfold digest_of in Hh.
    destruct (w_fs w !! os_path_join directory k) as [[c|]|]; try done.
    by exists c. }
  apply replicate_clean_completes; cbn [w_fs printed]; try done.
  - apply eval_check_ok in Hdst as (hashdb & Hload & _).
    intros Hsum. revert Hload. unfold load_db, eval.
    rewrite bind_run. unfold os_path_exists at 1. cbn [w_fs].
    rewrite bool_decide_eq_true_2 by (rewrite Hsum; eauto).
    cbv iota beta. rewrite bind_run, print_run. cbv iota beta.
    rewrite bind_run. unfold read_file. cbn [w_fs printed].
    by rewrite Hsum.
  - intros k Hk%elem_of_dom. split; [by apply (Htracked src srcdata)|].
    destruct (decide (k ∈ dom (db dstdata))) as [Hin|Hout].
    + destruct (Htracked dst dstdata k Hdst Hcd Hin) as [c Hc].
      split; [by rewrite Hc|].
      apply parent_of_is_Some; [done|]. by apply (Htree _ (File c)).
    + by apply Hnew.
Qed.

(** The sample pair of trees is within these conditions: [a.txt] is new
    and goes into [dst] itself. *)
Lemma replicate_completes_sample :
  (replicate sample_digest ["src"] ["dst"] (World fs_sample_pair [] [])).1
  = Ok tt.
Proof.
  eassert (eval fs_sample_pair (check sample_digest ["src"] true) = Ok _)
    as H1 by (vm_compute; reflexivity).
  eassert (eval fs_sample_pair (check sample_digest ["dst"] true) = Ok _)
    as H2 by (vm_compute; reflexivity).
  refine (replicate_completes sample_digest ["src"] ["dst"]
            (World fs_sample_pair [] []) _ _ _ _ _ H1 H2 _ _ _ _ _).
  - apply (bool_decide_unpack _); vm_compute; reflexivity.
  - vm_compute; reflexivity.
  - discriminate.
  - vm_compute; reflexivity.
  - vm_compute; reflexivity.
  - apply (bool_decide_unpack _); vm_compute; reflexivity.
  - apply (bool_decide_unpack _); vm_compute; reflexivity.
  - apply (set_Forall_elements
             (λ k, k ∉ dom _ →
                   fs_sample_pair !! os_path_join ["dst"] k ≠ Some Dir
                   ∧ fs_sample_pair !! removelast (os_path_join ["dst"] k)
                     = Some Dir)).
    apply (bool_decide_unpack _); vm_compute; reflexivity.
Qed.

(** * Further properties *)

(** ** [load_db]: what a checksum file loads as *)

Lemma split1_None sep s :
  Py.split1 sep s = None ↔ Py.lacks sep s = true.
Proof.
  induction s as [|c s IH]; simpl; [done|].
  destruct (decide (c = sep)) as [->|Hne].
  - rewrite bool_decide_eq_true_2 by done. done.
  - rewrite bool_decide_eq_false_2 by done. simpl. rewrite <-IH.
    by destruct (Py.split1 sep s) as [[a b]|].
Qed.

(** The loop of [load_db] ends with [ValueError] at the first line without
    a tab, and with a database when there is none. *)
Lemma eval_load_lines (fs : filesystem) lines (hashdb : gmap string string) :
  (eval fs (for_fold load_line hashdb lines) = Raise ValueError
   ∧ ∃ line, line ∈ lines ∧ Py.lacks Py.TAB (Py.rstrip line) = true)
  ∨ ((∃ hashdb', eval fs (for_fold load_line hashdb lines) = Ok hashdb')
     ∧ ∀ line, line ∈ lines → Py.lacks Py.TAB (Py.rstrip line) = false).
Proof.
  revert hashdb. induction lines as [|l lines IH]; intros hashdb.
  - right. split; [by exists hashdb|]. by intros line []%elem_of_nil.
  - unfold eval in *. cbn [for_fold]. rewrite bind_run.
    destruct (Py.split1 Py.TAB (Py.rstrip l)) as [[h k]|] eqn:Hl.
    + assert (load_line hashdb l (World fs [] [])
              = (Ok (<[k := h]> hashdb), World fs [] [])) as ->
        by (unfold load_line; by rewrite Hl).
      assert (Py.lacks Py.TAB (Py.rstrip l) = false) as Htab.
      { apply not_true_is_false. intros H%split1_None. congruence. }
      destruct (IH (<[k := h]> hashdb)) as [[Hr (line & Hin & Hno)]|[Hr Hall]].
      * left. split; [exact Hr|]. exists line. split; [by right|done].
      * right. split; [exact Hr|].
        intros line [->|Hin]%elem_of_cons; [done|by apply Hall].
    + assert (load_line hashdb l (World fs [] [])
              = (Raise ValueError, World fs [] [])) as ->
        by (unfold load_line; by rewrite Hl).
      left. split; [done|]. exists l. split; [left|by apply split1_None].
Qed.

(** X1.  A checksum file loads exactly when each of its lines, without the
    whitespace at its end, has a tab: one line without (an empty line is
    one) and [load_db] raises [ValueError]; no line is skipped. *)
Theorem load_db_line_without_tab (fs : filesystem) sumfile text :
  fs !! sumfile = Some (File text) →
  (eval fs (load_db sumfile) = Raise ValueError
   ↔ ∃ line, line ∈ Py.readlines text
             ∧ Py.lacks Py.TAB (Py.rstrip line) = true)
  ∧ ((∃ hashdb, eval fs (load_db sumfile) = Ok hashdb)
     ↔ ∀ line, line ∈ Py.readlines text →
               Py.lacks Py.TAB (Py.rstrip line) = false).
Proof.
  intros Hfile. rewrite eval_load_db, Hfile.
  destruct (eval_load_lines fs (Py.readlines text) ∅)
    as [[Hr (line & Hin & Hno)]|[[hashdb Hr] Hall]]; rewrite Hr.
  - split; split.
    + intros _. by exists line.
    + done.
    + by intros [? ?].
    + intros Hall. by rewrite (Hall line Hin) in Hno.
  - split; split.
    + done.
    + intros (line & Hin & Hno). by rewrite (Hall line Hin) in Hno.
    + done.
    + intros _. by exists hashdb.
Qed.

Lemma load_db_line_without_tab_witness :
  eval {[ ["t"; ".sha1sums"] := File (db_line sha1_empty "a.txt" +:+ Py.nl) ]}
       (load_db ["t"; ".sha1sums"])
  = Raise ValueError.
Proof.
  destruct (load_db_line_without_tab
              {[ ["t"; ".sha1sums"]
                 := File (db_line sha1_empty "a.txt" +:+ Py.nl) ]}
              ["t"; ".sha1sums"] (db_line sha1_empty "a.txt" +:+ Py.nl))
    as [[_ H] _]; [vm_compute; reflexivity|].
  apply H. exists Py.nl. split; [|vm_compute; reflexivity].
  apply (bool_decide_unpack _). vm_compute; reflexivity.
Defined.








(** ** [check]: what the scan reports *)

Lemma check_sample_tree log :
  eval fs_sample_tree (check sample_digest ["t"] log) = Ok data_sample_tree.
Proof. destruct log; vm_compute; reflexivity. Qed.


Lemma check_sample_src log :
  eval fs_sample_pair (check sample_digest ["src"] log) = Ok data_sample_src.
Proof. destruct log; vm_compute; reflexivity. Qed.

Lemma check_sample_dst log :
  eval fs_sample_pair (check sample_digest ["dst"] log) = Ok data_sample_dst.
Proof. destruct log; vm_compute; reflexivity. Qed.

Lemma slash_free_samples :
  slash_free fs_sample_tree ∧ slash_free fs_sample_pair.
Proof. split; apply (bool_decide_unpack _); vm_compute; reflexivity. Qed.

Lemma split_lacks name :
  Py.lacks Py.SLASH name = true → Py.split Py.SLASH name = [name].
Proof.
  induction name as [|c s IH]; [done|].
  intros [Hc H]%andb_true_iff.
  apply negb_true_iff, bool_decide_eq_false in Hc.
  cbn [Py.split]. rewrite decide_False by done. by rewrite IH.
Qed.

Lemma split_app_slash name rest :
  Py.lacks Py.SLASH name = true →
  Py.split Py.SLASH (name +:+ String Py.SLASH rest)
  = name :: Py.split Py.SLASH rest.
Proof.
  induction name as [|c s IH].
  - intros _. cbn. by rewrite decide_True.
  - intros [Hc H]%andb_true_iff.
    apply negb_true_iff, bool_decide_eq_false in Hc.
    change (String c s +:+ String Py.SLASH rest)
      with (String c (s +:+ String Py.SLASH rest)).
    cbn [Py.split]. rewrite decide_False by done. by rewrite IH.
Qed.

(** Splitting what was joined gives the components back. *)
Lemma split_join (l : path) :
  l ≠ [] → Forall (λ name, Py.lacks Py.SLASH name = true) l →
  Py.split Py.SLASH (Py.join "/" l) = l.
Proof.
  intros Hne Hl. induction Hl as [|x l Hx Hl IH]; [done|].
  destruct l as [|y l]; [by apply split_lacks|].
  change (Py.join "/" (x :: y :: l))
    with (x +:+ String Py.SLASH (Py.join "/" (y :: l))).
  rewrite split_app_slash by done. by rewrite IH.
Qed.

(** A scanned file can be read where [check] looks for it. *)
Lemma scanned_readable (sha1 : string → string) (fs : filesystem)
    directory p :
  slash_free fs → p ∈ filelist_of fs directory →
  ∃ rest name content,
    fs !! (directory ++ rest ++ [name]) = Some (File content)
    ∧ scanned_name name = true
    ∧ p = Py.join "/" (rest ++ [name])
    ∧ os_path_join directory p = directory ++ rest ++ [name]
    ∧ digest_of sha1 fs directory p = Some (sha1 content).
Proof.
  intros Hfs (_ & rest & name & content & _ & Hfile & Hname & Href)
    %elem_of_filelist_of.
  pose proof (Hfs _ _ Hfile) as Hall.
  rewrite !Forall_app in Hall. destruct Hall as (_ & Hrest & Hn).
  rewrite Forall_singleton in Hn.
  unfold os_path_join in Href.
  rewrite (split_lacks name Hn), <-app_assoc in Href.
  rewrite relpath_below in Href by by destruct rest.
  subst p. exists rest, name, content. split; [done|]. split; [done|].
  assert (os_path_join directory (Py.join "/" (rest ++ [name]))
          = directory ++ rest ++ [name]) as Hpath.
  { unfold os_path_join. f_equal. apply split_join; [by destruct rest|].
    apply Forall_app. split; [done|by apply Forall_singleton]. }
  split; [done|]. split; [done|].
  unfold digest_of. by rewrite Hpath, Hfile.
Qed.

(** With names free of slashes every scanned file is read, so that
    [check] returns the classification of the scan whenever the checksum
    file loads. *)
Lemma eval_check_slash_free (sha1 : string → string) (fs : filesystem)
    directory log :
  slash_free fs →
  eval fs (check sha1 directory log) =
  result_bind (eval fs (load_db (os_path_join directory ".sha1sums")))
    (λ hashdb,
       Ok (CheckData hashdb
             (scan_deletions hashdb (filelist_of fs directory))
             (classify_scan sha1 fs directory hashdb
                (elements (filelist_of fs directory)) ([], [])).1
             (classify_scan sha1 fs directory hashdb
                (elements (filelist_of fs directory)) ([], [])).2)).
Proof.
  intros Hfs. rewrite eval_check.
  destruct (eval fs (load_db _)) as [hashdb| | |]; simpl; try done.
  rewrite eval_check_loop; [done|].
  intros p Hp%elem_of_elements.
  destruct (scanned_readable sha1 fs directory p Hfs Hp)
    as (? & ? & ? & _ & _ & _ & _ & ->). eauto.
Qed.

(** X4.  With names free of slashes, [check] fails only when the checksum
    file cannot be loaded, and then with the exception of [load_db]:
    every scanned file is read where it was found. *)
Theorem check_fails_as_load_db (sha1 : string → string) (fs : filesystem)
    directory log :
  slash_free fs →
  (∀ e, eval fs (check sha1 directory log) = Raise e
        ↔ eval fs (load_db (os_path_join directory ".sha1sums")) = Raise e)
  ∧ ((∃ data, eval fs (check sha1 directory log) = Ok data)
     ↔ ∃ hashdb,
         eval fs (load_db (os_path_join directory ".sha1sums")) = Ok hashdb).
Proof.
  intros Hfs. rewrite eval_check_slash_free by done.
  destruct (eval fs (load_db _)) as [hashdb| | |]; simpl.
  - split; [intros e; split; intros H; discriminate H|]. split; eauto.
  - split; [intros e'; split; by intros [= ->]|].
    split; intros [? ?]; done.
  - split; [intros e'; split; intros H; discriminate H|].
    split; intros [? ?]; done.
  - split; [intros e'; split; intros H; discriminate H|].
    split; intros [? ?]; done.
Qed.

Lemma check_fails_as_load_db_witness :
  ∃ data, eval fs_sample_tree (check sample_digest ["t"] true) = Ok data.
Proof.
  destruct (proj1 (eval_check_ok sample_digest fs_sample_tree ["t"] true _)
              (check_sample_tree true)) as (hashdb & Hload & _).
  exact (proj2 (proj2 (check_fails_as_load_db sample_digest fs_sample_tree
                         ["t"] true (proj1 slash_free_samples)))
           (ex_intro _ hashdb Hload)).
Defined.

(** X5.  What the three lists of [check] hold.  An addition is a
    scanned file that the database does not know, with the digest of its
    content; a change is a scanned file whose digest is not the one that
    the database has, with the digest of its content now; a deletion is a
    name of the database that the scan did not find. *)
Theorem check_reports (sha1 : string → string) (fs : filesystem)
    directory log data :
  eval fs (check sha1 directory log) = Ok data →
  (∀ p h, (p, h) ∈ additions data
          ↔ p ∈ filelist_of fs directory
            ∧ (∃ content,
                 fs !! os_path_join directory p = Some (File content)
                 ∧ h = sha1 content)
            ∧ db data !! p = None)
  ∧ (∀ p h, (p, h) ∈ changes data
            ↔ p ∈ filelist_of fs directory
              ∧ (∃ content,
                   fs !! os_path_join directory p = Some (File content)
                   ∧ h = sha1 content)
              ∧ ∃ known, db data !! p = Some known ∧ known ≠ h)
  ∧ (∀ p, p ∈ deletions data
          ↔ p ∈ dom (db data) ∧ p ∉ filelist_of fs directory).
Proof.
  intros (_ & Hadd & Hchg & Hdel & _)%check_lists.
  assert (∀ p h, digest_of sha1 fs directory p = Some h
                 ↔ ∃ content,
                     fs !! os_path_join directory p = Some (File content)
                     ∧ h = sha1 content) as Hdigest.
  { intros p h. unfold digest_of.
    destruct (fs !! os_path_join directory p) as [[content|]|];
      naive_solver. }
  split; [|split; [|done]].
  - intros p h. by rewrite Hadd, Hdigest.
  - intros p h. by rewrite Hchg, Hdigest.
Qed.

Lemma check_reports_witness :
  (∀ p h, (p, h) ∈ additions data_sample_tree
          ↔ p ∈ filelist_of fs_sample_tree ["t"]
            ∧ (∃ content,
                 fs_sample_tree !! os_path_join ["t"] p = Some (File content)
                 ∧ h = sample_digest content)
            ∧ db data_sample_tree !! p = None)
  ∧ (∀ p h, (p, h) ∈ changes data_sample_tree
            ↔ p ∈ filelist_of fs_sample_tree ["t"]
              ∧ (∃ content,
                   fs_sample_tree !! os_path_join ["t"] p
                   = Some (File content)
                   ∧ h = sample_digest content)
              ∧ ∃ known, db data_sample_tree !! p = Some known ∧ known ≠ h)
  ∧ (∀ p, p ∈ deletions data_sample_tree
          ↔ p ∈ dom (db data_sample_tree)
            ∧ p ∉ filelist_of fs_sample_tree ["t"]).
Proof.
  exact (check_reports sample_digest fs_sample_tree ["t"] true
           data_sample_tree (check_sample_tree true)).
Defined.

(** The database of a tree found clean is its scan. *)
Lemma clean_is_scan (sha1 : string → string) (fs : filesystem)
    directory log data :
  eval fs (check sha1 directory log) = Ok data →
  is_dirty data = false →
  (∀ p, p ∈ dom (db data) ↔ p ∈ filelist_of fs directory)
  ∧ (∀ p, p ∈ filelist_of fs directory →
          db data !! p = digest_of sha1 fs directory p).
Proof.
  intros (Hread & Hadd & Hchg & Hdel & _)%check_lists.
  intros (Ha & Hd & Hc)%is_dirty_false_inv.
  assert (∀ p, p ∈ filelist_of fs directory →
               db data !! p = digest_of sha1 fs directory p) as Hsame.
  { intros p Hp. destruct (Hread p Hp) as [h Hh]. rewrite Hh.
    destruct (db data !! p) as [known|] eqn:Hk.
    - destruct (decide (known = h)) as [->|Hne]; [done|].
      assert ((p, h) ∈ changes data) as Hin by (apply Hchg; naive_solver).
      rewrite Hc in Hin. inversion Hin.
    - assert ((p, h) ∈ additions data) as Hin by (apply Hadd; naive_solver).
      rewrite Ha in Hin. inversion Hin. }
  split; [|done]. intros p. split.
  - intros Hp. destruct (decide (p ∈ filelist_of fs directory)); [done|].
    assert (p ∈ deletions data) as Hin by by apply Hdel.
    rewrite Hd in Hin. inversion Hin.
  - intros Hp. apply elem_of_dom. rewrite (Hsame p Hp). by apply Hread.
Qed.

(** X6.  A tree is found clean exactly when its database is its scan: the
    names of the database are the scanned files, and the digest that the
    database has for each is the digest of its content. *)
Theorem check_clean_iff (sha1 : string → string) (fs : filesystem)
    directory log data :
  eval fs (check sha1 directory log) = Ok data →
  is_dirty data = false
  ↔ (∀ p, p ∈ dom (db data) ↔ p ∈ filelist_of fs directory)
    ∧ (∀ p, p ∈ filelist_of fs directory →
            db data !! p = digest_of sha1 fs directory p).
Proof.
  intros Hcheck. split; [by apply (clean_is_scan sha1 fs directory log)|].
  pose proof (check_lists _ _ _ _ _ Hcheck) as (_ & Hadd & Hchg & Hdel & _).
  intros [Hdom Hsame]. apply is_dirty_false.
  - apply elem_of_nil_inv. intros [p h] (Hp & Hh & Hnone)%Hadd.
    rewrite (Hsame p Hp) in Hnone. congruence.
  - apply elem_of_nil_inv. intros p [Hp Hout]%Hdel. by apply Hout, Hdom.
  - apply elem_of_nil_inv.
    intros [p h] (Hp & Hh & known & Hk & Hne)%Hchg.
    rewrite (Hsame p Hp) in Hk. congruence.
Qed.

Lemma check_clean_iff_witness :
  (∀ p, p ∈ dom (db data_sample_src)
        ↔ p ∈ filelist_of fs_sample_pair ["src"])
  ∧ (∀ p, p ∈ filelist_of fs_sample_pair ["src"] →
          db data_sample_src !! p
          = digest_of sample_digest fs_sample_pair ["src"] p).
Proof.
  apply (check_clean_iff sample_digest fs_sample_pair ["src"] true
           data_sample_src (check_sample_src true)).
  reflexivity.
Defined.

(** X7.  The first check of a tree, when there is no checksum file yet:
    the database is empty, every scanned file is an addition with the
    digest of its content, and there is no change and no deletion. *)
Theorem check_without_checksum_file (sha1 : string → string)
    (fs : filesystem) directory log :
  slash_free fs →
  fs !! os_path_join directory ".sha1sums" = None →
  ∃ data,
    eval fs (check sha1 directory log) = Ok data
    ∧ db data = ∅ ∧ changes data = [] ∧ deletions data = []
    ∧ ∀ p h, (p, h) ∈ additions data
             ↔ p ∈ filelist_of fs directory
               ∧ digest_of sha1 fs directory p = Some h.
Proof.
  intros Hfs Hnone.
  assert (eval fs (load_db (os_path_join directory ".sha1sums")) = Ok ∅)
    as Hload by by rewrite eval_load_db, Hnone.
  pose proof (eval_check_slash_free sha1 fs directory log Hfs) as Hcheck.
  rewrite Hload in Hcheck. cbn [result_bind] in Hcheck.
  remember (CheckData ∅ _ _ _) as data eqn:Hdata in Hcheck.
  exists data. split; [done|].
  pose proof (check_lists _ _ _ _ _ Hcheck) as (_ & Hadd & Hchg & Hdel & _).
  assert (db data = ∅) as Hdb by by rewrite Hdata.
  split; [done|]. rewrite Hdb in *. split; [|split].
  - apply elem_of_nil_inv. intros [p h] (_ & _ & known & Hk & _)%Hchg.
    by rewrite lookup_empty in Hk.
  - apply elem_of_nil_inv. intros p [Hp _]%Hdel. by rewrite dom_empty_L in Hp.
  - intros p h. rewrite Hadd, lookup_empty. naive_solver.
Qed.

Lemma check_without_checksum_file_witness :
  ∃ data,
    eval fs_trailing_space (check sample_digest ["t"] true) = Ok data
    ∧ db data = ∅ ∧ changes data = [] ∧ deletions data = []
    ∧ ∀ p h, (p, h) ∈ additions data
             ↔ p ∈ filelist_of fs_trailing_space ["t"]
               ∧ digest_of sample_digest fs_trailing_space ["t"] p = Some h.
Proof.
  apply check_without_checksum_file.
  - apply (bool_decide_unpack _). vm_compute; reflexivity.
  - vm_compute; reflexivity.
Defined.

(** X8.  The check of a directory that is not there (or of a path that is
    a regular file) does not fail: with no checksum file to load it
    returns an empty database and three empty lists, the result of a clean
    tree. *)
Theorem check_missing_directory (sha1 : string → string) (fs : filesystem)
    directory log :
  fs !! directory ≠ Some Dir →
  fs !! os_path_join directory ".sha1sums" = None →
  eval fs (check sha1 directory log) = Ok (CheckData ∅ [] [] [])
  ∧ is_dirty (CheckData ∅ [] [] []) = false.
Proof.
  intros Hdir Hnone. split; [|done].
  assert (filelist_of fs directory = ∅) as Hscan.
  { apply set_eq. intros p. rewrite elem_of_filelist_of.
    split; [by intros [? _]|by intros ?%not_elem_of_empty]. }
  rewrite eval_check, eval_load_db, Hnone. cbn [result_bind].
  rewrite Hscan, elements_empty. cbn [for_fold]. rewrite eval_ret.
  cbn [result_bind fst snd]. unfold scan_deletions.
  by rewrite map_to_list_empty.
Qed.

Lemma check_missing_directory_witness :
  eval fs_empty_tree (check sample_digest ["nowhere"] true)
  = Ok (CheckData ∅ [] [] [])
  ∧ is_dirty (CheckData ∅ [] [] []) = false.
Proof.
  apply check_missing_directory.
  - vm_compute. discriminate.
  - vm_compute; reflexivity.
Defined.

(** Reading the lines of a checksum file touches nothing: the result is
    that of any other world. *)
Lemma load_lines_pure lines (hashdb : gmap string string) w w' :
  (for_fold load_line hashdb lines w).1
  = (for_fold load_line hashdb lines w').1.
Proof.
  revert hashdb. induction lines as [|l lines IH]; intros hashdb; [done|].
  cbn [for_fold]. rewrite !bind_run. unfold load_line at 1 3.
  destruct (Py.split1 Py.TAB (Py.rstrip l)) as [[h k]|]; [|done].
  apply IH.
Qed.

(** The result of [check] is that of any file system that holds the same
    at every path that starts with the directory. *)
Lemma eval_check_subtree (sha1 : string → string)
    (fs fs' : filesystem) directory log :
  (∀ q, directory `prefix_of` q → fs !! q = fs' !! q) →
  eval fs (check sha1 directory log) = eval fs' (check sha1 directory log).
Proof.
  intros Hsame.
  assert (∀ rest, fs !! (directory ++ rest) = fs' !! (directory ++ rest))
    as Hbelow by (intros rest; apply Hsame; by exists rest).
  assert (filelist_of fs directory = filelist_of fs' directory) as Hscan.
  { assert (fs !! directory = fs' !! directory) as Hdir by by apply Hsame.
    apply set_eq. intros p. rewrite !elem_of_filelist_of, Hdir.
    split; intros (Hd & rest & name & c & Hroot & Hfile & Hname & Hp);
      (split; [done|]); exists rest, name, c.
    - by rewrite <-!Hbelow.
    - by rewrite !Hbelow. }
  assert (∀ p, digest_of sha1 fs directory p = digest_of sha1 fs' directory p)
    as Hdigest.
  { intros p. unfold digest_of, os_path_join. by rewrite Hbelow. }
  rewrite !eval_check, !eval_load_db, <-Hscan.
  unfold os_path_join. rewrite <-Hbelow.
  assert (∀ (hashdb : gmap string string) l acc,
            eval fs (for_fold (check_file sha1 directory hashdb) acc l)
            = eval fs' (for_fold (check_file sha1 directory hashdb) acc l))
    as Hloop.
  { intros hashdb l. induction l as [|p l IH]; intros acc; [done|].
    cbn [for_fold]. rewrite !eval_bind, !eval_check_file by reader_tac.
    rewrite <-Hdigest. unfold os_path_join. rewrite <-Hbelow.
    destruct (digest_of sha1 fs directory p); [apply IH|].
    by destruct (fs !! (directory ++ Py.split Py.SLASH p)) as [[]|]. }
  destruct (fs !! (directory ++ Py.split Py.SLASH ".sha1sums"))
    as [[text|]|]; [|done|].
  - unfold eval at 1 3.
    rewrite (load_lines_pure _ _ (World fs' [] []) (World fs [] [])).
    destruct (for_fold load_line ∅ (Py.readlines text) (World fs [] [])).1;
      [|done..].
    cbn [result_bind]. by rewrite Hloop.
  - cbn [result_bind]. by rewrite Hloop.
Qed.

(** X9.  [check] looks at the directory and at what is below it, and at
    nothing else: run in two worlds whose file systems hold the same at
    every path that starts with the directory, it returns the same, and
    leaves each file system as it was. *)
Theorem check_depends_on_subtree (sha1 : string → string) directory log
    w w' :
  (∀ q, directory `prefix_of` q → w_fs w !! q = w_fs w' !! q) →
  (check sha1 directory log w).1 = (check sha1 directory log w').1
  ∧ w_fs (check sha1 directory log w).2 = w_fs w
  ∧ w_fs (check sha1 directory log w').2 = w_fs w'.
Proof.
  intros Hsame.
  destruct (reader_check sha1 directory log w) as [lines ->].
  destruct (reader_check sha1 directory log w') as [lines' ->].
  split; [|done]. by apply eval_check_subtree.
Qed.

Lemma check_depends_on_subtree_witness :
  (check sample_digest ["t"] true (World fs_sample_all [] [])).1
  = (check sample_digest ["t"] true (World fs_sample_tree [] [])).1.
Proof.
  assert (∀ q, ["t"] `prefix_of` q →
               fs_sample_all !! q = fs_sample_tree !! q) as Hsame.
  { intros q [rest ->]. unfold fs_sample_all.
    rewrite lookup_union_l; [done|].
    apply (not_elem_of_list_to_map_1 (M := gmap (list string))).
    cbn. set_solver. }
  exact (proj1 (check_depends_on_subtree sample_digest ["t"] true
                  (World fs_sample_all [] []) (World fs_sample_tree [] [])
                  Hsame)).
Defined.

(** ** [write_db]: what is written *)



(** ** [make_parents]: one directory at most *)

(** The loop stops at a directory that is there, and at one that cannot
    be made. *)
Lemma make_parents_loop_stops fuel directory w :
  is_Some (w_fs w !! directory) ∨ parent_of (w_fs w) directory ≠ ParentDir →
  w_fs (make_parents_loop fuel directory w).2 = w_fs w.
Proof.
  intros H. destruct fuel as [|fuel]; [done|].
  cbn [make_parents_loop]. rewrite bind_run. unfold os_path_exists at 1.
  destruct (w_fs w !! directory) as [n|] eqn:Hd.
  { by rewrite bool_decide_eq_true_2 by eauto. }
  rewrite bool_decide_eq_false_2 by apply is_Some_None.
  cbn [negb]. rewrite bind_run. unfold os_mkdir. rewrite Hd.
  destruct H as [[? ?]|H]; [done|].
  by destruct (parent_of (w_fs w) directory).
Qed.

(** The directory above one that can be made is there, or is the empty
    path. *)
Lemma parent_of_above (fs : filesystem) (directory : path) :
  parent_of fs directory = ParentDir →
  directory ≠ []
  ∧ (removelast directory = []
     ∨ fs !! removelast directory = Some Dir).
Proof.
  unfold parent_of. destruct directory as [|x d]; [done|].
  intros H. split; [done|].
  destruct (removelast (x :: d)) as [|y r]; [by left|].
  right. by destruct (fs !! (y :: r)) as [[]|].
Qed.

Lemma removelast_ne (directory : path) :
  directory ≠ [] → removelast directory ≠ directory.
Proof.
  intros Hne Heq. apply (f_equal length) in Heq.
  rewrite length_removelast in Heq. destruct directory; simpl in *; [done|lia].
Qed.

(** What is left of the file system by [make_parents], whatever it
    returns: the file system it found, or that and the directory of the
    file, which was not there. *)
Lemma make_parents_fs filepath w :
  w_fs (make_parents filepath w).2 = w_fs w
  ∨ (w_fs w !! removelast filepath = None
     ∧ parent_of (w_fs w) (removelast filepath) = ParentDir
     ∧ w_fs (make_parents filepath w).2
       = <[removelast filepath := Dir]> (w_fs w)).
Proof.
  destruct (make_parents filepath w) as [r w'] eqn:Hrun. cbn [snd].
  revert Hrun. unfold make_parents. cbn [os_path_split].
  generalize (removelast filepath) as d. intros d.
  cbn [make_parents_loop]. rewrite bind_run.
  unfold os_path_exists at 1.
  destruct (w_fs w !! d) as [n|] eqn:Hd.
  { rewrite bool_decide_eq_true_2 by eauto. intros [= _ <-]. by left. }
  rewrite bool_decide_eq_false_2 by apply is_Some_None.
  cbn [negb]. rewrite bind_run. unfold os_mkdir. rewrite Hd.
  destruct (parent_of (w_fs w) d) eqn:Hpar;
    try (intros [= _ <-]; by left).
  intros Hrun. right. split; [done|]. split; [done|].
  cbn [os_path_split fst] in Hrun.
  match type of Hrun with
  | make_parents_loop ?fuel ?up ?w1 = _ =>
      pose proof (make_parents_loop_stops fuel up w1) as Hstop
  end.
  rewrite Hrun in Hstop. cbn [snd w_fs] in Hstop. apply Hstop.
  destruct (parent_of_above _ _ Hpar) as [Hne [Hup|Hup]].
  - right. by rewrite Hup.
  - left. rewrite lookup_insert_ne by (symmetry; by apply removelast_ne).
    eauto.
Qed.



(** X12.  When [make_parents] returns, it has made at most one
    directory, that of the file, and changed nothing else; a second call
    then finds the directory and does nothing. *)
Theorem make_parents_makes_one_directory filepath w w' :
  make_parents filepath w = (Ok tt, w') →
  (w' = w
   ∨ (w_fs w !! removelast filepath = None
      ∧ w' = World (<[removelast filepath := Dir]> (w_fs w)) (w_stdin w)
                   (w_trace w ++ [EvMkdir (removelast filepath)])))
  ∧ make_parents filepath w' = (Ok tt, w').
Proof.
  intros Hrun. split.
  - apply make_parents_ok_inv in Hrun as [[-> _]|[Hd ->]]; [by left|].
    by right.
  - by apply make_parents_idempotent in Hrun.
Qed.

Lemma make_parents_makes_one_directory_witness :
  make_parents ["t"; "sub"; "new"; "f.txt"]
    (World (<[ ["t"; "sub"; "new"] := Dir ]> fs_sample_tree) []
           [EvMkdir ["t"; "sub"; "new"]])
  = (Ok tt, World (<[ ["t"; "sub"; "new"] := Dir ]> fs_sample_tree) []
                  [EvMkdir ["t"; "sub"; "new"]]).
Proof.
  refine (proj2 (make_parents_makes_one_directory
                   ["t"; "sub"; "new"; "f.txt"]
                   (World fs_sample_tree [] []) _ _)).
  vm_compute; reflexivity.
Defined.

(** X13.  At a relative path whose directory is a single name that is
    not there, [make_parents] makes the directory, goes on to the empty
    path above it, which [os.mkdir] refuses, and so raises
    [FileNotFoundError] with the directory made. *)
Theorem make_parents_relative_name name filename w :
  w_fs w !! [name] = None → w_fs w !! [] = None →
  make_parents [name; filename] w
  = (Raise FileNotFoundError,
     World (<[ [name] := Dir ]> (w_fs w)) (w_stdin w)
           (w_trace w ++ [EvMkdir [name]])).
Proof.
  intros Hd Hroot. unfold make_parents.
  cbn [os_path_split removelast length make_parents_loop fst].
  rewrite bind_run. unfold os_path_exists at 1.
  rewrite Hd, bool_decide_eq_false_2 by apply is_Some_None.
  cbn [negb]. rewrite bind_run. unfold os_mkdir at 1. rewrite Hd.
  cbn [parent_of removelast]. cbv iota beta.
  rewrite bind_run. unfold os_path_exists. cbn [w_fs].
  rewrite lookup_insert_ne, Hroot by done.
  rewrite bool_decide_eq_false_2 by apply is_Some_None.
  cbn [negb]. rewrite bind_run. unfold os_mkdir. cbn [w_fs].
  by rewrite lookup_insert_ne, Hroot by done.
Qed.

Lemma make_parents_relative_name_witness :
  make_parents ["a"; "c.txt"] (World ∅ [] [])
  = (Raise FileNotFoundError,
     World (<[ ["a"] := Dir ]> ∅) [] [EvMkdir ["a"]]).
Proof.
  by apply (make_parents_relative_name "a" "c.txt" (World ∅ [] [])).
Defined.

(** ** Where the program writes *)

Lemma changes_only_same {A : Type} (P : path → Prop) (m : M A) :
  (∀ w, w_fs (m w).2 = w_fs w) → changes_only P m.
Proof. intros H w q _. by rewrite H. Qed.

Lemma changes_only_reader {A : Type} (P : path → Prop) (m : M A) :
  reader m → changes_only P m.
Proof.
  intros Hm. apply changes_only_same. intros w. by destruct (Hm w) as [l ->].
Qed.

Lemma changes_only_mono {A : Type} (P Q : path → Prop) (m : M A) :
  (∀ q, P q → Q q) → changes_only P m → changes_only Q m.
Proof. intros HPQ Hm w q Hq. apply Hm. intros HP. by apply Hq, HPQ. Qed.

Lemma changes_only_bind {A B : Type} (P : path → Prop) (m : M A)
    (f : A → M B) :
  changes_only P m → (∀ a, changes_only P (f a)) → changes_only P (m ≫= f).
Proof.
  intros Hm Hf w q Hq. rewrite bind_run. specialize (Hm w q Hq).
  destruct (m w) as [[a| | |] w1]; simpl in *; try done.
  by rewrite Hf.
Qed.

Lemma changes_only_for_fold {A S : Type} (P : path → Prop)
    (body : S → A → M S) l :
  (∀ s x, changes_only P (body s x)) → ∀ s, changes_only P (for_fold body s l).
Proof.
  intros Hbody. induction l as [|x l IH]; intros s; simpl.
  - by apply changes_only_same.
  - apply changes_only_bind; [apply Hbody | intros s'; apply IH].
Qed.

Lemma changes_only_for_each {A : Type} (P : path → Prop)
    (body : A → M unit) l :
  (∀ x, changes_only P (body x)) → changes_only P (for_each body l).
Proof. intros H. apply changes_only_for_fold. intros _ x. apply H. Qed.

Lemma changes_only_print (P : path → Prop) line :
  changes_only P (print line).
Proof. by apply changes_only_same. Qed.

Lemma changes_only_dict_get (P : path → Prop) d k :
  changes_only P (dict_get d k).
Proof.
  apply changes_only_same. intros w. unfold dict_get. by destruct (d !! k).
Qed.

Lemma changes_only_create_file p c ev :
  changes_only (λ q, q = p) (create_file p c ev).
Proof.
  intros w q Hq. unfold create_file.
  destruct (w_fs w !! p) as [[c0|]|]; try done;
    destruct (parent_of (w_fs w) p); try done;
    simpl; by rewrite lookup_insert_ne by congruence.
Qed.

Lemma changes_only_file_write p text :
  changes_only (λ q, q = p) (file_write p text).
Proof.
  intros w q Hq. unfold file_write.
  destruct (w_fs w !! p) as [[c0|]|]; try done.
  destruct (Py.encodable text); [|done].
  simpl. by rewrite lookup_insert_ne by congruence.
Qed.

Lemma changes_only_write_db sumfile hashdb :
  changes_only (λ q, q = sumfile) (write_db sumfile hashdb).
Proof.
  unfold write_db, open_w.
  apply changes_only_bind; [apply changes_only_create_file|]. intros _.
  apply changes_only_for_each. intros k.
  apply changes_only_bind; [apply changes_only_dict_get|]. intros h.
  apply changes_only_file_write.
Qed.

Lemma changes_only_shutil_copy2 src dst :
  changes_only (λ q, dst `prefix_of` q) (shutil_copy2 src dst).
Proof.
  intros w q Hq. unfold shutil_copy2.
  destruct (w_fs w !! src) as [[c|]|]; try done.
  destruct (decide _); [done|].
  apply changes_only_create_file. intros ->. apply Hq.
  destruct (w_fs w !! dst) as [[|]|]; [done|by eexists|done].
Qed.

Lemma changes_only_make_parents filepath :
  changes_only (λ q, q = removelast filepath) (make_parents filepath).
Proof.
  intros w q Hq.
  destruct (make_parents_fs filepath w) as [->|(_ & _ & ->)]; [done|].
  by rewrite lookup_insert_ne by congruence.
Qed.

Lemma removelast_os_path_join dst name :
  dst `prefix_of` removelast (os_path_join dst name).
Proof.
  unfold os_path_join.
  destruct (exists_last (split_not_nil Py.SLASH name)) as (l & x & ->).
  rewrite app_assoc, removelast_snoc. by exists l.
Qed.

Lemma changes_only_replicate_clean src dst srcdb dstdb :
  changes_only (λ q, dst `prefix_of` q) (replicate_clean src dst srcdb dstdb).
Proof.
  assert (∀ s k, changes_only (λ q, dst `prefix_of` q)
                   (shutil_copy2 s (os_path_join dst k))) as Hcopy.
  { intros s k. eapply changes_only_mono; [|apply changes_only_shutil_copy2].
    intros q [rest ->]. unfold os_path_join. rewrite <-app_assoc.
    by eexists. }
  unfold replicate_clean. apply changes_only_bind.
  - apply changes_only_for_fold. intros new k. unfold replicate_file.
    apply changes_only_bind; [apply changes_only_dict_get|]. intros srchash.
    destruct (truthy _); [destruct (decide _)|].
    + repeat (apply changes_only_bind;
              [first [apply changes_only_print | apply Hcopy]|intros _]).
      by apply changes_only_same.
    + by apply changes_only_same.
    + apply changes_only_bind; [apply changes_only_print|]. intros _.
      apply changes_only_bind; [apply changes_only_print|]. intros _.
      apply changes_only_bind.
      { eapply changes_only_mono; [|apply changes_only_make_parents].
        intros q ->. apply removelast_os_path_join. }
      intros _. apply changes_only_bind; [apply Hcopy|]. intros _.
      by apply changes_only_same.
  - intros new. apply changes_only_bind.
    + apply changes_only_for_each. intros k. unfold report_deletion.
      destruct (negb _); [apply changes_only_print|by apply changes_only_same].
    + intros _. eapply changes_only_mono; [|apply changes_only_write_db].
      intros q ->. by eexists.
Qed.

(** X14.  [replicate] writes at the destination and below it, and nowhere
    else: whatever it returns, every path that does not start with the
    destination holds what it held.  The source, when it is not below the
    destination, is not changed. *)
Theorem replicate_writes_below_destination (sha1 : string → string)
    src dst w q :
  ¬ dst `prefix_of` q →
  w_fs (replicate sha1 src dst w).2 !! q = w_fs w !! q.
Proof.
  revert w q. change (changes_only (λ q, dst `prefix_of` q)
                        (replicate sha1 src dst)).
  unfold replicate.
  apply changes_only_bind; [apply changes_only_print|]. intros _.
  apply changes_only_bind; [apply changes_only_reader, reader_check|].
  intros srcdata.
  apply changes_only_bind; [apply changes_only_print|]. intros _.
  apply changes_only_bind; [apply changes_only_reader, reader_check|].
  intros dstdata.
  destruct (is_dirty srcdata); [apply changes_only_print|].
  destruct (is_dirty dstdata); [apply changes_only_print|].
  apply changes_only_replicate_clean.
Qed.

Lemma replicate_writes_below_destination_witness :
  w_fs (replicate sample_digest ["src"] ["dst"]
          (World fs_sample_pair [] [])).2 !! ["src"; "b.txt"]
  = w_fs (World fs_sample_pair [] []) !! ["src"; "b.txt"].
Proof.
  apply replicate_writes_below_destination.
  intros [rest Hrest]. discriminate Hrest.
Defined.

(** X15.  [interactive_check] writes the checksum file of the directory
    and nothing else: whatever it returns and whatever the answer, every
    other path holds what it held. *)
Theorem interactive_check_writes_checksum_file (sha1 : string → string)
    directory w q :
  q ≠ os_path_join directory ".sha1sums" →
  w_fs (interactive_check sha1 directory w).2 !! q = w_fs w !! q.
Proof.
  revert w q.
  change (changes_only (λ q, q = os_path_join directory ".sha1sums")
            (interactive_check sha1 directory)).
  unfold interactive_check.
  apply changes_only_bind; [apply changes_only_reader, reader_check|].
  intros data.
  apply changes_only_bind;
    [apply changes_only_reader, reader_show_changes|]. intros _.
  apply changes_only_bind; [apply changes_only_print|]. intros _.
  apply changes_only_bind.
  { apply changes_only_same. intros w. unfold input.
    by destruct (w_stdin w). }
  intros commit. apply changes_only_bind.
  { destruct (negb _); [|by apply changes_only_same].
    apply changes_only_bind; [apply changes_only_print|]. intros _.
    by apply changes_only_same. }
  intros _. unfold commit_changes.
  apply changes_only_bind.
  { apply changes_only_for_fold. intros s [k h]. by apply changes_only_same. }
  intros h1. apply changes_only_bind.
  { apply changes_only_for_fold. intros s [k h]. by apply changes_only_same. }
  intros h2. apply changes_only_bind.
  { apply changes_only_for_fold. intros s k. apply changes_only_same.
    intros w. unfold dict_del. by destruct (s !! k). }
  intros h3. apply changes_only_write_db.
Qed.

Lemma interactive_check_writes_checksum_file_witness :
  w_fs (interactive_check sample_digest ["t"]
          (World fs_sample_tree ["y"] [])).2 !! ["t"; "mod.txt"]
  = w_fs (World fs_sample_tree ["y"] []) !! ["t"; "mod.txt"].
Proof.
  apply interactive_check_writes_checksum_file. discriminate.
Defined.

(** ** What the program never removes *)

Lemma keeps_nodes_of_refl (fs : filesystem) : keeps_nodes_of fs fs.
Proof. intros q n Hq. by exists n. Qed.

Lemma keeps_nodes_of_trans (fs1 fs2 fs3 : filesystem) :
  keeps_nodes_of fs1 fs2 → keeps_nodes_of fs2 fs3 → keeps_nodes_of fs1 fs3.
Proof.
  intros H12 H23 q n Hq. destruct (H12 q n Hq) as (n2 & Hq2 & Hk2).
  destruct (H23 q n2 Hq2) as (n3 & Hq3 & Hk3). exists n3.
  split; [done|congruence].
Qed.

Lemma keeps_nodes_of_insert (fs : filesystem) p n :
  (∀ n0, fs !! p = Some n0 → is_dir n0 = is_dir n) →
  keeps_nodes_of fs (<[p := n]> fs).
Proof.
  intros Hp q n0 Hq. destruct (decide (p = q)) as [<-|Hne].
  - exists n. rewrite lookup_insert_eq. split; [done|].
    symmetry. by apply Hp.
  - exists n0. by rewrite lookup_insert_ne.
Qed.

Lemma keeps_nodes_same {A : Type} (m : M A) :
  (∀ w, w_fs (m w).2 = w_fs w) → keeps_nodes m.
Proof. intros H w. rewrite H. apply keeps_nodes_of_refl. Qed.

Lemma keeps_nodes_reader {A : Type} (m : M A) : reader m → keeps_nodes m.
Proof.
  intros Hm. apply keeps_nodes_same. intros w. by destruct (Hm w) as [l ->].
Qed.

Lemma keeps_nodes_bind {A B : Type} (m : M A) (f : A → M B) :
  keeps_nodes m → (∀ a, keeps_nodes (f a)) → keeps_nodes (m ≫= f).
Proof.
  intros Hm Hf w. rewrite bind_run. specialize (Hm w).
  destruct (m w) as [[a| | |] w1]; simpl in *; try done.
  eapply keeps_nodes_of_trans; [exact Hm|apply Hf].
Qed.

Lemma keeps_nodes_for_fold {A S : Type} (body : S → A → M S) l :
  (∀ s x, keeps_nodes (body s x)) → ∀ s, keeps_nodes (for_fold body s l).
Proof.
  intros Hbody. induction l as [|x l IH]; intros s; simpl.
  - by apply keeps_nodes_same.
  - apply keeps_nodes_bind; [apply Hbody | intros s'; apply IH].
Qed.

Lemma keeps_nodes_for_each {A : Type} (body : A → M unit) l :
  (∀ x, keeps_nodes (body x)) → keeps_nodes (for_each body l).
Proof. intros H. apply keeps_nodes_for_fold. intros _ x. apply H. Qed.

Lemma keeps_nodes_os_mkdir p : keeps_nodes (os_mkdir p).
Proof.
  intros w. unfold os_mkdir.
  destruct (w_fs w !! p) eqn:Hp; [apply keeps_nodes_of_refl|].
  destruct (parent_of (w_fs w) p); try apply keeps_nodes_of_refl.
  simpl. apply keeps_nodes_of_insert. intros n0 Hn0. congruence.
Qed.

Lemma keeps_nodes_create_file p c ev : keeps_nodes (create_file p c ev).
Proof.
  intros w. unfold create_file.
  destruct (w_fs w !! p) as [[c0|]|] eqn:Hp;
    try apply keeps_nodes_of_refl;
    destruct (parent_of (w_fs w) p); try apply keeps_nodes_of_refl;
    simpl; apply keeps_nodes_of_insert; intros n0 Hn0;
    rewrite Hp in Hn0; by simplify_eq.
Qed.

Lemma keeps_nodes_file_write p text : keeps_nodes (file_write p text).
Proof.
  intros w. unfold file_write.
  destruct (w_fs w !! p) as [[c0|]|] eqn:Hp; try apply keeps_nodes_of_refl.
  destruct (Py.encodable text); [|apply keeps_nodes_of_refl].
  simpl. apply keeps_nodes_of_insert. intros n0 Hn0.
  rewrite Hp in Hn0. by simplify_eq.
Qed.

Lemma keeps_nodes_shutil_copy2 src dst : keeps_nodes (shutil_copy2 src dst).
Proof.
  intros w. unfold shutil_copy2.
  destruct (w_fs w !! src) as [[c|]|]; try apply keeps_nodes_of_refl.
  destruct (decide _); [apply keeps_nodes_of_refl|].
  apply keeps_nodes_create_file.
Qed.

Lemma keeps_nodes_make_parents filepath : keeps_nodes (make_parents filepath).
Proof.
  intros w. destruct (make_parents_fs filepath w) as [->|(Hd & _ & ->)].
  - apply keeps_nodes_of_refl.
  - apply keeps_nodes_of_insert. intros n0 Hn0. congruence.
Qed.

Ltac keeps_nodes_tac :=
  repeat first
    [ progress intros
    | apply keeps_nodes_create_file | apply keeps_nodes_file_write
    | apply keeps_nodes_shutil_copy2 | apply keeps_nodes_make_parents
    | apply keeps_nodes_bind | apply keeps_nodes_for_fold
    | apply keeps_nodes_for_each
    | match goal with
      | |- keeps_nodes (if ?b then _ else _) => destruct b
      | |- keeps_nodes (match ?x with _ => _ end) => destruct x
      | |- keeps_nodes (let '(_, _) := ?x in _) => destruct x
      end
    | apply keeps_nodes_same; intros ?; reflexivity ].

Lemma keeps_nodes_input prompt : keeps_nodes (input prompt).
Proof.
  apply keeps_nodes_same. intros w. unfold input. by destruct (w_stdin w).
Qed.

Lemma keeps_nodes_write_db sumfile hashdb :
  keeps_nodes (write_db sumfile hashdb).
Proof.
  unfold write_db, open_w. apply keeps_nodes_bind; [keeps_nodes_tac|].
  intros _. apply keeps_nodes_for_each. intros k.
  apply keeps_nodes_bind; [|keeps_nodes_tac].
  apply keeps_nodes_same. intros w. unfold dict_get. by destruct (_ !! _).
Qed.

Lemma keeps_nodes_replicate (sha1 : string → string) src dst :
  keeps_nodes (replicate sha1 src dst).
Proof.
  unfold replicate.
  apply keeps_nodes_bind; [keeps_nodes_tac|]. intros _.
  apply keeps_nodes_bind; [apply keeps_nodes_reader, reader_check|].
  intros srcdata.
  apply keeps_nodes_bind; [keeps_nodes_tac|]. intros _.
  apply keeps_nodes_bind; [apply keeps_nodes_reader, reader_check|].
  intros dstdata.
  destruct (is_dirty srcdata); [keeps_nodes_tac|].
  destruct (is_dirty dstdata); [keeps_nodes_tac|].
  unfold replicate_clean. apply keeps_nodes_bind.
  - apply keeps_nodes_for_fold. intros new k. unfold replicate_file.
    apply keeps_nodes_bind.
    { apply keeps_nodes_same. intros w. unfold dict_get.
      by destruct (_ !! _). }
    intros srchash. destruct (truthy _); [destruct (decide _)|];
      keeps_nodes_tac.
  - intros new. apply keeps_nodes_bind.
    + apply keeps_nodes_for_each. intros k. unfold report_deletion.
      keeps_nodes_tac.
    + intros _. apply keeps_nodes_write_db.
Qed.

Lemma keeps_nodes_interactive_check (sha1 : string → string) directory :
  keeps_nodes (interactive_check sha1 directory).
Proof.
  unfold interactive_check.
  apply keeps_nodes_bind; [apply keeps_nodes_reader, reader_check|].
  intros data.
  apply keeps_nodes_bind; [apply keeps_nodes_reader, reader_show_changes|].
  intros _. apply keeps_nodes_bind; [keeps_nodes_tac|]. intros _.
  apply keeps_nodes_bind; [apply keeps_nodes_input|]. intros commit.
  apply keeps_nodes_bind; [keeps_nodes_tac|]. intros _.
  unfold commit_changes.
  apply keeps_nodes_bind; [keeps_nodes_tac|]. intros h1.
  apply keeps_nodes_bind; [keeps_nodes_tac|]. intros h2.
  apply keeps_nodes_bind.
  { apply keeps_nodes_for_fold. intros s k. apply keeps_nodes_same.
    intros w. unfold dict_del. by destruct (s !! k). }
  intros h3. apply keeps_nodes_write_db.
Qed.

(** X16.  No run of the program removes anything: whatever the arguments,
    the answers and the outcome, every file that was there is still a file
    and every directory still a directory. *)
Theorem main_removes_nothing (sha1 : string → string) argv w q n :
  w_fs w !! q = Some n →
  ∃ n', w_fs (main sha1 argv w).2 !! q = Some n' ∧ is_dir n' = is_dir n.
Proof.
  revert w q n. change (keeps_nodes (main sha1 argv)).
  assert (∀ i, keeps_nodes (list_get argv i)) as Hget.
  { intros i. apply keeps_nodes_same. intros w. unfold list_get.
    by destruct (argv !! i). }
  assert (keeps_nodes (usage argv)) as Husage.
  { unfold usage. keeps_nodes_tac; try apply Hget. }
  unfold main, unbound_name.
  destruct (length argv <? 2).
  { apply keeps_nodes_bind; [apply Husage|]. keeps_nodes_tac. }
  apply keeps_nodes_bind; [apply Hget|]. intros subcommand.
  destruct (decide (subcommand = "check")).
  { destruct (length argv <? 3).
    { apply keeps_nodes_bind; [apply Husage|]. keeps_nodes_tac. }
    apply keeps_nodes_bind; [apply Hget|]. intros d.
    apply keeps_nodes_interactive_check. }
  destruct (decide (subcommand = "replicate")).
  { destruct (length argv <? 4).
    { apply keeps_nodes_bind; [apply Husage|]. keeps_nodes_tac. }
    apply keeps_nodes_bind; [apply Hget|]. intros s.
    apply keeps_nodes_bind; [apply Hget|]. intros d.
    apply keeps_nodes_replicate. }
  keeps_nodes_tac; apply Hget.
Qed.

Lemma main_removes_nothing_witness :
  ∃ n',
    w_fs (main sample_digest ["freeze.py"; "replicate"; "src"; "dst"]
            (World fs_sample_pair [] [])).2 !! ["dst"; "c.txt"] = Some n'
    ∧ is_dir n' = is_dir (File "C").
Proof.
  apply main_removes_nothing. vm_compute; reflexivity.
Defined.

(** ** [interactive_check]: the commit and the end of the input *)


(** The deletions of a successful check are keys of the database, also
    after the additions and the changes were assigned. *)
Lemma deletions_known (sha1 : string → string) (fs : filesystem)
    directory log data :
  eval fs (check sha1 directory log) = Ok data →
  NoDup (deletions data)
  ∧ ∀ k, k ∈ deletions data →
         is_Some (insert_all (insert_all (db data) (additions data))
                             (changes data) !! k).
Proof.
  intros (_ & _ & _ & Hdel & Na & Nc & Nd)%check_lists. split; [done|].
  intros k [Hk Hout]%Hdel. unfold paths in *.
  rewrite !lookup_insert_all by done.
  apply elem_of_dom in Hk as [v Hv]. rewrite Hv.
  repeat case_match; eauto.
Qed.



(** X18.  At the end of the input, when no answer can be read,
    [interactive_check] ends with [EOFError] after its report and its
    question, and has written nothing. *)
Theorem interactive_check_end_of_input (sha1 : string → string) directory w
    data :
  eval (w_fs w) (check sha1 directory true) = Ok data →
  w_stdin w = [] →
  ∃ w', interactive_check sha1 directory w = (Raise EOFError, w')
        ∧ untouched w w'
        ∧ last (w_trace w') = Some (EvPrompt "Commit changes [y/n]? ").
Proof.
  intros Hcheck Hin.
  destruct (interactive_check_run sha1 directory w data Hcheck)
    as [lines ->].
  rewrite Hin. eexists. split; [done|]. split; [apply untouched_asked|].
  simpl. by rewrite !app_assoc, last_snoc.
Qed.

Lemma interactive_check_end_of_input_witness :
  ∃ w', interactive_check sample_digest ["t"] (World fs_sample_tree [] [])
        = (Raise EOFError, w')
        ∧ untouched (World fs_sample_tree [] []) w'
        ∧ last (w_trace w') = Some (EvPrompt "Commit changes [y/n]? ").
Proof.
  apply (interactive_check_end_of_input sample_digest ["t"]
           (World fs_sample_tree [] []) data_sample_tree).
  - apply check_sample_tree.
  - reflexivity.
Defined.

(** ** The main program: arguments and lookups *)

(** X19.  With too few arguments (no subcommand, [check] without a
    directory, [replicate] without both directories) the main program
    prints the two lines of the usage and ends by [exit(1)]; it reads and
    writes nothing. *)
Theorem main_too_few_arguments (sha1 : string → string) argv0 rest w :
  rest = [] ∨ rest = ["check"]
  ∨ (∃ args, rest = "replicate" :: args ∧ length args < 2) →
  main sha1 (argv0 :: rest) w
  = (Exit 1, printed w [ "Usage: " +:+ argv0 +:+ " check [directory]";
                         "Usage: " +:+ argv0 +:+ " replicate [src] [dst]" ]).
Proof.
  assert (∀ l, (usage (argv0 :: l) ≫= λ _, exit 1) w
               = (@Exit unit 1,
                  printed w
                    [ "Usage: " +:+ argv0 +:+ " check [directory]";
                      "Usage: " +:+ argv0 +:+ " replicate [src] [dst]" ]))
    as Husage.
  { intros l. unfold usage. simpl. rewrite !bind_run. simpl.
    unfold printed. simpl. by rewrite <-app_assoc. }
  intros [->|[->|(args & -> & Hlen)]]; unfold main.
  - exact (Husage []).
  - change (length [argv0; "check"] <? 2) with false. cbv iota.
    rewrite bind_run.
    change (list_get [argv0; "check"] 1 w) with (@Ok string "check", w).
    cbv iota beta. rewrite decide_True by done.
    exact (Husage ["check"]).
  - destruct args as [|a [|b args]]; [| |simpl in Hlen; lia].
    + change (length [argv0; "replicate"] <? 2) with false. cbv iota.
      rewrite bind_run.
      change (list_get [argv0; "replicate"] 1 w)
        with (@Ok string "replicate", w).
      cbv iota beta. rewrite decide_False, decide_True by done.
      exact (Husage ["replicate"]).
    + change (length [argv0; "replicate"; a] <? 2) with false. cbv iota.
      rewrite bind_run.
      change (list_get [argv0; "replicate"; a] 1 w)
        with (@Ok string "replicate", w).
      cbv iota beta. rewrite decide_False, decide_True by done.
      exact (Husage ["replicate"; a]).
Qed.

Lemma main_too_few_arguments_witness :
  main sample_digest ["freeze.py"; "replicate"; "src"]
    (World fs_sample_pair [] [])
  = (Exit 1,
     printed (World fs_sample_pair [] [])
       [ "Usage: " +:+ "freeze.py" +:+ " check [directory]";
         "Usage: " +:+ "freeze.py" +:+ " replicate [src] [dst]" ]).
Proof.
  apply main_too_few_arguments. right. right. exists ["src"].
  split; [reflexivity|]. simpl. lia.
Defined.

(** ** No lookup fails *)

Lemma never_raises_ret {A : Type} e (a : A) : never_raises e (mret a).
Proof. by intros w. Qed.

Lemma never_raises_exit {A : Type} e c : never_raises e (@exit A c).
Proof. by intros w. Qed.

Lemma never_raises_raise {A : Type} e e' :
  e ≠ e' → never_raises e (@raise A e').
Proof. intros Hne w [= ->]. done. Qed.

Lemma never_raises_print e line : never_raises e (print line).
Proof. by intros w. Qed.

Lemma never_raises_bind {A B : Type} e (m : M A) (f : A → M B) :
  never_raises e m → (∀ a, never_raises e (f a)) → never_raises e (m ≫= f).
Proof.
  intros Hm Hf w. rewrite bind_run. specialize (Hm w).
  destruct (m w) as [[a|e0|c|] w1]; simpl in *; [apply Hf| |done|done].
  intros [= ->]. by apply Hm.
Qed.

(** After a computation that only reads, what follows is run on a result
    of that computation. *)
Lemma never_raises_bind_reader {A B : Type} e (m : M A) (f : A → M B) :
  reader m → never_raises e m →
  (∀ a fs, eval fs m = Ok a → never_raises e (f a)) →
  never_raises e (m ≫= f).
Proof.
  intros Hr Hm Hf w. rewrite bind_run. specialize (Hm w).
  destruct (Hr w) as [lines Hw]. rewrite Hw in Hm |- *.
  destruct (eval (w_fs w) m) as [a|e0|c|] eqn:E; simpl in *;
    [by apply (Hf a (w_fs w))| |done|done].
  intros [= ->]. by apply Hm.
Qed.

Lemma never_raises_for_fold {A S : Type} e (body : S → A → M S) l :
  (∀ s x, x ∈ l → never_raises e (body s x)) →
  ∀ s, never_raises e (for_fold body s l).
Proof.
  induction l as [|x l IH]; intros Hbody s; simpl.
  - apply never_raises_ret.
  - apply never_raises_bind; [apply Hbody; left|].
    intros s'. apply IH. intros s'' y Hy. apply Hbody. by right.
Qed.

Lemma never_raises_for_each {A : Type} e (body : A → M unit) l :
  (∀ x, x ∈ l → never_raises e (body x)) → never_raises e (for_each body l).
Proof. intros H. apply never_raises_for_fold. intros _ x. apply H. Qed.

Lemma never_raises_dict_get e (d : gmap string string) k :
  is_Some (d !! k) → never_raises e (dict_get d k).
Proof. intros [v Hv] w. unfold dict_get. by rewrite Hv. Qed.

Lemma never_raises_list_get e (l : list string) i :
  i < length l → never_raises e (list_get l i).
Proof.
  intros Hi w. unfold list_get.
  destruct (lookup_lt_is_Some_2 l i Hi) as [v ->]. done.
Qed.

Section LookupErrors.

Variable e : exn.
Hypothesis lookup : lookup_error e.

Lemma never_raises_file_error {A : Type} e' :
  e' ≠ KeyError → e' ≠ IndexError → never_raises e (@raise A e').
Proof.
  intros H1 H2. apply never_raises_raise. by destruct lookup as [->| ->].
Qed.

Lemma never_raises_os_mkdir p : never_raises e (os_mkdir p).
Proof.
  intros w. unfold os_mkdir.
  destruct lookup as [->| ->];
    by destruct (w_fs w !! p), (parent_of (w_fs w) p).
Qed.

Lemma never_raises_create_file p c ev : never_raises e (create_file p c ev).
Proof.
  intros w. unfold create_file.
  destruct lookup as [->| ->];
    by destruct (w_fs w !! p) as [[]|], (parent_of (w_fs w) p).
Qed.

Lemma never_raises_file_write p text : never_raises e (file_write p text).
Proof.
  intros w. unfold file_write.
  destruct lookup as [->| ->];
    by destruct (w_fs w !! p) as [[]|], (Py.encodable text).
Qed.

Lemma never_raises_read_file p : never_raises e (read_file p).
Proof.
  intros w. unfold read_file.
  destruct lookup as [->| ->]; by destruct (w_fs w !! p) as [[]|].
Qed.

Lemma never_raises_shutil_copy2 src dst :
  never_raises e (shutil_copy2 src dst).
Proof.
  intros w. unfold shutil_copy2.
  destruct (w_fs w !! src) as [[c|]|];
    [|by destruct lookup as [->| ->]..].
  destruct (decide _); [by destruct lookup as [->| ->]|].
  apply never_raises_create_file.
Qed.

Lemma never_raises_make_parents filepath :
  never_raises e (make_parents filepath).
Proof.
  unfold make_parents. cbn [os_path_split].
  generalize (S (length (removelast filepath))) as fuel.
  generalize (removelast filepath) as d.
  intros d fuel. revert d. induction fuel as [|fuel IH]; intros d.
  - intros w. by destruct lookup as [->| ->].
  - cbn [make_parents_loop]. apply never_raises_bind; [by intros w|].
    intros []; cbn [negb]; [apply never_raises_ret|].
    apply never_raises_bind; [apply never_raises_os_mkdir|].
    intros _. apply IH.
Qed.

Lemma never_raises_input prompt : never_raises e (input prompt).
Proof.
  intros w. unfold input.
  destruct lookup as [->| ->]; by destruct (w_stdin w).
Qed.

Lemma never_raises_write_db sumfile (hashdb : gmap string string) :
  never_raises e (write_db sumfile hashdb).
Proof.
  unfold write_db, open_w.
  apply never_raises_bind; [apply never_raises_create_file|]. intros _.
  apply never_raises_for_each.
  intros k ([k' h] & -> & Hkh%elem_of_map_to_list)%list_elem_of_fmap.
  apply never_raises_bind; [apply never_raises_dict_get; by exists h|].
  intros h'. apply never_raises_file_write.
Qed.

Lemma never_raises_load_db sumfile : never_raises e (load_db sumfile).
Proof.
  unfold load_db. apply never_raises_bind; [by intros w|].
  intros []; repeat (apply never_raises_bind;
                     [first [apply never_raises_print
                            | apply never_raises_read_file]|intros ?]);
    [|apply never_raises_ret].
  apply never_raises_for_fold. intros s line _. unfold load_line.
  destruct (Py.split1 _ _) as [[h k]|]; [apply never_raises_ret|].
  by apply never_raises_file_error.
Qed.

Lemma never_raises_check (sha1 : string → string) directory log :
  never_raises e (check sha1 directory log).
Proof.
  unfold check. apply never_raises_bind; [apply never_raises_load_db|].
  intros hashdb. apply never_raises_bind.
  { destruct log; [apply never_raises_print|apply never_raises_ret]. }
  intros _. apply never_raises_bind; [by intros w|]. intros walked.
  apply never_raises_bind.
  { destruct log; [apply never_raises_print|apply never_raises_ret]. }
  intros _. apply never_raises_bind.
  - apply never_raises_for_fold. intros acc p _. unfold check_file.
    apply never_raises_bind; [apply never_raises_read_file|].
    intros c. apply never_raises_ret.
  - intros [adds chgs]. apply never_raises_ret.
Qed.

Lemma never_raises_replicate (sha1 : string → string) src dst :
  never_raises e (replicate sha1 src dst).
Proof.
  unfold replicate.
  apply never_raises_bind; [apply never_raises_print|]. intros _.
  apply never_raises_bind; [apply never_raises_check|]. intros srcdata.
  apply never_raises_bind; [apply never_raises_print|]. intros _.
  apply never_raises_bind; [apply never_raises_check|]. intros dstdata.
  destruct (is_dirty srcdata); [apply never_raises_print|].
  destruct (is_dirty dstdata); [apply never_raises_print|].
  unfold replicate_clean. apply never_raises_bind.
  - apply never_raises_for_fold.
    intros new k ([k' h] & -> & Hkh%elem_of_map_to_list)%list_elem_of_fmap.
    unfold replicate_file.
    apply never_raises_bind; [apply never_raises_dict_get; by exists h|].
    intros srchash. destruct (truthy _); [destruct (decide _)|];
      repeat (apply never_raises_bind;
              [first [apply never_raises_print
                     | apply never_raises_shutil_copy2
                     | apply never_raises_make_parents]|intros ?]);
      apply never_raises_ret.
  - intros new. apply never_raises_bind.
    + apply never_raises_for_each. intros k _. unfold report_deletion.
      destruct (negb _); [apply never_raises_print|apply never_raises_ret].
    + intros _. apply never_raises_write_db.
Qed.

Lemma never_raises_show_changes (sha1 : string → string) (fs : filesystem)
    directory log data :
  eval fs (check sha1 directory log) = Ok data →
  never_raises e (show_changes (db data) (additions data) (changes data)
                    (deletions data)).
Proof.
  intros (_ & _ & Hchg & Hdel & _)%check_lists. unfold show_changes.
  apply never_raises_bind; [apply never_raises_print|]. intros _.
  apply never_raises_bind.
  { apply never_raises_for_each. intros [p h] _.
    repeat (apply never_raises_bind; [apply never_raises_print|intros ?]).
    apply never_raises_print. }
  intros _. apply never_raises_bind.
  { apply never_raises_for_each.
    intros [p h] (_ & _ & known & Hk & _)%Hchg.
    repeat (apply never_raises_bind; [apply never_raises_print|intros ?]).
    apply never_raises_bind; [apply never_raises_dict_get; eauto|].
    intros ?. apply never_raises_print. }
  intros _. apply never_raises_for_each. intros p [Hp _]%Hdel.
  repeat (apply never_raises_bind; [apply never_raises_print|intros ?]).
  apply never_raises_bind.
  { apply never_raises_dict_get. by apply elem_of_dom. }
  intros ?. apply never_raises_print.
Qed.

Lemma never_raises_interactive_check (sha1 : string → string) directory :
  never_raises e (interactive_check sha1 directory).
Proof.
  unfold interactive_check.
  apply never_raises_bind_reader;
    [apply reader_check|apply never_raises_check|].
  intros data fs Hcheck.
  apply never_raises_bind; [by eapply never_raises_show_changes|].
  intros _. apply never_raises_bind; [apply never_raises_print|]. intros _.
  apply never_raises_bind; [apply never_raises_input|]. intros commit.
  apply never_raises_bind.
  { destruct (negb _); [|apply never_raises_ret].
    apply never_raises_bind; [apply never_raises_print|]. intros _.
    apply never_raises_exit. }
  intros _ w.
  destruct (deletions_known _ _ _ _ _ Hcheck) as [Nd Hkeys].
  rewrite (commit_changes_run _ _ _ Nd Hkeys).
  apply never_raises_write_db.
Qed.

End LookupErrors.

(** X20.  Run with [sys.argv] as the interpreter sets it, not empty, the
    program never ends with [KeyError] or [IndexError]: every subscript
    of a dictionary is a key that the dictionary has, and every index of
    [sys.argv] is below its length. *)
Theorem main_no_failed_lookup (sha1 : string → string) argv w :
  argv ≠ [] →
  (main sha1 argv w).1 ≠ Raise KeyError
  ∧ (main sha1 argv w).1 ≠ Raise IndexError.
Proof.
  intros Hargv.
  assert (∀ e, lookup_error e → never_raises e (main sha1 argv)) as Hmain.
  { intros e He.
    assert (never_raises e (usage argv)) as Husage.
    { unfold usage.
      assert (0 < length argv) as H0 by (destruct argv; simpl; [done|lia]).
      apply never_raises_bind; [by apply never_raises_list_get|]. intros ?.
      apply never_raises_bind; [apply never_raises_print|]. intros _.
      apply never_raises_bind; [by apply never_raises_list_get|]. intros ?.
      apply never_raises_print. }
    assert (never_raises e (usage argv ≫= λ _, @exit unit 1)) as Hexit.
    { apply never_raises_bind; [done|]. intros _. apply never_raises_exit. }
    unfold main, unbound_name.
    destruct (length argv <? 2) eqn:H2; [done|].
    apply Nat.ltb_ge in H2.
    apply never_raises_bind; [apply never_raises_list_get; lia|].
    intros subcommand.
    destruct (decide (subcommand = "check")).
    { destruct (length argv <? 3) eqn:H3; [done|].
      apply Nat.ltb_ge in H3.
      apply never_raises_bind; [apply never_raises_list_get; lia|].
      intros d. by apply never_raises_interactive_check. }
    destruct (decide (subcommand = "replicate")).
    { destruct (length argv <? 4) eqn:H4; [done|].
      apply Nat.ltb_ge in H4.
      apply never_raises_bind; [apply never_raises_list_get; lia|].
      intros s.
      apply never_raises_bind; [apply never_raises_list_get; lia|].
      intros d. by apply never_raises_replicate. }
    apply never_raises_bind.
    - apply never_raises_raise. by destruct He as [->| ->].
    - intros ?. apply never_raises_bind; [apply never_raises_print|].
      intros _. exact Hexit. }
  split; apply Hmain; [by left|by right].
Qed.

Lemma main_no_failed_lookup_witness :
  (main sample_digest ["freeze.py"; "check"; "t"]
     (World fs_sample_tree ["y"] [])).1 ≠ Raise KeyError
  ∧ (main sample_digest ["freeze.py"; "check"; "t"]
       (World fs_sample_tree ["y"] [])).1 ≠ Raise IndexError.
Proof. by apply main_no_failed_lookup. Defined.

(** ** [replicate]: what is copied and what is saved *)

(** The first loop of [replicate] assigns the digests of the source to
    the keys it goes through, and no other key. *)
Lemma for_fold_replicate_file_result src dst
    (srcdb newdsthash : gmap string string) l w newdsthash' w' p :
  NoDup l →
  for_fold (replicate_file src dst srcdb) newdsthash l w
  = (Ok newdsthash', w') →
  newdsthash' !! p = if decide (p ∈ l) then srcdb !! p else newdsthash !! p.
Proof.
  revert newdsthash w. induction l as [|k l IH]; intros new w Hnd H.
  - injection H as <- _. by rewrite decide_False by apply not_elem_of_nil.
  - apply NoDup_cons in Hnd as [Hk Hnd]. simpl in H. bind_inv H.
    rewrite (IH _ _ Hnd H).
    destruct (decide (p ∈ l)) as [Hp|Hp].
    + by rewrite decide_True by by right.
    + destruct (decide (p = k)) as [->|Hne].
      * rewrite decide_True by left. by eapply replicate_file_key.
      * rewrite decide_False by (by intros [?|?]%elem_of_cons).
        by eapply replicate_file_lookup.
Qed.

(** X21.  When [replicate] of two clean trees returns, the checksum file
    that it has written for the destination holds the lines of the
    database of the source over that of the destination: every name of
    the source with the digest of the source, every other name of the
    destination with the digest it had. *)
Theorem replicate_saves_source_over_destination (sha1 : string → string)
    src dst w srcdata dstdata w' :
  eval (w_fs w) (check sha1 src true) = Ok srcdata →
  eval (w_fs w) (check sha1 dst true) = Ok dstdata →
  is_dirty srcdata = false → is_dirty dstdata = false →
  replicate sha1 src dst w = (Ok tt, w') →
  w_fs w' !! os_path_join dst ".sha1sums"
  = Some (File (db_text (map_to_list (db srcdata ∪ db dstdata)))).
Proof.
  intros Hsrc Hdst Hcs Hcd Hrun.
  destruct (replicate_gates sha1 src dst w _ _ Hsrc Hdst) as [lines Hgates].
  rewrite Hcs, Hcd, Hrun in Hgates. symmetry in Hgates.
  unfold replicate_clean in Hgates. bind_inv Hgates. bind_inv Hgates.
  apply write_db_ok_inv in Hgates. subst w'. cbn [w_fs].
  rewrite lookup_insert_eq.
  assert (a = db srcdata ∪ db dstdata) as ->; [|done].
  apply map_eq. intros p.
  rewrite (for_fold_replicate_file_result _ _ _ _ _ _ _ _ p
             (NoDup_fst_map_to_list _) Hstep).
  rewrite lookup_union.
  destruct (decide (p ∈ (map_to_list (db srcdata)).*1)) as [Hp|Hp].
  - apply list_elem_of_fmap in Hp as ([k h] & -> & Hkh%elem_of_map_to_list).
    simpl. rewrite Hkh. by destruct (db dstdata !! k).
  - assert (db srcdata !! p = None) as ->; [|by destruct (db dstdata !! p)].
    destruct (db srcdata !! p) as [h|] eqn:Hh; [|done].
    destruct Hp. apply list_elem_of_fmap. exists (p, h).
    split; [done|]. by apply elem_of_map_to_list.
Qed.

Lemma replicate_saves_source_over_destination_witness :
  ∃ w',
    replicate sample_digest ["src"] ["dst"] (World fs_sample_pair [] [])
    = (Ok tt, w')
    ∧ w_fs w' !! os_path_join ["dst"] ".sha1sums"
      = Some (File (db_text (map_to_list (db data_sample_src
                                          ∪ db data_sample_dst)))).
Proof.
  destruct (replicate sample_digest ["src"] ["dst"]
              (World fs_sample_pair [] [])) as [r w'] eqn:Hrun.
  assert (r = Ok tt) as ->.
  { change r with (r, w').1. rewrite <-Hrun. vm_compute; reflexivity. }
  exists w'. split; [done|].
  exact (replicate_saves_source_over_destination sample_digest ["src"]
           ["dst"] (World fs_sample_pair [] []) data_sample_src
           data_sample_dst w' (check_sample_src true) (check_sample_dst true)
           eq_refl eq_refl Hrun).
Defined.



Section ReplicateRuns.

Variables src dst : path.
Variable srcdb : gmap string string.
Hypothesis src_not_above : ¬ src `prefix_of` dst.
Hypothesis dst_not_above : ¬ dst `prefix_of` src.





End ReplicateRuns.






(** ** The destination after [replicate] *)




Section ReplicateThenCheck.

Variable sha1 : string → string.
Variables src dst : path.
Variables fs fs' : filesystem.
Variables srcdata dstdata : check_data.

Hypothesis tree : tree_shaped fs.
Hypothesis names : slash_free fs.
Hypothesis dst_dir : fs !! dst = Some Dir.
Hypothesis src_ok : eval fs (check sha1 src true) = Ok srcdata.
Hypothesis dst_ok : eval fs (check sha1 dst true) = Ok dstdata.
Hypothesis src_clean : is_dirty srcdata = false.
Hypothesis dst_clean : is_dirty dstdata = false.
Hypothesis new_files :
  ∀ k, k ∈ dom (db srcdata) → k ∉ dom (db dstdata) →
       fs !! os_path_join dst k ≠ Some Dir
       ∧ fs !! removelast (os_path_join dst k) = Some Dir.

(** What [replicate] leaves, as [replicate_run] gives it. *)
Hypothesis saved :
  fs' !! os_path_join dst ".sha1sums"
  = Some (File (db_text (map_to_list (db srcdata ∪ db dstdata)))).
Hypothesis frame :
  ∀ q, q ≠ os_path_join dst ".sha1sums" →
       (∀ k, k ∈ dom (db srcdata) → q ≠ os_path_join dst k) →
       fs' !! q = fs !! q.
Hypothesis copied :
  ∀ k, k ∈ dom (db srcdata) →
       fs' !! os_path_join dst k = fs !! os_path_join src k
       ∨ (db dstdata !! k = db srcdata !! k
          ∧ fs' !! os_path_join dst k = fs !! os_path_join dst k).












End ReplicateThenCheck.




